(** * Curriculum-aware statistics: a shallow embedding

    The development follows [generate_curriculum_aware_statistics.py] and
    [generate_statistical_summary.py].  In the statistics Python floats
    are idealised as exact rationals ([Q]); the formatter, where rounding
    is the point, works on binary64 floats.  Python ints are [Z]; Python
    dicts keyed by stage number are [gmap Z _]; the results dictionaries,
    whose insertion order is the order of the rendered rows, are
    association lists. *)

From Stdlib Require Import QArith Qround Qabs Qminmax Qpower Lqa Ascii String DecimalString.
From Stdlib Require Import DecimalN DecimalPos.
From Stdlib Require PrimFloat FloatOps SpecFloat.
From stdpp Require Import gmap strings list fin_maps sorting.

#[local] Set Warnings "-clear-no-such-hyp".
#[local] Set Warnings "-inexact-float".

Open Scope Z_scope.

(** ** Python primitives used by the scripts *)

(** [int(x)] on a float: truncation toward zero. *)
Definition py_int (x : Q) : Z := Z.quot (Qnum x) (Z.pos (Qden x)).

(** [l[start:]] for a possibly negative [start]. *)
Definition py_slice_from {A} (l : list A) (start : Z) : list A :=
  let n := Z.of_nat (length l) in
  if start <? 0 then drop (Z.to_nat (Z.max 0 (n + start))) l
  else drop (Z.to_nat (Z.min start n)) l.

(** [zip(a, b)] stops at the shorter list. *)
Definition py_zip {A B} (a : list A) (b : list B) : list (A * B) := zip a b.

(** ** find_stage_transitions *)

Module Segmenter.

(** The three local variables the scan updates. *)
Record scan_state := ScanState {
  stage_ranges : gmap Z (Z * Z);
  current_stage : Z;
  stage_start : Z
}.

(** Which arm of the loop body an iteration takes.  [ClosedAtCurrent] is
    the [else step] arm of [stage_steps[i-1] if i > 0 else step]. *)
Inductive branch := Unchanged | ClosedAtPrevious | ClosedAtCurrent.

Definition branch_of (i : nat) (stage_num cur : Z) : branch :=
  if decide (stage_num ≠ cur) then
    if decide (0 < i)%nat then ClosedAtPrevious else ClosedAtCurrent
  else Unchanged.

(** One iteration of the [for i, (step, stage_val) in enumerate(zip(..))]
    loop.  [None] stands for an [IndexError] raised by [stage_steps[i-1]]. *)
Definition scan_body (stage_steps : list Z) (i : nat) (step : Z) (stage_val : Q)
    (st : scan_state) : option scan_state :=
  let stage_num := py_int stage_val in
  match branch_of i stage_num (current_stage st) with
  | Unchanged => Some st
  | ClosedAtPrevious =>
      prev ← stage_steps !! (i - 1)%nat;
      Some (ScanState (<[current_stage st := (stage_start st, prev)]> (stage_ranges st))
                      stage_num step)
  | ClosedAtCurrent =>
      Some (ScanState (<[current_stage st := (stage_start st, step)]> (stage_ranges st))
                      stage_num step)
  end.

(** The loop, together with a ghost log of the arm taken at each index. *)
Fixpoint scan_loop (stage_steps : list Z) (i : nat) (items : list (Z * Q))
    (st : scan_state) (log : list (nat * branch)) : option (scan_state * list (nat * branch)) :=
  match items with
  | [] => Some (st, log)
  | (step, stage_val) :: rest =>
      st' ← scan_body stage_steps i step stage_val st;
      scan_loop stage_steps (S i) rest st'
                (log ++ [(i, branch_of i (py_int stage_val) (current_stage st))])
  end.

(** State on entry to the loop (lines 38-40). *)
Definition init_state (stage_steps : list Z) (stage_values : list Q) : scan_state :=
  ScanState ∅ (from_option py_int 0 (head stage_values)) (default 0 (head stage_steps)).

Definition find_stage_transitions_traced (stage_steps : list Z) (stage_values : list Q)
    : option (gmap Z (Z * Z) * list (nat * branch)) :=
  match stage_steps, stage_values with
  | [], _ | _, [] => Some (∅, [])
  | _, _ =>
      '(st, log) ← scan_loop stage_steps 0 (py_zip stage_steps stage_values)
                     (init_state stage_steps stage_values) [];
      last_step ← last stage_steps;
      Some (<[current_stage st := (stage_start st, last_step)]> (stage_ranges st), log)
  end.

Definition find_stage_transitions (stage_steps : list Z) (stage_values : list Q)
    : option (gmap Z (Z * Z)) :=
  fst <$> find_stage_transitions_traced stage_steps stage_values.

End Segmenter.

(** ** The NumPy routines the scripts call

    The statistics are computed here on exact rationals.  [np.min] and
    [np.max] are exact on doubles as well.  [np.mean] rounds: the
    definition below stands for the value it approximates and serves to
    name which list is averaged; no order between a mean and the values
    it averages is drawn from it.  The square root behind [np.std],
    [np.percentile] and the process-global generator behind
    [np.random.choice] belong to NumPy and are taken as an interface. *)

Class NumPy := {
  np_sqrt : Q → Q;
  np_percentile : list Q → Q → Q;
  (** state of the global generator [np.random] *)
  rng : Type;
  (** [np.random.choice(data, size=size, replace=True)] *)
  np_random_choice : list Q → nat → rng → list Q * rng
}.

Definition Qsum (l : list Q) : Q := foldr Qplus (0 # 1)%Q l.

(** [np.mean]; the scripts only call it on non-empty lists. *)
Definition np_mean (l : list Q) : Q :=
  Qred (Qsum l / inject_Z (Z.of_nat (length l))).

Definition np_min (l : list Q) : Q :=
  match l with [] => (0 # 1)%Q | x :: l' => foldl Qmin x l' end.

Definition np_max (l : list Q) : Q :=
  match l with [] => (0 # 1)%Q | x :: l' => foldl Qmax x l' end.

(** [np.std]: population standard deviation. *)
Definition np_std `{NumPy} (l : list Q) : Q :=
  let m := np_mean l in
  np_sqrt (np_mean ((λ x, Qabs (x - m) * Qabs (x - m))%Q <$> l)).

(** ** get_stage_performance *)

Module Aggregator.

Record stage_perf := StagePerf {
  sp_mean : Q;
  sp_std : Q;
  sp_min : Q;
  sp_max : Q;
  sp_n_steps : nat;
  sp_step_range : Z * Z
}.

(** Lines 67-70: the values whose step lies in [start_step, end_step]. *)
Fixpoint values_in_range (items : list (Z * Q)) (start_step end_step : Z) : list Q :=
  match items with
  | [] => []
  | (step, value) :: rest =>
      if decide (start_step ≤ step ∧ step ≤ end_step)
      then value :: values_in_range rest start_step end_step
      else values_in_range rest start_step end_step
  end.

(** Lines 76-79: the trailing window. *)
Definition final_window_values (stage_values : list Q) (stage_window : Z) : list Q :=
  if decide (stage_window < Z.of_nat (length stage_values))
  then py_slice_from stage_values (- stage_window)
  else stage_values.

Definition stage_stats `{NumPy} (final_values : list Q) (n_steps : nat)
    (step_range : Z * Z) : stage_perf :=
  StagePerf (np_mean final_values) (np_std final_values)
            (np_min final_values) (np_max final_values) n_steps step_range.

(** The body of the loop over [stage_ranges.items()]: what, if anything,
    is stored under the stage. *)
Definition stage_entry `{NumPy} (steps : list Z) (values : list Q) (stage_window : Z)
    (range : Z * Z) : option stage_perf :=
  let stage_values := values_in_range (py_zip steps values) range.1 range.2 in
  match stage_values with
  | [] => None
  | _ =>
      let final_values := final_window_values stage_values stage_window in
      match final_values with
      | [] => None
      | _ => Some (stage_stats final_values (length stage_values) range)
      end
  end.

Definition get_stage_performance `{NumPy} (steps : list Z) (values : list Q)
    (stage_ranges : gmap Z (Z * Z)) (stage_window : Z) : gmap Z stage_perf :=
  omap (stage_entry steps values stage_window) stage_ranges.

End Aggregator.

(** ** bootstrap_ci (the two scripts define it with the same text) *)

Module Bootstrap.

(** [for _ in range(n): sample = choice(data, len(data)); means.append(mean(sample))] *)
Fixpoint resample_means `{NumPy} (n : nat) (data : list Q) (bootstrap_means : list Q)
    (g : rng) : list Q * rng :=
  match n with
  | O => (bootstrap_means, g)
  | S n' =>
      let '(sample, g') := np_random_choice data (length data) g in
      resample_means n' data (bootstrap_means ++ [np_mean sample]) g'
  end.

(** [np.percentile] raises on an empty list and on a rank outside
    [[0, 100]]; [np_percentile] stands for its value where it is defined.
    Past the guard that is the case for [1 <= n_bootstrap] and
    [0 <= confidence <= 1], which covers the defaults, the only arguments
    the scripts pass. *)
Definition bootstrap_ci `{NumPy} (data : list Q) (n_bootstrap : Z) (confidence : Q)
    (g : rng) : (Q * Q) * rng :=
  if decide (length data < 2)%nat then ((0 # 1, 0 # 1)%Q, g)
  else
    let '(bootstrap_means, g') := resample_means (Z.to_nat n_bootstrap) data [] g in
    let alpha := (1 - confidence)%Q in
    let lower := np_percentile bootstrap_means (100 * alpha / 2)%Q in
    let upper := np_percentile bootstrap_means (100 * (1 - alpha / 2))%Q in
    ((lower, upper), g').

(** The defaults of the signature. *)
Definition default_n_bootstrap : Z := 1000.
Definition default_confidence : Q := (95 # 100)%Q.

End Bootstrap.

(** ** The analyses of both scripts *)

Module Analysis.

Import Segmenter Aggregator Bootstrap.

(** A CSV file: rows of [(step, value)] with integer steps and finite
    values, as the exporter writes them.  Cells that [pd.read_csv] would
    load as NaN or infinity are outside this type; on such a stage value
    [int()] raises in [find_stage_transitions].  A run directory maps the
    names of its CSV files to their rows; the file system maps directory
    paths to directories.  An unreadable file loads as no rows, as in
    [load_csv_data]. *)
Definition csv : Type := list (Z * Q).
Abbreviation filesystem := (gmap string (gmap string csv)).

Definition read_file (fs : filesystem) (run_dir file : string) : option csv :=
  fs !! run_dir ≫= (.!! file).

(** [os.path.exists(os.path.join(run_dir, file))] *)
Definition path_exists (fs : filesystem) (run_dir file : string) : bool :=
  bool_decide (is_Some (read_file fs run_dir file)).

Definition load_csv_data (fs : filesystem) (run_dir file : string) : list Z * list Q :=
  match read_file fs run_dir file with
  | Some rows => (rows.*1, rows.*2)
  | None => ([], [])
  end.

(** Truth value of a list. *)
Definition truthy {A} (l : list A) : bool :=
  match l with [] => false | _ => true end.

Record metric_info := MetricInfo { mi_name : string; mi_format : string }.

Definition metrics : list (string * metric_info) :=
  [ ("Drone__Success", MetricInfo "Success Rate" "percentage");
    ("Drone__Collisions", MetricInfo "Collision Rate" "percentage");
    ("Environment__Cumulative_Reward", MetricInfo "Cumulative Reward" "float");
    ("Drone__EpisodeLength", MetricInfo "Episode Length" "float");
    ("Drone__MinDistance", MetricInfo "Min Distance to Goal" "float") ].

Definition csv_name (metric_key : string) : string := metric_key +:+ ".csv".

(** The per-stage dictionary written at lines 191-199. *)
Record stage_result := StageResult {
  sr_mean : Q;
  sr_std : Q;
  sr_ci_lower : Q;
  sr_ci_upper : Q;
  sr_format : string;
  sr_n_runs : nat;
  sr_step_range : Z * Z
}.

(** The flat dictionary written by the final-window analyses. *)
Record aggregate_result := AggregateResult {
  ar_mean : Q;
  ar_std : Q;
  ar_ci_lower : Q;
  ar_ci_upper : Q;
  ar_format : string;
  ar_n_runs : nat
}.

(** A value of the results dictionary: [{stage_num: {...}}] on the
    curriculum path, [{'mean': ..., ..., 'n_runs': ...}] on the fallback
    path.  Both are Python dicts. *)
Inductive metric_entry :=
  | PerStage (by_stage : gmap Z stage_result)
  | Flat (r : aggregate_result).

Definition results : Type := list (string * metric_entry).

(** [d[k] = v] on an insertion-ordered dict. *)
Fixpoint dict_set {V} (d : list (string * V)) (k : string) (v : V) : list (string * V) :=
  match d with
  | [] => [(k, v)]
  | (k', v') :: rest => if decide (k' = k) then (k, v) :: rest else (k', v') :: dict_set rest k v
  end.

Fixpoint dict_get {V} (d : list (string * V)) (k : string) : option V :=
  match d with
  | [] => None
  | (k', v') :: rest => if decide (k' = k) then Some v' else dict_get rest k
  end.

(** [len(data)]: the number of keys. *)
Definition entry_len (data : metric_entry) : nat :=
  match data with
  | PerStage by_stage => size by_stage
  | Flat _ => 6
  end.

(** [isinstance(data, dict)] *)
Definition isinstance_dict (data : metric_entry) : bool := true.

(** A run contributes data for a metric when the metric's file exists
    and loads to a non-empty series. *)
Definition contributes (fs : filesystem) (run_dir metric_key : string) : bool :=
  path_exists fs run_dir (csv_name metric_key)
  && truthy (load_csv_data fs run_dir (csv_name metric_key)).2.

Section with_numpy.
Context `{NumPy}.

(** Computations that read and advance the global generator and may raise. *)
Definition M (A : Type) : Type := rng → option (A * rng).

#[global] Instance M_ret : MRet M := λ A x g, Some (x, g).
#[global] Instance M_bind : MBind M :=
  λ A B f m g, match m g with Some (x, g') => f x g' | None => None end.

(** A failed lookup or index raises. *)
Definition raise_if_none {A} (o : option A) : M A :=
  λ g, match o with Some x => Some (x, g) | None => None end.

(** A call that only uses the generator. *)
Definition draw {A} (c : rng → A * rng) : M A := λ g, Some (c g).

(** Lines 123-131: the stage structure of the first run that has a stage
    series; the list holds at most one element. *)
Fixpoint find_all_stage_ranges (fs : filesystem) (run_dirs : list string)
    : option (list (gmap Z (Z * Z))) :=
  match run_dirs with
  | [] => Some []
  | run_dir :: rest =>
      if path_exists fs run_dir "Stage__Current.csv" then
        let '(stage_steps, stage_values) := load_csv_data fs run_dir "Stage__Current.csv" in
        if truthy stage_steps && truthy stage_values then
          stage_ranges ← find_stage_transitions stage_steps stage_values;
          Some [stage_ranges]
        else find_all_stage_ranges fs rest
      else find_all_stage_ranges fs rest
  end.

(** Lines 155-158: append each stage's mean to that stage's list. *)
Definition add_run_means (run_stage_perf : gmap Z stage_perf)
    (stage_performances : gmap Z (list Q)) : gmap Z (list Q) :=
  union_with (λ old new, Some (old ++ new)) stage_performances
             ((λ p, [sp_mean p]) <$> run_stage_perf).

(** Lines 148-158. *)
Fixpoint collect_stage_performances (fs : filesystem) (run_dirs : list string)
    (metric_key : string) (stage_ranges : gmap Z (Z * Z)) (stage_window : Z)
    (stage_performances : gmap Z (list Q)) : gmap Z (list Q) :=
  match run_dirs with
  | [] => stage_performances
  | run_dir :: rest =>
      let stage_performances' :=
        if path_exists fs run_dir (csv_name metric_key) then
          let '(steps, values) := load_csv_data fs run_dir (csv_name metric_key) in
          if truthy steps && truthy values then
            add_run_means (get_stage_performance steps values stage_ranges stage_window)
                          stage_performances
          else stage_performances
        else stage_performances in
      collect_stage_performances fs rest metric_key stage_ranges stage_window
                                 stage_performances'
  end.

(** Lines 173-189: the interval of a stage with a single per-run mean. *)
Definition single_run_ci (fs : filesystem) (run_dirs : list string) (metric_key : string)
    (stage_ranges : gmap Z (Z * Z)) (stage_window : Z) (stage_num : Z) : M (Q * Q) :=
  run_dir ← raise_if_none (head run_dirs);
  let '(steps, values) := load_csv_data fs run_dir (csv_name metric_key) in
  if truthy steps && truthy values then
    let run_stage_perf := get_stage_performance steps values stage_ranges stage_window in
    if decide (is_Some (run_stage_perf !! stage_num)) then
      range ← raise_if_none (stage_ranges !! stage_num);
      let stage_vals := values_in_range (py_zip steps values) range.1 range.2 in
      let stage_vals :=
        if decide (stage_window < Z.of_nat (length stage_vals))
        then py_slice_from stage_vals (- stage_window) else stage_vals in
      draw (bootstrap_ci stage_vals default_n_bootstrap default_confidence)
    else mret (0 # 1, 0 # 1)%Q
  else mret (0 # 1, 0 # 1)%Q.

(** Lines 162-199: one stage of one metric. *)
Definition combine_stage (fs : filesystem) (run_dirs : list string) (metric_key : string)
    (format : string) (stage_ranges : gmap Z (Z * Z)) (stage_window : Z)
    (stage_num : Z) (stage_values : list Q) : M stage_result :=
  let mean_val := np_mean stage_values in
  let std_val := if decide (1 < length stage_values)%nat
                 then np_std stage_values else (0 # 1)%Q in
  ci ← (if decide (1 < length stage_values)%nat
         then draw (bootstrap_ci stage_values default_n_bootstrap default_confidence)
         else single_run_ci fs run_dirs metric_key stage_ranges stage_window stage_num);
  step_range ← raise_if_none (stage_ranges !! stage_num);
  mret (StageResult mean_val std_val ci.1 ci.2 format (length stage_values) step_range).

Fixpoint combine_stages (fs : filesystem) (run_dirs : list string) (metric_key : string)
    (format : string) (stage_ranges : gmap Z (Z * Z)) (stage_window : Z)
    (stage_performances : gmap Z (list Q)) (stage_nums : list Z)
    (by_stage : gmap Z stage_result) : M (gmap Z stage_result) :=
  match stage_nums with
  | [] => mret by_stage
  | stage_num :: rest =>
      stage_values ← raise_if_none (stage_performances !! stage_num);
      if truthy stage_values then
        r ← combine_stage fs run_dirs metric_key format stage_ranges stage_window
                           stage_num stage_values;
        combine_stages fs run_dirs metric_key format stage_ranges stage_window
                       stage_performances rest (<[stage_num := r]> by_stage)
      else
        combine_stages fs run_dirs metric_key format stage_ranges stage_window
                       stage_performances rest by_stage
  end.

(** [sorted(d.keys())] *)
Definition sorted_keys {V} (d : gmap Z V) : list Z :=
  merge_sort Z.le (elements (dom d)).

(** Lines 142-199: the loop over the metrics; [results[metric_name]] is
    set to a (possibly empty) dictionary for every metric. *)
Fixpoint analyze_metrics (fs : filesystem) (run_dirs : list string)
    (stage_ranges : gmap Z (Z * Z)) (stage_window : Z)
    (ms : list (string * metric_info)) (res : results) : M results :=
  match ms with
  | [] => mret res
  | (metric_key, metric_info) :: rest =>
      let metric_name := mi_name metric_info in
      let stage_performances :=
        collect_stage_performances fs run_dirs metric_key stage_ranges stage_window ∅ in
      by_stage ← combine_stages fs run_dirs metric_key (mi_format metric_info)
                    stage_ranges stage_window stage_performances
                    (sorted_keys stage_performances) ∅;
      analyze_metrics fs run_dirs stage_ranges stage_window rest
                      (dict_set res metric_name (PerStage by_stage))
  end.

(** Lines 211-217 of the fallback. *)
Fixpoint collect_final_values (fs : filesystem) (run_dirs : list string)
    (metric_key : string) (final_window : Z) (all_final_values : list Q) : list Q :=
  match run_dirs with
  | [] => all_final_values
  | run_dir :: rest =>
      let all_final_values' :=
        if path_exists fs run_dir (csv_name metric_key) then
          let '(steps, values) := load_csv_data fs run_dir (csv_name metric_key) in
          if truthy values then
            let final_vals :=
              if decide (final_window ≤ Z.of_nat (length values))
              then py_slice_from values (- final_window) else values in
            all_final_values ++ final_vals
          else all_final_values
        else all_final_values in
      collect_final_values fs rest metric_key final_window all_final_values'
  end.

Fixpoint analyze_final_performance_only_loop (fs : filesystem) (run_dirs : list string)
    (final_window : Z) (ms : list (string * metric_info)) (res : results) : M results :=
  match ms with
  | [] => mret res
  | (metric_key, metric_info) :: rest =>
      let all_final_values := collect_final_values fs run_dirs metric_key final_window [] in
      if truthy all_final_values then
        ci ← draw (bootstrap_ci all_final_values default_n_bootstrap default_confidence);
        analyze_final_performance_only_loop fs run_dirs final_window rest
          (dict_set res (mi_name metric_info)
             (Flat (AggregateResult (np_mean all_final_values) (np_std all_final_values)
                      ci.1 ci.2 (mi_format metric_info) (length run_dirs))))
      else analyze_final_performance_only_loop fs run_dirs final_window rest res
  end.

Definition analyze_final_performance_only (fs : filesystem) (run_dirs : list string)
    (final_window : Z) (ms : list (string * metric_info)) : M results :=
  analyze_final_performance_only_loop fs run_dirs final_window ms [].

Definition analyze_curriculum_aware (fs : filesystem) (run_dirs : list string)
    (stage_window : Z) : M results :=
  all_stage_ranges ← raise_if_none (find_all_stage_ranges fs run_dirs);
  match all_stage_ranges with
  | [] => analyze_final_performance_only fs run_dirs stage_window metrics
  | stage_ranges :: _ => analyze_metrics fs run_dirs stage_ranges stage_window metrics []
  end.

(** Line 433: [any(isinstance(data, dict) and len(data) > 1 for data in results.values())] *)
Definition is_curriculum_aware (res : results) : bool :=
  existsb (λ kv, isinstance_dict kv.2 && bool_decide (1 < entry_len kv.2)%nat) res.

(** The first line the text summary writes after its title (lines 266-267, 334). *)
Definition summary_subtitle (is_curriculum_aware : bool) : string :=
  if is_curriculum_aware
  then "Performance metrics analyzed per curriculum stage"
  else "Final performance analysis (curriculum stages not detected)".

Inductive main_outcome :=
  | NoValidDirectories
  | NoMetricsAnalyzed
  | SummaryGenerated (res : results) (is_curriculum_aware : bool).

(** Lines 409-419: directories that exist and hold at least one CSV file. *)
Definition valid_dir (fs : filesystem) (run_dir : string) : bool :=
  match fs !! run_dir with
  | Some files => bool_decide (files ≠ ∅)
  | None => false
  end.

(** Lines 403-433 of [main]: the checks, the analysis and the flag.  The
    outcome [SummaryGenerated res flag] stands for reaching the call
    [generate_curriculum_summary(results, out_file, flag)] of line 436,
    not for its completion; [Render.main] runs that call. *)
Definition main (fs : filesystem) (run_dirs : list string) (stage_window : Z)
    : M main_outcome :=
  let valid_dirs := List.filter (valid_dir fs) run_dirs in
  if truthy valid_dirs then
    res ← analyze_curriculum_aware fs valid_dirs stage_window;
    if truthy res then mret (SummaryGenerated res (is_curriculum_aware res))
    else mret NoMetricsAnalyzed
  else mret NoValidDirectories.

(** *** generate_statistical_summary.py *)

Definition get_final_performance_values (values : list Q) (window : Z) : list Q :=
  if negb (truthy values) || bool_decide (Z.of_nat (length values) < window)
  then values else py_slice_from values (- window).

(** [get_final_performance(values, window)['mean']] *)
Definition get_final_performance_mean (values : list Q) (window : Z) : Q :=
  let final_vals := get_final_performance_values values window in
  if truthy final_vals then np_mean final_vals else (0 # 1)%Q.

Fixpoint collect_final_means (fs : filesystem) (run_dirs : list string)
    (metric_key : string) (final_window : Z) (all_final_values : list Q) : list Q :=
  match run_dirs with
  | [] => all_final_values
  | run_dir :: rest =>
      let all_final_values' :=
        if path_exists fs run_dir (csv_name metric_key) then
          let '(steps, values) := load_csv_data fs run_dir (csv_name metric_key) in
          if truthy values
          then all_final_values ++ [get_final_performance_mean values final_window]
          else all_final_values
        else all_final_values in
      collect_final_means fs rest metric_key final_window all_final_values'
  end.

(** Lines 97-108 of [analyze_runs]. *)
Definition analyze_runs_ci (fs : filesystem) (run_dirs : list string) (metric_key : string)
    (final_window : Z) (all_final_values : list Q) : M (Q * Q) :=
  if decide (1 < length all_final_values)%nat then
    draw (bootstrap_ci all_final_values default_n_bootstrap default_confidence)
  else
    run_dir ← raise_if_none (head run_dirs);
    let '(_, values) := load_csv_data fs run_dir (csv_name metric_key) in
    if truthy values then
      let final_vals :=
        if decide (final_window ≤ Z.of_nat (length values))
        then py_slice_from values (- final_window) else values in
      draw (bootstrap_ci final_vals default_n_bootstrap default_confidence)
    else mret (0 # 1, 0 # 1)%Q.

Fixpoint analyze_runs_loop (fs : filesystem) (run_dirs : list string) (final_window : Z)
    (ms : list (string * metric_info)) (res : list (string * aggregate_result))
    : M (list (string * aggregate_result)) :=
  match ms with
  | [] => mret res
  | (metric_key, metric_info) :: rest =>
      let all_final_values := collect_final_means fs run_dirs metric_key final_window [] in
      if truthy all_final_values then
        let mean_val := np_mean all_final_values in
        let std_val := if decide (1 < length all_final_values)%nat
                       then np_std all_final_values else (0 # 1)%Q in
        ci ← analyze_runs_ci fs run_dirs metric_key final_window all_final_values;
        analyze_runs_loop fs run_dirs final_window rest
          (dict_set res (mi_name metric_info)
             (AggregateResult mean_val std_val ci.1 ci.2 (mi_format metric_info)
                              (length all_final_values)))
      else analyze_runs_loop fs run_dirs final_window rest res
  end.

Definition analyze_runs (fs : filesystem) (run_dirs : list string) (final_window : Z)
    : M (list (string * aggregate_result)) :=
  analyze_runs_loop fs run_dirs final_window metrics [].

End with_numpy.

End Analysis.

(** ** format_value (the two scripts define it with the same text)

    The values formatted are doubles, so this part works on binary64
    floats: [value*100] is the double product, and [format(x, '.Nf')]
    prints the decimal numeral with [N] decimals nearest to the exact
    value of the double [x], ties to even, with the sign of [x]. *)

Module Format.

Import PrimFloat FloatOps SpecFloat.

(** Nearest integer, ties to even. *)
Definition round_half_even (x : Q) : Z :=
  let f := Qfloor x in
  match ((x - inject_Z f) ?= 1 # 2)%Q with
  | Lt => f
  | Gt => f + 1
  | Eq => if Z.even f then f else f + 1
  end.

Definition digit_char (n : Z) : ascii := ascii_of_nat (48 + Z.to_nat n).

(** The [d] low decimal digits of [n], most significant first. *)
Fixpoint fixed_digits (d : nat) (n : Z) : string :=
  match d with
  | O => EmptyString
  | S d' => fixed_digits d' (n / 10) +:+ String (digit_char (n mod 10)) EmptyString
  end.

(** The numeral with [prec] decimals of a magnitude [x >= 0]. *)
Definition format_magnitude (x : Q) (prec : nat) : string :=
  let unit := 10 ^ Z.of_nat prec in
  let scaled := round_half_even (x * inject_Z unit) in
  NilZero.string_of_uint (N.to_uint (Z.to_N (scaled / unit)))
  +:+ match prec with
      | O => ""
      | S _ => "." +:+ fixed_digits prec (scaled mod unit)
      end.

(** The exact magnitude [m * 2^e] of a finite non-zero double. *)
Definition magnitude (m : positive) (e : Z) : Q := (inject_Z (Z.pos m) * 2 ^ e)%Q.

Definition sign_prefix (negative : bool) : string :=
  if negative then "-" else "".

(** [f"{x:.{prec}f}"] *)
Definition format_fixed (x : float) (prec : nat) : string :=
  match Prim2SF x with
  | S754_nan => "nan"
  | S754_infinity s => sign_prefix s +:+ "inf"
  | S754_zero s => sign_prefix s +:+ format_magnitude (0 # 1) prec
  | S754_finite s m e => sign_prefix s +:+ format_magnitude (magnitude m e) prec
  end.

Definition format_value (value : float) (format_type : string) : string :=
  if decide (format_type = "percentage") then
    format_fixed (value * 100)%float 1 +:+ "%"
  else if decide (format_type = "float") then
    if (100 <? abs value)%float
    then format_fixed value 0
    else format_fixed value 2
  else format_fixed value 3.

(** *** Reading a rendering back

    What a finite double is worth, and what a printed numeral is worth:
    the two sides the contract of [format_value] relates. *)

(** The exact value of a finite double; nothing for NaN and infinities. *)
Definition exact_value (x : float) : option Q :=
  match Prim2SF x with
  | S754_zero _ => Some (0 # 1)%Q
  | S754_finite s m e => Some (if s then - magnitude m e else magnitude m e)%Q
  | S754_infinity _ | S754_nan => None
  end.

Definition sign_bit (x : float) : bool :=
  match Prim2SF x with
  | S754_zero s | S754_infinity s | S754_finite s _ _ => s
  | S754_nan => false
  end.

(** The part of a rendering after its decimal point. *)
Fixpoint after_point (s : string) : option string :=
  match s with
  | EmptyString => None
  | String c rest => if decide (c = "."%char) then Some rest else after_point rest
  end.

(** The part before the decimal point: all of it when there is none. *)
Fixpoint before_point (s : string) : string :=
  match s with
  | EmptyString => EmptyString
  | String c rest => if decide (c = "."%char) then EmptyString else String c (before_point rest)
  end.

Definition is_digit (c : ascii) : bool :=
  let n := nat_of_ascii c in (48 <=? n)%nat && (n <=? 57)%nat.

Fixpoint all_digits (s : string) : bool :=
  match s with
  | EmptyString => true
  | String c rest => is_digit c && all_digits rest
  end.

(** The number a string of digits writes, read left to right. *)
Fixpoint digits_value (acc : Z) (s : string) : option Z :=
  match s with
  | EmptyString => Some acc
  | String c rest =>
      if is_digit c
      then digits_value (acc * 10 + (Z.of_nat (nat_of_ascii c) - 48)) rest
      else None
  end.

(** An integer part: digits, at least one, with no superfluous leading
    zero. *)
Definition integer_value (s : string) : option Z :=
  match s with
  | EmptyString => None
  | String "0" (String _ _) => None
  | _ => digits_value 0 s
  end.

(** A fractional part: digits, at least one. *)
Definition fraction_value (s : string) : option Q :=
  match s with
  | EmptyString => None
  | _ => (λ f, inject_Z f / inject_Z (10 ^ Z.of_nat (String.length s)))%Q
         <$> digits_value 0 s
  end.

Definition unsigned_value (s : string) : option Q :=
  n ← integer_value (before_point s);
  match after_point s with
  | None => Some (inject_Z n)
  | Some frac => (λ f, inject_Z n + f)%Q <$> fraction_value frac
  end.

(** The value of a decimal numeral, with or without a minus sign. *)
Definition decimal_value (s : string) : option Q :=
  match s with
  | String "-" rest => Qopp <$> unsigned_value rest
  | _ => unsigned_value s
  end.

Definition starts_with_minus (s : string) : bool :=
  match s with
  | String "-" _ => true
  | _ => false
  end.

(** The number of digits after the point; 0 when there is no point. *)
Definition decimals (s : string) : nat :=
  match after_point s with
  | None => 0
  | Some frac => String.length frac
  end.

(** [n] is an integer nearest to [y], the even one of the two when [y]
    lies half-way. *)
Definition nearest_even (n : Z) (y : Q) : Prop :=
  (Qabs (inject_Z n - y) <= 1 # 2)%Q
  ∧ ((Qabs (inject_Z n - y) == 1 # 2)%Q → Z.even n = true).

(** [s] is the decimal numeral of [x] with [prec] decimals: a minus sign
    exactly when [negative], then digits, a point exactly when
    [prec > 0], and [prec] digits; its value is [n / 10^prec] for the
    integer [n] nearest to [x * 10^prec], ties to even. *)
Definition renders (s : string) (negative : bool) (x : Q) (prec : nat) : Prop :=
  ∃ (n : Z) (d : Q),
    decimal_value s = Some d
    ∧ (d == inject_Z n / inject_Z (10 ^ Z.of_nat prec))%Q
    ∧ nearest_even n (x * inject_Z (10 ^ Z.of_nat prec))
    ∧ starts_with_minus s = negative
    ∧ decimals s = prec
    ∧ (after_point s = None ↔ prec = 0%nat).

(** The number a [Decimal.uint] writes, read left to right. *)
Fixpoint uint_value (acc : Z) (d : Decimal.uint) : Z :=
  match d with
  | Decimal.Nil => acc
  | Decimal.D0 d' => uint_value (acc * 10 + 0) d'
  | Decimal.D1 d' => uint_value (acc * 10 + 1) d'
  | Decimal.D2 d' => uint_value (acc * 10 + 2) d'
  | Decimal.D3 d' => uint_value (acc * 10 + 3) d'
  | Decimal.D4 d' => uint_value (acc * 10 + 4) d'
  | Decimal.D5 d' => uint_value (acc * 10 + 5) d'
  | Decimal.D6 d' => uint_value (acc * 10 + 6) d'
  | Decimal.D7 d' => uint_value (acc * 10 + 7) d'
  | Decimal.D8 d' => uint_value (acc * 10 + 8) d'
  | Decimal.D9 d' => uint_value (acc * 10 + 9) d'
  end.

End Format.

(** ** A concrete NumPy for running the model

    Exact rational arithmetic, a square root accurate to six decimals,
    linear-interpolation percentiles and a linear congruential generator
    in place of NumPy's Mersenne twister. *)

Module Concrete.

Definition sqrt6 (x : Q) : Q :=
  Qred (Z.sqrt (Qnum x * 10 ^ 12 / Z.pos (Qden x)) # 1000000).

Fixpoint insert_sorted (x : Q) (l : list Q) : list Q :=
  match l with
  | [] => [x]
  | y :: l' => if Qle_bool x y then x :: l else y :: insert_sorted x l'
  end.

Definition sort_values (l : list Q) : list Q := foldr insert_sorted [] l.

Definition percentile (l : list Q) (q : Q) : Q :=
  match sort_values l with
  | [] => (0 # 1)%Q
  | (x :: _) as sorted =>
      let pos := (q / 100 * inject_Z (Z.of_nat (length sorted) - 1))%Q in
      let lo := Z.to_nat (Qfloor pos) in
      let a := nth lo sorted x in
      let b := nth (Nat.min (S lo) (length sorted - 1)) sorted x in
      Qred (a + (b - a) * (pos - inject_Z (Qfloor pos)))
  end.

Definition lcg_next (g : Z) : Z := (g * 1103515245 + 12345) mod 2 ^ 31.

Fixpoint choice (data : list Q) (size : nat) (g : Z) : list Q * Z :=
  match size with
  | O => ([], g)
  | S size' =>
      let g' := lcg_next g in
      let x := nth (Z.to_nat ((g' / 65536) mod Z.of_nat (length data))) data (0 # 1)%Q in
      let '(rest, g'') := choice data size' g' in
      (x :: rest, g'')
  end.

#[local] Instance numpy : NumPy := {|
  np_sqrt := sqrt6;
  np_percentile := percentile;
  rng := Z;
  np_random_choice := choice
|}.

End Concrete.

(** ** NumPy's global generator

    [np.random] is a [RandomState]: the Mersenne twister MT19937,
    seeded from an integer by [np.random.seed] ([mt19937_seed]), with
    [choice] drawing its indices as [randint] does, by masked rejection
    on 32-bit outputs.  The square root and the percentile are those of
    [Concrete]. *)

Module Legacy.

Definition N_words : nat := 624.
Definition M_words : nat := 397.
Definition MATRIX_A : Z := 0x9908b0df.
Definition UPPER_MASK : Z := 0x80000000.
Definition LOWER_MASK : Z := 0x7fffffff.

Definition u32 (x : Z) : Z := Z.land x 0xffffffff.

(** The 624 words of the twister and the position of the next one. *)
Record state := State { key : list Z; pos : nat }.

(** [mt19937_seed]: each word from the one before. *)
Fixpoint seed_words (n : nat) (position : Z) (word : Z) : list Z :=
  match n with
  | O => []
  | S n' =>
      word :: seed_words n' (position + 1)
                (u32 (1812433253 * Z.lxor word (Z.shiftr word 30) + position + 1))
  end.

(** The state [np.random.seed(s)] sets: it depends on [s] alone. *)
Definition seed (s : Z) : state := State (seed_words N_words 0 (u32 s)) N_words.

Definition word (l : list Z) (i : nat) : Z := nth i l 0.

Definition twist_word (upper lower far : Z) : Z :=
  let y := Z.lor (Z.land upper UPPER_MASK) (Z.land lower LOWER_MASK) in
  Z.lxor (Z.lxor far (Z.shiftr y 1)) (if Z.odd y then MATRIX_A else 0).

(** [mt19937_gen]: the words are replaced in place in increasing order,
    so a word past the current one is still the old one and a word
    before it is already the new one. *)
Fixpoint twist (n : nat) (i : nat) (old new : list Z) : list Z :=
  match n with
  | O => new
  | S n' =>
      let lower := if decide (i + 1 < N_words)%nat then word old (i + 1) else word new 0 in
      let far := if decide (i + M_words < N_words)%nat then word old (i + M_words)
                 else word new (i + M_words - N_words) in
      twist n' (S i) old (new ++ [twist_word (word old i) lower far])
  end.

Definition temper (y : Z) : Z :=
  let y := Z.lxor y (Z.shiftr y 11) in
  let y := Z.lxor y (Z.land (Z.shiftl y 7) 0x9d2c5680) in
  let y := Z.lxor y (Z.land (Z.shiftl y 15) 0xefc60000) in
  Z.lxor y (Z.shiftr y 18).

Definition next_uint32 (g : state) : Z * state :=
  let g := if decide (pos g = N_words) then State (twist N_words 0 (key g) []) 0 else g in
  (temper (word (key g) (pos g)), State (key g) (S (pos g))).

(** The smallest mask [2^k - 1] that covers [max]. *)
Definition gen_mask (max : Z) : Z := 2 ^ (Z.log2 max + 1) - 1.

(** One index in [[0, max]] for [0 < max < 2^32]: outputs are masked and
    drawn again while they exceed [max].  The loop has no bound in
    NumPy; [fuel] draws fail to give an index with probability at most
    [2^-fuel], and then the last masked output is reduced. *)
Fixpoint bounded_uint32 (fuel : nat) (max mask : Z) (g : state) : Z * state :=
  let '(x, g') := next_uint32 g in
  let val := Z.land x mask in
  if decide (val ≤ max) then (val, g')
  else match fuel with
       | O => (val mod (max + 1), g')
       | S fuel' => bounded_uint32 fuel' max mask g'
       end.

(** [randint(0, pop_size, size)]: no output is drawn when there is one
    index only. *)
Fixpoint indices (size : nat) (pop_size : Z) (g : state) : list Z * state :=
  match size with
  | O => ([], g)
  | S size' =>
      let '(i, g') := if decide (pop_size ≤ 1) then (0, g)
                      else bounded_uint32 64 (pop_size - 1) (gen_mask (pop_size - 1)) g in
      let '(rest, g'') := indices size' pop_size g' in
      (i :: rest, g'')
  end.

(** [np.random.choice(data, size=size, replace=True)] *)
Definition choice (data : list Q) (size : nat) (g : state) : list Q * state :=
  let '(idx, g') := indices size (Z.of_nat (length data)) g in
  ((λ i, nth (Z.to_nat i) data (0 # 1)%Q) <$> idx, g').

#[local] Instance numpy : NumPy := {|
  np_sqrt := Concrete.sqrt6;
  np_percentile := Concrete.percentile;
  rng := state;
  np_random_choice := choice
|}.

End Legacy.

(** ** The block structure of a stage signal

    What the scan computes, read off the signal: the maximal blocks of
    consecutive samples with the same stage number. *)

Module Blocks.

(** The stage numbers of the maximal blocks, in order of appearance. *)
Fixpoint compress (cur : Z) (ids : list Z) : list Z :=
  match ids with
  | [] => [cur]
  | id :: rest => if decide (id = cur) then compress cur rest else cur :: compress id rest
  end.

Definition stage_id_blocks (stage_values : list Q) : list Z :=
  match stage_values with
  | [] => []
  | v :: rest => compress (py_int v) (py_int <$> rest)
  end.

(** The blocks with their first and last step; [prev] is the step before
    the next item and [fin] closes the last block. *)
Fixpoint blocks (cur start prev fin : Z) (items : list (Z * Q)) : list (Z * (Z * Z)) :=
  match items with
  | [] => [(cur, (start, fin))]
  | (step, v) :: rest =>
      if decide (py_int v = cur) then blocks cur start step fin rest
      else (cur, (start, prev)) :: blocks (py_int v) step step fin rest
  end.

Definition stage_blocks (stage_steps : list Z) (stage_values : list Q)
    : list (Z * (Z * Z)) :=
  match stage_steps, stage_values with
  | s0 :: steps', v0 :: values' =>
      blocks (py_int v0) s0 s0 (default s0 (last stage_steps)) (py_zip steps' values')
  | _, _ => []
  end.

(** Writing a list of entries into a dict, in order. *)
Definition write_all (m : gmap Z (Z * Z)) (l : list (Z * (Z * Z))) : gmap Z (Z * Z) :=
  foldl (λ m kv, <[kv.1 := kv.2]> m) m l.

(** [s] lies in the closed range [r]. *)
Definition in_range (s : Z) (r : Z * Z) : Prop := r.1 ≤ s ∧ s ≤ r.2.

Definition disjoint_ranges (r1 r2 : Z * Z) : Prop := r1.2 < r2.1 ∨ r2.2 < r1.1.

(** The steps never decrease, and they increase strictly wherever the
    stage number changes. *)
Fixpoint steps_advance (cur prev : Z) (items : list (Z * Q)) : Prop :=
  match items with
  | [] => True
  | (step, v) :: rest =>
      prev ≤ step ∧ (py_int v ≠ cur → prev < step) ∧ steps_advance (py_int v) step rest
  end.

Definition well_stepped (stage_steps : list Z) (stage_values : list Q) : Prop :=
  match stage_steps, stage_values with
  | s0 :: steps', v0 :: values' => steps_advance (py_int v0) s0 (py_zip steps' values')
  | _, _ => True
  end.

(** Each block is non-empty, starts after [lo] and after the block before it. *)
Fixpoint ordered_from (lo : Z) (l : list (Z * (Z * Z))) : Prop :=
  match l with
  | [] => True
  | (_, (a, b)) :: l' => lo < a ∧ a ≤ b ∧ ordered_from b l'
  end.

End Blocks.

(** ** The spec's reading of the stage conversion *)

Module SpecReading.

(** Follows the spec's words: [round_to_int], rounding to the nearest
    integer.  The source converts with [int], see [py_int]. *)
Definition round_to_int (x : Q) : Z := Format.round_half_even x.

(** The blocks of the rounded stage values. *)
Definition rounded_id_blocks (stage_values : list Q) : list Z :=
  match stage_values with
  | [] => []
  | v :: rest => Blocks.compress (round_to_int v) (round_to_int <$> rest)
  end.

End SpecReading.

(** ** Concrete inputs *)

Module Scenarios.

Import Analysis.

(** Scenario A of the spec: stages 0,0,0,1,1,1,2,2,2 at steps 0..8. *)
Definition scenario_A_steps : list Z := [0; 1; 2; 3; 4; 5; 6; 7; 8].
Definition scenario_A_stages : list Q := inject_Z <$> [0; 0; 0; 1; 1; 1; 2; 2; 2].

(** A stage signal whose transition repeats a step. *)
Definition repeated_step_steps : list Z := [0; 1; 1; 2].
Definition repeated_step_stages : list Q := inject_Z <$> [0; 0; 1; 1].

(** A stage signal with fractional values 0.6 and 1.4. *)
Definition fractional_steps : list Z := [0; 1].
Definition fractional_stages : list Q := [(6 # 10)%Q; (14 # 10)%Q].

(** A metric that is 0 for four samples and 1 for the last two. *)
Definition sharp_tail_steps : list Z := [0; 1; 2; 3; 4; 5].
Definition sharp_tail_values : list Q := inject_Z <$> [0; 0; 0; 0; 1; 1].
Definition sharp_tail_ranges : gmap Z (Z * Z) := {[ 0 := (0, 5) ]}.

(** Two samples, 1 and 3, in one stage. *)
Definition two_sample_steps : list Z := [0; 1].
Definition two_sample_values : list Q := inject_Z <$> [1; 3].
Definition two_sample_ranges : gmap Z (Z * Z) := {[ 0 := (0, 1) ]}.

(** One run with a success series and no stage series. *)
Definition no_stage_fs : filesystem :=
  {[ "run1" := {[ "Drone__Success.csv" := [(0, (1 # 2)%Q)] ]} ]}.

Definition no_stage_results : results :=
  [("Success Rate",
    Flat (AggregateResult (1 # 2) (0 # 1) (0 # 1) (0 # 1) "percentage" 1))].

(** One run with a single-stage stage series and a success series. *)
Definition single_stage_fs : filesystem :=
  {[ "run1" := {[ "Stage__Current.csv" := [(0, (0 # 1)%Q)];
                  "Drone__Success.csv" := [(0, (1 # 2)%Q)] ]} ]}.

(** One run with a stage series and no metric series at all. *)
Definition stage_only_fs : filesystem :=
  {[ "run1" := {[ "Stage__Current.csv" := [(0, (0 # 1)%Q)] ]} ]}.

Definition stage_only_results : results :=
  [("Success Rate", PerStage ∅); ("Collision Rate", PerStage ∅);
   ("Cumulative Reward", PerStage ∅); ("Episode Length", PerStage ∅);
   ("Min Distance to Goal", PerStage ∅)].

(** Two runs.  [runA] has the stage series (stage 0 over steps 0-1, stage 1
    over steps 2-3) and success samples in stage 0 only; [runB] has success
    samples in stage 1 only. *)
Definition two_run_fs : filesystem :=
  {[ "runA" := {[ "Stage__Current.csv" :=
                    [(0, (0 # 1)%Q); (1, (0 # 1)%Q); (2, (1 # 1)%Q); (3, (1 # 1)%Q)];
                  "Drone__Success.csv" := [(0, (1 # 10)%Q)] ]};
     "runB" := {[ "Drone__Success.csv" := [(2, (1 # 2)%Q); (3, (7 # 10)%Q)] ]} ]}.

(** A fair coin as data. *)
Definition coin : list Q := [(0 # 1)%Q; (1 # 1)%Q].

(** Two values, as [[1.0, 2.0]]. *)
Definition one_two : list Q := [(1 # 1)%Q; (2 # 1)%Q].

End Scenarios.

(** ** export_tensorboard_pngs_improved.py: the naming of the CSV files
    the statistics scripts read *)

Module Exporter.

(** [s.replace(c, by)] for a one-character pattern. *)
Fixpoint replace_char (c : ascii) (by_ : string) (s : string) : string :=
  match s with
  | EmptyString => EmptyString
  | String x rest =>
      if decide (x = c) then by_ +:+ replace_char c by_ rest
      else String x (replace_char c by_ rest)
  end.

(** The character class [A-Za-z0-9_.\-]. *)
Definition is_safe_char (c : ascii) : bool :=
  let n := nat_of_ascii c in
  (((65 <=? n) && (n <=? 90)) || ((97 <=? n) && (n <=? 122))
   || ((48 <=? n) && (n <=? 57))
   || (n =? 95) || (n =? 46) || (n =? 45))%nat.

(** [re.sub(r"[^A-Za-z0-9_.\-]+", "_", s)]: every maximal run of
    characters outside the class becomes one underscore.  [in_run] tells
    that the previous character was outside the class. *)
Fixpoint collapse_unsafe (in_run : bool) (s : string) : string :=
  match s with
  | EmptyString => EmptyString
  | String c rest =>
      if is_safe_char c then String c (collapse_unsafe false rest)
      else if in_run then collapse_unsafe true rest
      else String "_" (collapse_unsafe true rest)
  end.

Definition sanitize_filename (name : string) : string :=
  collapse_unsafe false (replace_char " " "_" (replace_char "/" "__" name)).

Fixpoint all_safe (s : string) : bool :=
  match s with
  | EmptyString => true
  | String c rest => is_safe_char c && all_safe rest
  end.

End Exporter.

(** ** generate_curriculum_summary, and main with the summary written

    The two files are represented by their lines, a table row by the
    values it prints; a subscript or a format that raises makes the whole
    call raise, and what had been written by then is not kept.  Writing to
    the file system is taken to succeed. *)

Module Render.

Import Analysis.

(** A key of an entry of the results: a stage number in a per-stage
    table, a field name in a flat entry. *)
Inductive key :=
  | KInt (n : Z)
  | KStr (s : string).

#[global] Instance key_eq_dec : EqDecision key.
Proof. solve_decision. Defined.

(** The keys of a flat entry, in insertion order (lines 224-231). *)
Definition flat_keys : list string :=
  ["mean"; "std"; "ci_lower"; "ci_upper"; "format"; "n_runs"].

(** [metric_data.keys()].  A per-stage table is filled in ascending order
    of the stage numbers (line 162), which is its insertion order. *)
Definition entry_keys (metric_data : metric_entry) : list key :=
  match metric_data with
  | PerStage by_stage => KInt <$> sorted_keys by_stage
  | Flat _ => KStr <$> flat_keys
  end.

(** What a subscript of an entry returns: a per-stage dictionary, or one
    of the scalars (a float, a string, an int) of a flat entry. *)
Inductive value :=
  | VStage (r : stage_result)
  | VScalar.

(** [metric_data[k]] when [k in metric_data]. *)
Definition entry_get (metric_data : metric_entry) (k : key) : option value :=
  match metric_data, k with
  | PerStage by_stage, KInt n => VStage <$> by_stage !! n
  | Flat _, KStr s => if decide (s ∈ flat_keys) then Some VScalar else None
  | _, _ => None
  end.

(** The values [format_value] is called on for one row, with the format
    they share. *)
Record stats := Stats {
  st_mean : Q;
  st_std : Q;
  st_ci_lower : Q;
  st_ci_upper : Q;
  st_format : string
}.

(** [data['mean']], [data['std']], [data['ci_lower']], [data['ci_upper']],
    [data['format']] and [data['n_runs']] of a looked-up value: a scalar
    has no subscript. *)
Definition stage_fields (data : value) : option (stats * nat) :=
  match data with
  | VStage r =>
      Some (Stats (sr_mean r) (sr_std r) (sr_ci_lower r) (sr_ci_upper r) (sr_format r),
            sr_n_runs r)
  | VScalar => None
  end.

(** The same subscripts of an entry itself: a per-stage table has no key
    ['mean']. *)
Definition flat_fields (data : metric_entry) : option (stats * nat) :=
  match data with
  | Flat r =>
      Some (Stats (ar_mean r) (ar_std r) (ar_ci_lower r) (ar_ci_upper r) (ar_format r),
            ar_n_runs r)
  | PerStage _ => None
  end.

Definition key_int (k : key) : option Z :=
  match k with KInt n => Some n | KStr _ => None end.

Definition key_str (k : key) : option string :=
  match k with KStr s => Some s | KInt _ => None end.

Definition string_le (a b : string) : Prop := String.leb a b = true.

#[global] Instance string_le_dec : RelDecision string_le.
Proof. intros a b. unfold string_le. apply _. Defined.

(** [sorted(keys)]: integers and strings cannot be compared with each
    other. *)
Definition py_sorted (keys : list key) : option (list key) :=
  match omap key_int keys, omap key_str keys with
  | ints, [] => Some (KInt <$> merge_sort Z.le ints)
  | [], strs => Some (KStr <$> merge_sort string_le strs)
  | _ :: _, _ :: _ => None
  end.

(** [max(keys)] of a non-empty collection. *)
Definition py_max (keys : list key) : option key :=
  sorted ← py_sorted keys; last sorted.

(** Lines 272-275: the keys of all entries, each once. *)
Definition all_stages (res : results) : list key :=
  foldl (λ stages kv, if isinstance_dict kv.2 then list_union stages (entry_keys kv.2)
                      else stages) [] res.

Definition string_of_Z (n : Z) : string := NilZero.string_of_int (Z.to_int n).

Definition get_stage_description (stage_num : key) : string :=
  match stage_num with
  | KInt 0 => "Basic Hover"
  | KInt 1 => "Simple Navigation"
  | KInt 2 => "Obstacle Avoidance"
  | KInt 3 => "Urban Environment"
  | KInt 4 => "Adverse Weather"
  | KInt 5 => "Emergency Scenarios"
  | KInt n => "Stage " +:+ string_of_Z n
  | KStr s => "Stage " +:+ s
  end.

(** The lines of the text summary. *)
Inductive line :=
  | Title
  | StageAwareIntro
  | StageHeader (stage_num : key) (description : string)
  | StageRow (metric_name : string) (s : stats) (n_runs : nat)
  | StageRule
  | FinalTitle
  | FinalHeader
  | FinalRow (metric_name : string) (s : stats) (stage_num : key)
  | FinalRule
  | FallbackIntro
  | FallbackRow (metric_name : string) (s : stats) (n_runs : nat)
  | FallbackRule.

(** The rows of the LaTeX table. *)
Inductive latex_row :=
  | LatexStageRow (metric_name : string) (s : stats) (highest_stage : key)
                  (description : string)
  | LatexFlatRow (metric_name : string) (s : stats) (n_runs : nat).

Record summary := Summary {
  text_lines : list line;
  latex_caption_by_stage : bool;
  latex_rows : list latex_row
}.

(** Lines 284-295: the rows of one stage, over the metrics. *)
Fixpoint stage_rows (stage_num : key) (res : results) : option (list line) :=
  match res with
  | [] => Some []
  | (metric_name, metric_data) :: rest =>
      match entry_get metric_data stage_num with
      | Some data =>
          fields ← stage_fields data;
          rows ← stage_rows stage_num rest;
          Some (StageRow metric_name fields.1 fields.2 :: rows)
      | None => stage_rows stage_num rest
      end
  end.

(** Lines 278-297: one section per stage. *)
Fixpoint stage_sections (stages : list key) (res : results) : option (list line) :=
  match stages with
  | [] => Some []
  | stage_num :: rest =>
      rows ← stage_rows stage_num res;
      sections ← stage_sections rest res;
      Some (StageHeader stage_num (get_stage_description stage_num)
              :: rows ++ StageRule :: sections)
  end.

(** Truth value of a dict. *)
Definition truthy_entry (metric_data : metric_entry) : bool :=
  truthy (entry_keys metric_data).

(** Lines 305-309: the entry of its highest key, for every metric whose
    entry is not empty. *)
Fixpoint final_stage_data (res : results) (acc : list (string * value))
    : option (list (string * value)) :=
  match res with
  | [] => Some acc
  | (metric_name, metric_data) :: rest =>
      if isinstance_dict metric_data && truthy_entry metric_data then
        highest_stage ← py_max (entry_keys metric_data);
        data ← entry_get metric_data highest_stage;
        final_stage_data rest (dict_set acc metric_name data)
      else final_stage_data rest acc
  end.

(** [s_data == data] on two per-stage dictionaries: numbers are compared
    by value. *)
Definition stage_result_eqb (a b : stage_result) : bool :=
  Qeq_bool (sr_mean a) (sr_mean b) && Qeq_bool (sr_std a) (sr_std b)
  && Qeq_bool (sr_ci_lower a) (sr_ci_lower b) && Qeq_bool (sr_ci_upper a) (sr_ci_upper b)
  && bool_decide (sr_format a = sr_format b)
  && bool_decide (sr_n_runs a = sr_n_runs b)
  && bool_decide (sr_step_range a = sr_step_range b).

Definition value_eqb (a b : value) : bool :=
  match a, b with
  | VStage r1, VStage r2 => stage_result_eqb r1 r2
  | _, _ => false
  end.

(** Lines 324-329: the first key of the entry whose value equals [data]. *)
Definition find_stage (metric_data : metric_entry) (data : value) : option key :=
  List.find (λ s_num, match entry_get metric_data s_num with
                      | Some s_data => value_eqb s_data data
                      | None => false
                      end) (entry_keys metric_data).

(** An item of [final_stage_data] for the results [res]: the entry of some
    stage of the metric's table, which the search finds. *)
Definition final_item_ok (res : results) (item : string * value) : Prop :=
  ∃ by_stage r,
    dict_get res item.1 = Some (PerStage by_stage)
    ∧ item.2 = VStage r
    ∧ is_Some (find_stage (PerStage by_stage) (VStage r)).

(** Lines 314-331: the rows of the final table.  [None] does not format
    with [:<8]. *)
Fixpoint final_rows (res : results) (final : list (string * value)) : option (list line) :=
  match final with
  | [] => Some []
  | (metric_name, data) :: rest =>
      fields ← stage_fields data;
      metric_data ← dict_get res metric_name;
      stage_num ← find_stage metric_data data;
      rows ← final_rows res rest;
      Some (FinalRow metric_name fields.1 stage_num :: rows)
  end.

(** Lines 340-349 and 388-395: one row per entry. *)
Fixpoint fallback_fields (res : results) : option (list (string * (stats * nat))) :=
  match res with
  | [] => Some []
  | (metric_name, data) :: rest =>
      fields ← flat_fields data;
      rows ← fallback_fields rest;
      Some ((metric_name, fields) :: rows)
  end.

(** Lines 262-351: the text summary. *)
Definition text_summary (res : results) (is_curriculum_aware : bool)
    : option (list line) :=
  if is_curriculum_aware then
    sections ← (if truthy res
                then stages ← py_sorted (all_stages res); stage_sections stages res
                else Some []);
    final ← (if truthy res
             then final ← final_stage_data res [];
                  rows ← final_rows res final;
                  Some (FinalHeader :: rows ++ [FinalRule])
             else Some []);
    Some (Title :: StageAwareIntro :: sections ++ FinalTitle :: final)
  else
    rows ← fallback_fields res;
    Some (Title :: FallbackIntro
            :: ((λ row, FallbackRow row.1 row.2.1 row.2.2) <$> rows) ++ [FallbackRule]).

(** Lines 367-379: the rows of the LaTeX table by highest stage. *)
Fixpoint latex_stage_rows (res : results) : option (list latex_row) :=
  match res with
  | [] => Some []
  | (metric_name, metric_data) :: rest =>
      if isinstance_dict metric_data && truthy_entry metric_data then
        highest_stage ← py_max (entry_keys metric_data);
        data ← entry_get metric_data highest_stage;
        fields ← stage_fields data;
        rows ← latex_stage_rows rest;
        Some (LatexStageRow metric_name fields.1 highest_stage
                (get_stage_description highest_stage) :: rows)
      else latex_stage_rows rest
  end.

(** Lines 353-401: the LaTeX table. *)
Definition latex_table (res : results) (is_curriculum_aware : bool)
    : option (list latex_row) :=
  if is_curriculum_aware then
    if truthy res then latex_stage_rows res else Some []
  else
    rows ← fallback_fields res;
    Some (fmap (M := list) (λ row, LatexFlatRow row.1 row.2.1 row.2.2) rows).

Definition generate_curriculum_summary (res : results) (is_curriculum_aware : bool)
    : option summary :=
  text ← text_summary res is_curriculum_aware;
  rows ← latex_table res is_curriculum_aware;
  Some (Summary text is_curriculum_aware rows).

(** Lines 408-419: the directories [main] analyses. *)
Definition valid_dirs (fs : filesystem) (run_dirs : list string) : list string :=
  List.filter (valid_dir fs) run_dirs.

Section with_numpy.
Context `{NumPy}.

(** [main], with the summary written: [Analysis.main] decides the call
    of line 436, this runs it. *)
Definition main (fs : filesystem) (run_dirs : list string) (stage_window : Z)
    : M (main_outcome * option summary) :=
  outcome ← Analysis.main fs run_dirs stage_window;
  match outcome with
  | SummaryGenerated res is_curriculum_aware =>
      written ← raise_if_none (generate_curriculum_summary res is_curriculum_aware);
      mret (outcome, Some written)
  | _ => mret (outcome, None)
  end.

End with_numpy.

End Render.

(** ** What the estimator draws

    The loop of [bootstrap_ci], read off the generator: the states it
    meets and the state it leaves. *)

Module Draws.

Section with_numpy.
Context `{NumPy}.

(** One resample of the size of the data. *)
Definition resample (data : list Q) (g : rng) : list Q * rng :=
  np_random_choice data (length data) g.

(** The states of the generator before each of [n] successive resamples. *)
Fixpoint states_before (n : nat) (data : list Q) (g : rng) : list rng :=
  match n with
  | O => []
  | S n' => g :: states_before n' data (resample data g).2
  end.

(** The state of the generator after [n] successive resamples. *)
Fixpoint state_after (n : nat) (data : list Q) (g : rng) : rng :=
  match n with
  | O => g
  | S n' => state_after n' data (resample data g).2
  end.

(** The means of [n] successive resamples. *)
Definition successive_means (n : nat) (data : list Q) (g : rng) : list Q :=
  (λ g0, np_mean (resample data g0).1) <$> states_before n data g.

End with_numpy.

End Draws.

(** ** What each run contributes

    Descriptions, run by run, of the data the analyses fold over. *)

Module RunData.

Import Aggregator Analysis.

(** The first run directory, in argument order, whose stage file exists
    and loads to a non-empty series. *)
Definition has_stage_series (fs : filesystem) (run_dir : string) : bool :=
  path_exists fs run_dir "Stage__Current.csv"
  && truthy (load_csv_data fs run_dir "Stage__Current.csv").1
  && truthy (load_csv_data fs run_dir "Stage__Current.csv").2.

(** The runs that contribute data for a metric, in argument order. *)
Definition contributing_runs (fs : filesystem) (run_dirs : list string)
    (metric_key : string) : list string :=
  List.filter (λ d, contributes fs d metric_key) run_dirs.

(** [values[-w:] if len(values) >= w else values] *)
Definition tail_window (values : list Q) (window : Z) : list Q :=
  if decide (window ≤ Z.of_nat (length values))
  then py_slice_from values (- window) else values.

(** The values of a run's series for a metric; empty when it has none. *)
Definition run_values (fs : filesystem) (metric_key run_dir : string) : list Q :=
  (load_csv_data fs run_dir (csv_name metric_key)).2.

(** The raw values the fallback pools: each contributing run's trailing
    window, concatenated in run order. *)
Definition pooled_final_values (fs : filesystem) (run_dirs : list string)
    (metric_key : string) (final_window : Z) : list Q :=
  concat ((λ d, tail_window (run_values fs metric_key d) final_window)
            <$> contributing_runs fs run_dirs metric_key).

(** [get_final_performance] of the summary script, with all four of its
    statistics. *)
Record final_performance := FinalPerformance {
  fp_mean : Q;
  fp_std : Q;
  fp_min : Q;
  fp_max : Q
}.

Definition get_final_performance `{NumPy} (values : list Q) (window : Z)
    : final_performance :=
  let final_vals := get_final_performance_values values window in
  if truthy final_vals
  then FinalPerformance (np_mean final_vals) (np_std final_vals)
                        (np_min final_vals) (np_max final_vals)
  else FinalPerformance (0 # 1) (0 # 1) (0 # 1) (0 # 1).

(** The per-run final means [analyze_runs] combines, in run order. *)
Definition final_means (fs : filesystem) (run_dirs : list string)
    (metric_key : string) (final_window : Z) : list Q :=
  (λ d, get_final_performance_mean (run_values fs metric_key d) final_window)
    <$> contributing_runs fs run_dirs metric_key.

(** The segmentation of a run's stage series. *)
Definition stage_ranges_of (fs : filesystem) (run_dir : string) : gmap Z (Z * Z) :=
  Blocks.write_all ∅
    (Blocks.stage_blocks (load_csv_data fs run_dir "Stage__Current.csv").1
                         (load_csv_data fs run_dir "Stage__Current.csv").2).

Section with_numpy.
Context `{NumPy}.

(** A combined stage entry agrees with the per-run means it was built
    from: mean of means, their number, the stage's interval, and either a
    zero [std] (one mean) or the population standard deviation and a
    bootstrap over the means (two or more). *)
Definition combined_from_means (means : list Q) (format : string) (range : Z * Z)
    (r : stage_result) : Prop :=
  sr_mean r = np_mean means
  ∧ sr_n_runs r = length means
  ∧ sr_format r = format
  ∧ sr_step_range r = range
  ∧ (length means = 1%nat → sr_std r = (0 # 1)%Q)
  ∧ ((1 < length means)%nat →
       sr_std r = np_std means
       ∧ ∃ g0, (sr_ci_lower r, sr_ci_upper r)
               = (Bootstrap.bootstrap_ci means Bootstrap.default_n_bootstrap
                                         Bootstrap.default_confidence g0).1).

(** A run's converged mean for a stage, if the run has samples in it. *)
Definition run_stage_mean (fs : filesystem) (metric_key : string)
    (stage_ranges : gmap Z (Z * Z)) (stage_window : Z) (stage_num : Z)
    (run_dir : string) : option Q :=
  sp_mean <$> (get_stage_performance
                 (load_csv_data fs run_dir (csv_name metric_key)).1
                 (load_csv_data fs run_dir (csv_name metric_key)).2
                 stage_ranges stage_window !! stage_num).

(** The per-run means of a stage, in run order. *)
Definition per_run_means (fs : filesystem) (run_dirs : list string) (metric_key : string)
    (stage_ranges : gmap Z (Z * Z)) (stage_window : Z) (stage_num : Z) : list Q :=
  omap (run_stage_mean fs metric_key stage_ranges stage_window stage_num) run_dirs.

(** The samples of a run's metric series whose step lies in the interval
    of a stage; none when the stage has no interval. *)
Definition run_stage_samples (fs : filesystem) (metric_key : string)
    (stage_ranges : gmap Z (Z * Z)) (stage_num : Z) (run_dir : string) : list Q :=
  match stage_ranges !! stage_num with
  | Some range =>
      values_in_range (py_zip (load_csv_data fs run_dir (csv_name metric_key)).1
                              (load_csv_data fs run_dir (csv_name metric_key)).2)
                      range.1 range.2
  | None => []
  end.

(** The mean of the trailing window of those samples; nothing when the
    run has no sample in the stage. *)
Definition run_converged_mean (fs : filesystem) (metric_key : string)
    (stage_ranges : gmap Z (Z * Z)) (stage_window : Z) (stage_num : Z)
    (run_dir : string) : option Q :=
  match run_stage_samples fs metric_key stage_ranges stage_num run_dir with
  | [] => None
  | samples => Some (np_mean (final_window_values samples stage_window))
  end.

(** Those means over the runs that have samples in the stage, in run
    order. *)
Definition converged_means (fs : filesystem) (run_dirs : list string)
    (metric_key : string) (stage_ranges : gmap Z (Z * Z)) (stage_window : Z)
    (stage_num : Z) : list Q :=
  omap (run_converged_mean fs metric_key stage_ranges stage_window stage_num) run_dirs.

(** A per-stage table agrees with the runs: a stage is absent when no run
    has samples in it, and otherwise holds the combination of the per-run
    means, computed from some state of the generator. *)
Definition stage_table_ok (fs : filesystem) (run_dirs : list string)
    (metric_key format : string) (stage_ranges : gmap Z (Z * Z)) (stage_window : Z)
    (by_stage : gmap Z stage_result) : Prop :=
  ∀ k,
    match by_stage !! k with
    | None => per_run_means fs run_dirs metric_key stage_ranges stage_window k = []
    | Some r =>
        per_run_means fs run_dirs metric_key stage_ranges stage_window k ≠ []
        ∧ ∃ g0 g1,
            combine_stage fs run_dirs metric_key format stage_ranges stage_window k
              (per_run_means fs run_dirs metric_key stage_ranges stage_window k) g0
            = Some (r, g1)
    end.

End with_numpy.

End RunData.

(** ** More concrete inputs *)

Module MoreScenarios.

(** A signal that returns to stage 0 after a visit to stage 1. *)
Definition revisit_steps : list Z := [0; 1; 2; 3; 4].
Definition revisit_stages : list Q := inject_Z <$> [0; 0; 1; 0; 0].

End MoreScenarios.

Import Segmenter Aggregator Bootstrap Analysis Format Blocks SpecReading Scenarios.
Import MoreScenarios RunData Exporter Draws.

(** * Properties *)

(** ** The segmenter *)

Example scenario_A_segments :
  find_stage_transitions [0;1;2;3;4;5;6;7;8]
     (inject_Z <$> [0;0;0;1;1;1;2;2;2])
  = Some (<[2 := (6, 8)]> (<[1 := (3, 5)]> {[0 := (0, 2)]})).
Proof. vm_compute. reflexivity. Qed.

Section scan.
Variable stage_steps : list Z.

(** The loop never raises from index 1 on, writes the closed blocks in
    order, and never takes the [else step] arm. *)
Lemma scan_loop_blocks items : ∀ i st log prev fin,
  stage_steps !! i = Some prev →
  (∀ j e, items !! j = Some e → stage_steps !! (S i + j)%nat = Some e.1) →
  ∃ st' ext,
    scan_loop stage_steps (S i) items st log = Some (st', log ++ ext)
    ∧ <[current_stage st' := (stage_start st', fin)]> (stage_ranges st')
      = write_all (stage_ranges st)
          (blocks (current_stage st) (stage_start st) prev fin items)
    ∧ ext.*1 = seq (S i) (length items)
    ∧ Forall (λ e, e.2 ≠ ClosedAtCurrent) ext.
Proof.
  induction items as [|[step v] rest IH]; intros i st log prev fin Hprev Hsteps.
  - exists st, []. rewrite app_nil_r. repeat split; auto.
  - assert (Hstep : stage_steps !! S i = Some step).
    { specialize (Hsteps 0%nat (step, v) eq_refl). by rewrite Nat.add_0_r in Hsteps. }
    assert (Hrest : ∀ j e, rest !! j = Some e → stage_steps !! (S (S i) + j)%nat = Some e.1).
    { intros j e He. specialize (Hsteps (S j) e He).
      by replace (S (S i) + j)%nat with (S i + S j)%nat by lia. }
    cbn [scan_loop blocks]. unfold scan_body, branch_of.
    destruct (decide (py_int v ≠ current_stage st)) as [Hne|Heq].
    + rewrite decide_True by lia. cbn [mbind option_bind].
      replace (S i - 1)%nat with i by lia. rewrite Hprev. cbn.
      rewrite decide_False by done.
      destruct (IH (S i)
                  (ScanState (<[current_stage st := (stage_start st, prev)]> (stage_ranges st))
                             (py_int v) step)
                  (log ++ [(S i, ClosedAtPrevious)]) step fin Hstep Hrest)
        as (st' & ext & Hrun & Hmap & Hidx & Hfall).
      exists st', ((S i, ClosedAtPrevious) :: ext).
      rewrite Hrun, <- app_assoc. cbn in *. repeat split; auto.
      * by rewrite Hidx.
    + apply dec_stable in Heq. cbn.
      rewrite decide_True by done.
      destruct (IH (S i) st (log ++ [(S i, Unchanged)]) step fin Hstep Hrest)
        as (st' & ext & Hrun & Hmap & Hidx & Hfall).
      exists st', ((S i, Unchanged) :: ext).
      rewrite Hrun, <- app_assoc. cbn. repeat split; auto.
      * by rewrite Hidx.
Qed.

End scan.

(** The scan as a whole: it returns the blocks of the signal, written in
    order, and its log holds one entry per iteration. *)
Lemma find_stage_transitions_traced_blocks stage_steps stage_values :
  ∃ log,
    find_stage_transitions_traced stage_steps stage_values
    = Some (write_all ∅ (stage_blocks stage_steps stage_values), log)
    ∧ log.*1 = seq 0 (length stage_steps `min` length stage_values)
    ∧ Forall (λ e, e.2 ≠ ClosedAtCurrent ∧ (e.2 = ClosedAtPrevious → 1 ≤ e.1)%nat) log.
Proof.
  destruct stage_steps as [|s0 steps']; [by exists []|].
  destruct stage_values as [|v0 values']; [by exists []|].
  unfold find_stage_transitions_traced, py_zip, stage_blocks.
  cbn [zip zip_with scan_loop init_state head from_option default].
  unfold scan_body, branch_of. cbn [current_stage].
  rewrite decide_False by (intros Hne; by apply Hne).
  cbn [mbind option_bind app].
  set (fin := default s0 (last (s0 :: steps'))).
  destruct (scan_loop_blocks (s0 :: steps') (zip steps' values') 0
              (ScanState ∅ (py_int v0) s0) [(0%nat, Unchanged)] s0 fin eq_refl)
    as (st' & ext & Hrun & Hmap & Hidx & Hfall).
  { intros j [s v] He. cbn.
    apply lookup_zip_with_Some in He as (x & y & Hxy & Hx & Hy).
    by inversion Hxy; subst. }
  exists ((0%nat, Unchanged) :: ext).
  unfold py_zip in *. change (init_state (s0 :: steps') (v0 :: values'))
    with (ScanState ∅ (py_int v0) s0).
  rewrite Hrun. cbn [mbind option_bind].
  assert (Hlast : last (s0 :: steps') = Some fin).
  { unfold fin. destruct (last (s0 :: steps')) eqn:E; [done|].
    by apply last_None in E. }
  rewrite Hlast. cbn [mbind option_bind]. rewrite Hmap. cbn [fst snd stage_ranges current_stage stage_start].
  repeat split.
  - cbn. rewrite Hidx. by rewrite length_zip_with.
  - constructor; [done|].
    apply Forall_forall. intros [j b] Hin. split.
    + by apply (proj1 (Forall_forall _ _) Hfall (j, b)).
    + intros _. assert (Hj : j ∈ ext.*1) by (apply list_elem_of_fmap; by exists (j, b)).
      rewrite Hidx in Hj. apply elem_of_seq in Hj. cbn. lia.
Qed.

Lemma find_stage_transitions_blocks stage_steps stage_values :
  find_stage_transitions stage_steps stage_values
  = Some (write_all ∅ (stage_blocks stage_steps stage_values)).
Proof.
  unfold find_stage_transitions.
  destruct (find_stage_transitions_traced_blocks stage_steps stage_values)
    as (log & -> & _). done.
Qed.

(** C10: the scan never raises; no stage change is detected at index 0;
    every interval closed at a transition is closed at an index [i >= 1]
    where [stage_steps[i-1]] exists; the [else step] arm is never taken. *)
Theorem scan_never_closes_at_index_zero stage_steps stage_values :
  ∃ m log,
    find_stage_transitions_traced stage_steps stage_values = Some (m, log)
    ∧ find_stage_transitions stage_steps stage_values = Some m
    ∧ log.*1 = seq 0 (length stage_steps `min` length stage_values)
    ∧ ∀ i b, (i, b) ∈ log →
        b ≠ ClosedAtCurrent
        ∧ (i = 0%nat → b = Unchanged)
        ∧ (b = ClosedAtPrevious → (1 ≤ i)%nat ∧ is_Some (stage_steps !! (i - 1)%nat)).
Proof.
  destruct (find_stage_transitions_traced_blocks stage_steps stage_values)
    as (log & Hrun & Hidx & Hlog).
  exists (write_all ∅ (stage_blocks stage_steps stage_values)), log.
  split; [exact Hrun|]. split; [apply find_stage_transitions_blocks|].
  split; [exact Hidx|]. intros i b Hin.
  destruct (proj1 (Forall_forall _ _) Hlog (i, b) Hin) as [Hfall Hprev]. cbn in *.
  assert (Hi : (i < length stage_steps)%nat).
  { assert (Hi : i ∈ log.*1) by (apply list_elem_of_fmap; by exists (i, b)).
    rewrite Hidx in Hi. apply elem_of_seq in Hi. lia. }
  split; [exact Hfall|]. split.
  - intros ->. destruct b; [done| |done]. specialize (Hprev eq_refl). lia.
  - intros Hb. split; [by apply Hprev|]. apply lookup_lt_is_Some. lia.
Qed.

Lemma blocks_keys items : ∀ cur start prev fin,
  (blocks cur start prev fin items).*1 = compress cur (py_int <$> items.*2).
Proof.
  induction items as [|[step v] rest IH]; intros cur start prev fin; [done|].
  cbn. case_decide; cbn; by rewrite IH.
Qed.

Lemma elem_of_compress k ids : ∀ cur, k ∈ compress cur ids ↔ k = cur ∨ k ∈ ids.
Proof.
  induction ids as [|id rest IH]; intros cur; cbn.
  - rewrite list_elem_of_singleton. set_solver.
  - case_decide as Hid.
    + subst. rewrite IH. set_solver.
    + rewrite elem_of_cons, IH. set_solver.
Qed.

Lemma dom_write_all l : ∀ m, dom (write_all m l) = list_to_set l.*1 ∪ dom m.
Proof.
  induction l as [|[k r] l IH]; intros m; cbn.
  - set_solver.
  - unfold write_all in IH. rewrite IH, dom_insert_L. set_solver.
Qed.

Lemma zip_snd_take {A B} (l : list A) : ∀ k : list B, (zip l k).*2 = take (length l) k.
Proof.
  induction l as [|x l IH]; intros [|y k]; cbn; try done. by rewrite IH.
Qed.

(** The keys of the scan's result are the stage numbers of the scanned samples. *)
Lemma stage_blocks_keys stage_steps stage_values k :
  k ∈ (stage_blocks stage_steps stage_values).*1
  ↔ ∃ v, v ∈ take (length stage_steps) stage_values ∧ py_int v = k.
Proof.
  destruct stage_steps as [|s0 steps'].
  { cbn. split; [by intros ?%elem_of_nil|]. intros (v & Hv & _). by apply elem_of_nil in Hv. }
  destruct stage_values as [|v0 values'].
  { cbn. split; [by intros ?%elem_of_nil|]. intros (v & Hv & _). by apply elem_of_nil in Hv. }
  unfold stage_blocks, py_zip. rewrite blocks_keys, elem_of_compress, zip_snd_take.
  cbn [length take]. split.
  - intros [->|Hk].
    + exists v0. split; [left|done].
    + apply list_elem_of_fmap in Hk as (v & -> & Hv). exists v. split; [by right|done].
  - intros (v & Hv & <-). apply elem_of_cons in Hv as [->|Hv]; [by left|].
    right. apply list_elem_of_fmap. by exists v.
Qed.

(** C8, as the code has it: the keys of the segmenter's output are
    exactly the [int()] truncations of the scanned stage values, raw and
    not renumbered, and [current_stage] starts as the truncation of the
    first value. *)
Theorem stage_ids_are_truncated_values stage_steps stage_values :
  ∃ m,
    find_stage_transitions stage_steps stage_values = Some m
    ∧ (∀ k, is_Some (m !! k)
            ↔ ∃ v, v ∈ take (length stage_steps) stage_values ∧ py_int v = k)
    ∧ (∀ v0 rest, stage_values = v0 :: rest →
         current_stage (init_state stage_steps stage_values) = py_int v0).
Proof.
  exists (write_all ∅ (stage_blocks stage_steps stage_values)).
  split; [apply find_stage_transitions_blocks|]. split.
  - intros k. rewrite <- elem_of_dom, dom_write_all, <- stage_blocks_keys. set_solver.
  - by intros v0 rest ->.
Qed.

(** On integer-valued stage values, the usual case, truncating and
    rounding agree. *)
Lemma integer_stage_value_conversions (v : Q) (z : Z) :
  (v == inject_Z z)%Q → py_int v = z ∧ round_to_int v = z.
Proof.
  intros Hv. split.
  - unfold py_int. destruct v as [n d]. unfold Qeq, inject_Z in Hv. cbn in *.
    rewrite Z.mul_1_r in Hv. subst n. apply Z.quot_mul. lia.
  - unfold round_to_int, round_half_even.
    assert (Hfloor : Qfloor v = z) by (rewrite Hv; apply Qfloor_Z).
    rewrite Hfloor.
    destruct (Qcompare_spec (v - inject_Z z) (1 # 2)) as [Heq|Hlt|Hgt]; [|done|]; lra.
Qed.

(** C8 as stated fails: the single stage value 0.6 is filed under stage 0,
    while rounding to the nearest integer gives 1 for the only value of
    the signal. *)
Lemma stage_id_is_not_the_rounded_value :
  ∃ m, find_stage_transitions [0] [(6 # 10)%Q] = Some m
       ∧ m !! 0 = Some (0, 0)
       ∧ size m = 1%nat
       ∧ round_to_int (6 # 10) = 1
       ∧ ¬ ∃ v, v ∈ [(6 # 10)%Q] ∧ round_to_int v = 0.
Proof.
  exists {[0 := (0, 0)]}. split; [by vm_compute|]. split; [by vm_compute|].
  split; [by vm_compute|]. split; [by vm_compute|].
  intros (v & Hv & Hround). apply list_elem_of_singleton in Hv. subst v.
  vm_compute in Hround. discriminate.
Qed.

(** With distinct keys the order of the writes is immaterial. *)
Lemma write_all_NoDup l : NoDup l.*1 → write_all ∅ l = list_to_map l.
Proof.
  induction l as [|[k r] l IH] using rev_ind; [done|]. intros Hnd.
  rewrite fmap_app in Hnd. apply NoDup_app in Hnd as (Hl & Hk & _).
  unfold write_all in *. rewrite foldl_app. cbn. rewrite IH by done.
  rewrite list_to_map_snoc; [done|]. intros Hin. by apply (Hk k Hin), list_elem_of_singleton.
Qed.

Lemma ordered_from_weaken l : ∀ lo lo', lo' ≤ lo → ordered_from lo l → ordered_from lo' l.
Proof. destruct l as [|[id [a b]] l]; cbn; [done|]. intros lo lo' Hle (? & ? & ?). repeat split; [lia|done..]. Qed.

Lemma ordered_from_bounds l : ∀ lo e, ordered_from lo l → e ∈ l → lo < e.2.1 ∧ e.2.1 ≤ e.2.2.
Proof.
  induction l as [|[id [a b]] l IH]; intros lo e Hord He; [by apply elem_of_nil in He|].
  destruct Hord as (Hlo & Hab & Hrest). apply elem_of_cons in He as [->|He]; [done|].
  destruct (IH b e Hrest He). lia.
Qed.

(** Two blocks of an ordered list are the same entry or disjoint. *)
Lemma ordered_from_disjoint l : ∀ lo e1 e2,
  ordered_from lo l → e1 ∈ l → e2 ∈ l → e1 = e2 ∨ disjoint_ranges e1.2 e2.2.
Proof.
  induction l as [|[id [a b]] l IH]; intros lo e1 e2 Hord H1 H2;
    [by apply elem_of_nil in H1|].
  destruct Hord as (Hlo & Hab & Hrest).
  apply elem_of_cons in H1 as [->|H1]; apply elem_of_cons in H2 as [->|H2].
  - by left.
  - right. left. cbn. by destruct (ordered_from_bounds l b e2 Hrest H2).
  - right. right. cbn. by destruct (ordered_from_bounds l b e1 Hrest H1).
  - by apply (IH b).
Qed.

Section blocks_of_advancing_steps.

Lemma last_step_cons (step : Z) (v : Q) (rest : list (Z * Q)) (prev : Z) :
  default prev (last ((step, v) :: rest).*1) = default step (last rest.*1).
Proof.
  cbn [fmap list_fmap fst]. destruct (rest.*1) as [|s rest'] eqn:E; [done|].
  rewrite last_cons. by destruct (last (s :: rest')) eqn:E'; [|apply last_None in E'].
Qed.

(** The blocks of an advancing step sequence follow one another. *)
Lemma blocks_ordered items : ∀ cur start prev fin lo,
  lo < start → start ≤ prev →
  steps_advance cur prev items →
  fin = default prev (last items.*1) →
  ordered_from lo (blocks cur start prev fin items).
Proof.
  induction items as [|[step v] rest IH]; intros cur start prev fin lo Hlo Hsp Hadv Hfin.
  - cbn in *. subst. done.
  - cbn [blocks]. destruct Hadv as (Hle & Hlt & Hrest).
    rewrite last_step_cons in Hfin.
    case_decide as Hid.
    + rewrite Hid in Hrest. apply IH; [lia|lia|done|done].
    + specialize (Hlt Hid). cbn. repeat split; [done..|]. apply IH; [lia|lia|done|done].
Qed.

(** Every scanned step lies in one of the blocks. *)
Lemma blocks_cover items : ∀ cur start prev fin s,
  start ≤ prev →
  steps_advance cur prev items →
  fin = default prev (last items.*1) →
  (start ≤ s ∧ s ≤ prev) ∨ s ∈ items.*1 →
  ∃ e, e ∈ blocks cur start prev fin items ∧ in_range s e.2.
Proof.
  induction items as [|[step v] rest IH]; intros cur start prev fin s Hsp Hadv Hfin Hs.
  - cbn in *. subst fin. destruct Hs as [Hs|Hs]; [|by apply elem_of_nil in Hs].
    exists (cur, (start, prev)). split; [by apply list_elem_of_singleton|done].
  - cbn [blocks]. destruct Hadv as (Hle & Hlt & Hrest).
    rewrite last_step_cons in Hfin.
    cbn [fmap list_fmap fst] in Hs. rewrite elem_of_cons in Hs.
    case_decide as Hid.
    + rewrite Hid in Hrest.
      apply IH; [lia|done|done|]. destruct Hs as [Hs|[->|Hs]]; [left; lia|left; lia|by right].
    + destruct Hs as [Hs|[->|Hs]].
      * exists (cur, (start, prev)). split; [left|done].
      * destruct (IH (py_int v) step step fin step) as (e & He & Hin);
          [lia|done|done|left; lia|].
        exists e. split; [by right|done].
      * destruct (IH (py_int v) step step fin s) as (e & He & Hin);
          [lia|done|done|by right|].
        exists e. split; [by right|done].
Qed.

(** Strictly increasing steps advance, whatever the stage values. *)
Lemma increasing_steps_advance items : ∀ cur prev,
  StronglySorted Z.lt (prev :: items.*1) → steps_advance cur prev items.
Proof.
  induction items as [|[step v] rest IH]; intros cur prev Hsorted; [done|].
  apply StronglySorted_inv in Hsorted as [Hsorted Hall].
  assert (Hstep : prev < step) by (by apply Forall_cons in Hall as [? _]).
  cbn. split; [lia|]. split; [done|]. by apply IH.
Qed.

Lemma increasing_steps_well_stepped stage_steps stage_values :
  length stage_steps = length stage_values →
  StronglySorted Z.lt stage_steps → well_stepped stage_steps stage_values.
Proof.
  intros Hlen Hsorted. destruct stage_steps as [|s0 steps'], stage_values as [|v0 values'];
    try done. cbn. apply increasing_steps_advance.
  unfold py_zip. rewrite fst_zip; [done|]. cbn in Hlen. lia.
Qed.

End blocks_of_advancing_steps.

(** C4, as the code has it: for a non-empty signal with one stage value
    per step, steps that never decrease and increase strictly across each
    stage change, and [int()]-truncated stage numbers forming k blocks
    with no revisit, the segmenter returns exactly k intervals, keyed by
    those stage numbers, pairwise disjoint, and every observed step lies
    in exactly one of them. *)
Theorem segments_partition_the_steps stage_steps stage_values :
  stage_steps ≠ [] →
  length stage_steps = length stage_values →
  well_stepped stage_steps stage_values →
  NoDup (stage_id_blocks stage_values) →
  ∃ m,
    find_stage_transitions stage_steps stage_values = Some m
    ∧ size m = length (stage_id_blocks stage_values)
    ∧ (∀ id, is_Some (m !! id) ↔ id ∈ stage_id_blocks stage_values)
    ∧ (∀ id1 id2 r1 r2,
         m !! id1 = Some r1 → m !! id2 = Some r2 → id1 ≠ id2 → disjoint_ranges r1 r2)
    ∧ (∀ s, s ∈ stage_steps →
         ∃ id r, m !! id = Some r ∧ in_range s r
                 ∧ ∀ id' r', m !! id' = Some r' → in_range s r' → id' = id).
Proof.
  intros Hne Hlen Hsorted Hnodup.
  destruct stage_steps as [|s0 steps']; [done|].
  destruct stage_values as [|v0 values']; [done|].
  cbn in Hlen. assert (Hlen' : length steps' = length values') by lia.
  set (fin := default s0 (last (s0 :: steps'))).
  set (bl := blocks (py_int v0) s0 s0 fin (py_zip steps' values')).
  assert (Hfst : (py_zip steps' values').*1 = steps') by (apply fst_zip; lia).
  assert (Hkeys : bl.*1 = stage_id_blocks (v0 :: values')).
  { unfold bl. rewrite blocks_keys. unfold py_zip. rewrite zip_snd_take, Hlen'.
    by rewrite firstn_all. }
  assert (Hfin : fin = default s0 (last (py_zip steps' values').*1)).
  { rewrite Hfst. unfold fin. destruct steps' as [|s1 steps'']; [done|].
    rewrite last_cons. by destruct (last (s1 :: steps'')) eqn:E; [|apply last_None in E]. }
  assert (Hord : ordered_from (s0 - 1) bl).
  { apply blocks_ordered; [lia|lia|done|done]. }
  assert (Hm : write_all ∅ bl = list_to_map bl).
  { apply write_all_NoDup. by rewrite Hkeys. }
  assert (Hlook : ∀ id r, (list_to_map bl : gmap Z (Z * Z)) !! id = Some r ↔ (id, r) ∈ bl).
  { intros id r. symmetry. apply elem_of_list_to_map. by rewrite Hkeys. }
  exists (list_to_map bl). split; [|split; [|split; [|split]]].
  - rewrite find_stage_transitions_blocks. unfold stage_blocks. fold fin. fold bl.
    by rewrite Hm.
  - rewrite map_size_list_to_map by (by rewrite Hkeys).
    by rewrite <- Hkeys, length_fmap.
  - intros id. rewrite <- Hkeys. split.
    + intros [r Hr]. apply Hlook in Hr. apply list_elem_of_fmap. by exists (id, r).
    + intros ([id' r] & -> & Hin)%list_elem_of_fmap. exists r. by apply Hlook.
  - intros id1 id2 r1 r2 H1%Hlook H2%Hlook Hdiff.
    destruct (ordered_from_disjoint bl _ _ _ Hord H1 H2) as [Heq|Hdis]; [|done].
    by inversion Heq.
  - intros s Hs.
    destruct (blocks_cover (py_zip steps' values') (py_int v0) s0 s0 fin s)
      as ([id r] & He & Hin); [lia|done|done| |].
    { rewrite Hfst. apply elem_of_cons in Hs as [->|Hs]; [left; lia|by right]. }
    exists id, r. split; [by apply Hlook|]. split; [done|].
    intros id' r' H'%Hlook Hin'.
    destruct (ordered_from_disjoint bl _ _ _ Hord He H') as [Heq|Hdis]; [by inversion Heq|].
    unfold in_range, disjoint_ranges in *. cbn in *. lia.
Qed.

Lemma segments_partition_the_steps_witness :
  scenario_A_steps ≠ []
  ∧ length scenario_A_steps = length scenario_A_stages
  ∧ well_stepped scenario_A_steps scenario_A_stages
  ∧ NoDup (stage_id_blocks scenario_A_stages)
  ∧ ∃ m,
      find_stage_transitions scenario_A_steps scenario_A_stages = Some m
      ∧ size m = length (stage_id_blocks scenario_A_stages)
      ∧ (∀ id, is_Some (m !! id) ↔ id ∈ stage_id_blocks scenario_A_stages)
      ∧ (∀ id1 id2 r1 r2,
           m !! id1 = Some r1 → m !! id2 = Some r2 → id1 ≠ id2 → disjoint_ranges r1 r2)
      ∧ (∀ s, s ∈ scenario_A_steps →
           ∃ id r, m !! id = Some r ∧ in_range s r
                   ∧ ∀ id' r', m !! id' = Some r' → in_range s r' → id' = id).
Proof.
  assert (H1 : scenario_A_steps ≠ []) by discriminate.
  assert (H2 : length scenario_A_steps = length scenario_A_stages) by reflexivity.
  assert (H3 : well_stepped scenario_A_steps scenario_A_stages).
  { cbn. repeat split; (lia || (intros _; lia)). }
  assert (H4 : NoDup (stage_id_blocks scenario_A_stages)).
  { apply (bool_decide_unpack _). vm_compute. reflexivity. }
  split; [exact H1|]. split; [exact H2|]. split; [exact H3|]. split; [exact H4|].
  exact (segments_partition_the_steps scenario_A_steps scenario_A_stages H1 H2 H3 H4).
Defined.

(** C4 as stated fails twice over.  With the repeated step 1 at the
    transition (stages 0,0,1,1 at steps 0,1,1,2) the two intervals are
    [0,1] and [1,2] and step 1 lies in both.  With the stage values 0.6 and
    1.4, whose rounded values form one block, the segmenter returns two
    intervals. *)
Lemma segments_overlap_or_miscount :
  (NoDup (rounded_id_blocks repeated_step_stages)
   ∧ NoDup (stage_id_blocks repeated_step_stages)
   ∧ repeated_step_steps !! 1%nat = Some 1
   ∧ ∃ m, find_stage_transitions repeated_step_steps repeated_step_stages = Some m
          ∧ m !! 0 = Some (0, 1) ∧ m !! 1 = Some (1, 2)
          ∧ in_range 1 (0, 1) ∧ in_range 1 (1, 2))
  ∧ (rounded_id_blocks fractional_stages = [1]
     ∧ ∃ m, find_stage_transitions fractional_steps fractional_stages = Some m
            ∧ size m = 2%nat).
Proof.
  split.
  - split; [apply (bool_decide_unpack _); by vm_compute|].
    split; [apply (bool_decide_unpack _); by vm_compute|].
    split; [reflexivity|].
    exists (<[1 := (1, 2)]> {[ 0 := (0, 1) ]}).
    split; [by vm_compute|]. split; [by vm_compute|]. split; [by vm_compute|].
    unfold in_range. cbn. lia.
  - split; [by vm_compute|].
    exists (<[1 := (1, 1)]> {[ 0 := (0, 0) ]}). split; by vm_compute.
Qed.

(** ** The aggregator *)

(** [l[-w:]] is the last [w] elements when [1 <= w < len(l)]. *)
Lemma py_slice_from_last {A} (l : list A) (w : Z) :
  1 ≤ w → w < Z.of_nat (length l) →
  py_slice_from l (- w) = drop (length l - Z.to_nat w) l.
Proof.
  intros Hw Hlen. unfold py_slice_from.
  destruct (Z.ltb_spec (- w) 0) as [_|?]; [|lia]. f_equal. lia.
Qed.

(** [l[-0:]] is the whole list. *)
Lemma py_slice_from_zero {A} (l : list A) : py_slice_from l (- 0) = l.
Proof. unfold py_slice_from. cbn. by rewrite Z.min_l by lia. Qed.

Lemma get_stage_performance_lookup `{NumPy} steps values stage_ranges stage_window stage_num :
  get_stage_performance steps values stage_ranges stage_window !! stage_num
  = stage_ranges !! stage_num ≫= stage_entry steps values stage_window.
Proof. unfold get_stage_performance. apply lookup_omap. Qed.

(** C5, as the code has it: with a window of at least one sample, a stage
    holding more than [stage_window] in-interval samples is summarised
    over exactly its last [stage_window] samples, and a stage holding at
    most [stage_window] samples over all of them. *)
Theorem converged_window `{NumPy} steps values stage_ranges stage_window stage_num range :
  1 ≤ stage_window →
  stage_ranges !! stage_num = Some range →
  values_in_range (py_zip steps values) range.1 range.2 ≠ [] →
  ∃ final_values,
    get_stage_performance steps values stage_ranges stage_window !! stage_num
    = Some (StagePerf (np_mean final_values) (np_std final_values)
                      (np_min final_values) (np_max final_values)
                      (length (values_in_range (py_zip steps values) range.1 range.2))
                      range)
    ∧ (stage_window < Z.of_nat (length (values_in_range (py_zip steps values) range.1 range.2)) →
         final_values
         = drop (length (values_in_range (py_zip steps values) range.1 range.2)
                 - Z.to_nat stage_window)
                (values_in_range (py_zip steps values) range.1 range.2)
         ∧ length final_values = Z.to_nat stage_window)
    ∧ (Z.of_nat (length (values_in_range (py_zip steps values) range.1 range.2)) ≤ stage_window →
         final_values = values_in_range (py_zip steps values) range.1 range.2).
Proof.
  intros Hw Hrange Hne.
  set (stage_values := values_in_range (py_zip steps values) range.1 range.2) in *.
  exists (final_window_values stage_values stage_window).
  assert (Hfinal : final_window_values stage_values stage_window ≠ []).
  { unfold final_window_values. case_decide as Hlt; [|done].
    rewrite py_slice_from_last by lia. intros Hnil.
    apply (f_equal length) in Hnil. rewrite length_drop in Hnil. cbn in Hnil. lia. }
  split; [|split].
  - rewrite get_stage_performance_lookup, Hrange. cbn. unfold stage_entry.
    fold stage_values. destruct stage_values as [|x xs] eqn:E; [done|].
    by destruct (final_window_values (x :: xs) stage_window).
  - intros Hlt. unfold final_window_values. rewrite decide_True by done.
    rewrite py_slice_from_last by lia. split; [done|]. rewrite length_drop. lia.
  - intros Hle. unfold final_window_values. by rewrite decide_False by lia.
Qed.

Lemma converged_window_witness :
  1 ≤ 2
  ∧ sharp_tail_ranges !! 0 = Some (0, 5)
  ∧ values_in_range (py_zip sharp_tail_steps sharp_tail_values) 0 5 ≠ []
  ∧ ∃ final_values,
      get_stage_performance (H := Concrete.numpy)
        sharp_tail_steps sharp_tail_values sharp_tail_ranges 2 !! 0
      = Some (StagePerf (np_mean final_values) (np_std (H := Concrete.numpy) final_values)
                        (np_min final_values) (np_max final_values)
                        (length (values_in_range
                                   (py_zip sharp_tail_steps sharp_tail_values) 0 5))
                        (0, 5))
      ∧ (2 < Z.of_nat (length (values_in_range
                                 (py_zip sharp_tail_steps sharp_tail_values) 0 5)) →
           final_values
           = drop (length (values_in_range
                             (py_zip sharp_tail_steps sharp_tail_values) 0 5)
                   - Z.to_nat 2)
                  (values_in_range (py_zip sharp_tail_steps sharp_tail_values) 0 5)
           ∧ length final_values = Z.to_nat 2)
      ∧ (Z.of_nat (length (values_in_range
                             (py_zip sharp_tail_steps sharp_tail_values) 0 5)) ≤ 2 →
           final_values = values_in_range (py_zip sharp_tail_steps sharp_tail_values) 0 5).
Proof.
  assert (H1 : 1 ≤ 2) by lia.
  assert (H2 : sharp_tail_ranges !! 0 = Some (0, 5)) by reflexivity.
  assert (H3 : values_in_range (py_zip sharp_tail_steps sharp_tail_values) 0 5 ≠ [])
    by (vm_compute; discriminate).
  split; [exact H1|]. split; [exact H2|]. split; [exact H3|].
  exact (converged_window (H := Concrete.numpy) sharp_tail_steps sharp_tail_values
           sharp_tail_ranges 2 0 (0, 5) H1 H2 H3).
Defined.

(** The aggregate of a series with a sharp final segment is that of the
    tail (mean 1), not of the whole stage (mean 1/3). *)
Example sharp_tail_mean :
  sp_mean <$> (get_stage_performance (H := Concrete.numpy)
                 sharp_tail_steps sharp_tail_values sharp_tail_ranges 2 !! 0)
  = Some (1 # 1)%Q
  ∧ np_mean sharp_tail_values = (1 # 3)%Q.
Proof. split; vm_compute; reflexivity. Qed.

(** C5 as stated fails for a window of 0: the stage holds two samples,
    more than the window, and the statistics are taken over both of them
    ([l[-0:]] is the whole list), not over the last 0 samples. *)
Lemma zero_window_keeps_all_samples :
  values_in_range (py_zip two_sample_steps two_sample_values) 0 1 = two_sample_values
  ∧ 0 < Z.of_nat (length two_sample_values)
  ∧ final_window_values two_sample_values 0 = two_sample_values
  ∧ length (final_window_values two_sample_values 0) = 2%nat
  ∧ drop (length two_sample_values - Z.to_nat 0) two_sample_values = []
  ∧ get_stage_performance (H := Concrete.numpy)
      two_sample_steps two_sample_values two_sample_ranges 0 !! 0
    = Some (StagePerf (2 # 1) (1 # 1) (1 # 1) (3 # 1) 2 (0, 1)).
Proof. repeat split; vm_compute; reflexivity. Qed.

(** ** The bootstrap estimator *)

(** C6: with fewer than two values [bootstrap_ci] returns the pair
    [(0.0, 0.0)], whatever [n_bootstrap] and [confidence] are, without
    raising and without touching the generator. *)
Theorem bootstrap_ci_sentinel `{NumPy} (data : list Q) (n_bootstrap : Z) (confidence : Q)
    (g : rng) :
  (length data < 2)%nat →
  bootstrap_ci data n_bootstrap confidence g = ((0 # 1, 0 # 1)%Q, g).
Proof. intros Hlen. unfold bootstrap_ci. by rewrite decide_True. Qed.

Lemma bootstrap_ci_sentinel_witness :
  (length [(1 # 2)%Q] < 2)%nat
  ∧ bootstrap_ci (H := Concrete.numpy) [(1 # 2)%Q] 1000 (95 # 100) 1
    = ((0 # 1, 0 # 1)%Q, 1).
Proof.
  assert (H1 : (length [(1 # 2)%Q] < 2)%nat) by (cbn; lia).
  split; [exact H1|].
  exact (bootstrap_ci_sentinel (H := Concrete.numpy) [(1 # 2)%Q] 1000 (95 # 100) 1 H1).
Defined.

(** The resampling loop draws exactly [n] samples of the size of the data. *)
Lemma resample_means_length `{NumPy} n : ∀ data bootstrap_means g,
  length (resample_means n data bootstrap_means g).1 = (length bootstrap_means + n)%nat.
Proof.
  induction n as [|n IH]; intros data bootstrap_means g; cbn; [lia|].
  destruct (np_random_choice data (length data) g) as [sample g'].
  rewrite IH, length_app. cbn. lia.
Qed.

Lemma resample_means_spec `{NumPy} n : ∀ data bootstrap_means g,
  resample_means n data bootstrap_means g
  = (bootstrap_means ++ successive_means n data g, state_after n data g).
Proof.
  unfold successive_means.
  induction n as [|n IH]; intros data acc g;
    cbn [resample_means states_before state_after fmap list_fmap].
  - by rewrite app_nil_r.
  - unfold resample at 1 3 4.
    destruct (np_random_choice data (length data) g) as [sample g1] eqn:Hsample.
    cbn [fst snd]. by rewrite IH, <- app_assoc.
Qed.

Lemma states_before_length `{NumPy} n : ∀ data g, length (states_before n data g) = n.
Proof. induction n as [|n IH]; intros data g; cbn; [done|]. by rewrite IH. Qed.

(** C7, as the code has it: the estimator takes no seed.  For at least
    two values, [n_bootstrap >= 1] and a confidence between 0 and 1 it
    draws exactly [n_bootstrap] successive resamples of the size of the
    data from the global generator, leaves the generator in the state
    after those draws, and returns the percentiles of the resample means
    at the ranks [100*(1-confidence)/2 <= 50 <= 100*(1-(1-confidence)/2)].
    Its bounds are thus a function of the data, [n_bootstrap],
    [confidence] and the state of the generator at the call. *)
Theorem bootstrap_ci_resamples `{NumPy} (data : list Q) (n_bootstrap : Z) (confidence : Q)
    (g : rng) :
  (2 ≤ length data)%nat →
  1 ≤ n_bootstrap →
  (0 <= confidence)%Q → (confidence <= 1)%Q →
  bootstrap_ci data n_bootstrap confidence g
  = ((np_percentile (successive_means (Z.to_nat n_bootstrap) data g)
                    (100 * (1 - confidence) / 2)%Q,
      np_percentile (successive_means (Z.to_nat n_bootstrap) data g)
                    (100 * (1 - (1 - confidence) / 2))%Q),
     state_after (Z.to_nat n_bootstrap) data g)
  ∧ Z.of_nat (length (successive_means (Z.to_nat n_bootstrap) data g)) = n_bootstrap
  ∧ (0 <= 100 * (1 - confidence) / 2)%Q
  ∧ (100 * (1 - confidence) / 2 <= 50)%Q
  ∧ (50 <= 100 * (1 - (1 - confidence) / 2))%Q
  ∧ (100 * (1 - (1 - confidence) / 2) <= 100)%Q.
Proof.
  intros Hlen Hn Hc0 Hc1. split; [|split].
  - unfold bootstrap_ci. rewrite decide_False by lia.
    by rewrite resample_means_spec.
  - unfold successive_means. rewrite length_fmap, states_before_length. lia.
  - unfold Qdiv. change (/ 2)%Q with (1 # 2)%Q. repeat split; lra.
Qed.

Lemma bootstrap_ci_resamples_witness :
  (2 ≤ length one_two)%nat
  ∧ 1 ≤ 1000
  ∧ (0 <= 95 # 100)%Q ∧ (95 # 100 <= 1)%Q
  ∧ bootstrap_ci (H := Legacy.numpy) one_two 1000 (95 # 100) (Legacy.seed 42)
    = ((np_percentile (NumPy := Legacy.numpy)
          (successive_means (H := Legacy.numpy) (Z.to_nat 1000) one_two (Legacy.seed 42))
          (100 * (1 - (95 # 100)) / 2)%Q,
        np_percentile (NumPy := Legacy.numpy)
          (successive_means (H := Legacy.numpy) (Z.to_nat 1000) one_two (Legacy.seed 42))
          (100 * (1 - (1 - (95 # 100)) / 2))%Q),
       state_after (H := Legacy.numpy) (Z.to_nat 1000) one_two (Legacy.seed 42))
  ∧ Z.of_nat (length (successive_means (H := Legacy.numpy) (Z.to_nat 1000) one_two
                        (Legacy.seed 42))) = 1000
  ∧ (0 <= 100 * (1 - (95 # 100)) / 2)%Q
  ∧ (100 * (1 - (95 # 100)) / 2 <= 50)%Q
  ∧ (50 <= 100 * (1 - (1 - (95 # 100)) / 2))%Q
  ∧ (100 * (1 - (1 - (95 # 100)) / 2) <= 100)%Q.
Proof.
  assert (H1 : (2 ≤ length one_two)%nat) by (cbn; lia).
  assert (H2 : 1 ≤ 1000) by lia.
  assert (H3 : (0 <= 95 # 100)%Q) by (by vm_compute).
  assert (H4 : (95 # 100 <= 1)%Q) by (by vm_compute).
  split; [exact H1|]. split; [exact H2|]. split; [exact H3|]. split; [exact H4|].
  exact (bootstrap_ci_resamples (H := Legacy.numpy) one_two 1000 (95 # 100)
           (Legacy.seed 42) H1 H2 H3 H4).
Defined.

(** The generator of [Legacy] gives the reference outputs of MT19937
    (3499211612 first for the seed 5489) and, after [np.random.seed(42)],
    the outputs whose low bits are the indices
    [randint(0, 2, 4) = [0, 1, 0, 0]]. *)
Example legacy_generator_reference_values :
  (Legacy.next_uint32 (Legacy.seed 5489)).1 = 3499211612
  ∧ (Legacy.next_uint32 (Legacy.seed 42)).1 = 1608637542
  ∧ (Legacy.indices 4 2 (Legacy.seed 42)).1 = [0; 1; 0; 0]
  ∧ (Legacy.indices 4 2 (Legacy.seed 0)).1 = [0; 1; 1; 0].
Proof. repeat split; vm_compute; reflexivity. Qed.

(** C7 as stated fails: there is no seed to pass, and with the global
    generator seeded, [np.random.seed(42)], two calls one after the other
    with the same data, [n_bootstrap] and [confidence] return different
    bounds, [(1.5, 1.5)] then [(1.0, 1.0)]: the first call has advanced
    the generator. *)
Lemma successive_bootstrap_calls_differ :
  (bootstrap_ci (H := Legacy.numpy) one_two 1 (95 # 100) (Legacy.seed 42)).1
  = ((3 # 2)%Q, (3 # 2)%Q)
  ∧ (bootstrap_ci (H := Legacy.numpy) one_two 1 (95 # 100)
       (bootstrap_ci (H := Legacy.numpy) one_two 1 (95 # 100) (Legacy.seed 42)).2).1
    = ((1 # 1)%Q, (1 # 1)%Q)
  ∧ (bootstrap_ci (H := Legacy.numpy) one_two 1 (95 # 100) (Legacy.seed 42)).1
    ≠ (bootstrap_ci (H := Legacy.numpy) one_two 1 (95 # 100)
         (bootstrap_ci (H := Legacy.numpy) one_two 1 (95 # 100) (Legacy.seed 42)).2).1.
Proof.
  split; [by vm_compute|]. split; [by vm_compute|]. vm_compute. discriminate.
Qed.

(** ** Formatting *)

Lemma round_half_even_nearest_even (x : Q) : nearest_even (round_half_even x) x.
Proof.
  unfold nearest_even, round_half_even.
  pose proof (Qfloor_le x) as Hlo. pose proof (Qlt_floor x) as Hhi.
  rewrite inject_Z_plus in Hhi. change (inject_Z 1) with 1%Q in Hhi.
  destruct (Qcompare_spec (x - inject_Z (Qfloor x)) (1 # 2)) as [Heq|Hlt|Hgt].
  - destruct (Z.even (Qfloor x)) eqn:Heven.
    + split; [apply Qabs_Qle_condition; split; lra|done].
    + split.
      * apply Qabs_Qle_condition. rewrite inject_Z_plus.
        change (inject_Z 1) with 1%Q. split; lra.
      * intros _. rewrite Z.even_add, Heven. done.
  - split; [apply Qabs_Qle_condition; split; lra|].
    intros Htie. exfalso.
    assert (Qabs (inject_Z (Qfloor x) - x) == x - inject_Z (Qfloor x))%Q as Habs.
    { rewrite <- Qabs_opp. rewrite Qabs_pos; [ring|lra]. }
    rewrite Habs in Htie. lra.
  - split.
    + apply Qabs_Qle_condition. rewrite inject_Z_plus.
      change (inject_Z 1) with 1%Q. split; lra.
    + intros Htie. exfalso.
      rewrite inject_Z_plus in Htie. change (inject_Z 1) with 1%Q in Htie.
      rewrite Qabs_pos in Htie; lra.
Qed.

Lemma round_half_even_nonneg (x : Q) : (0 <= x)%Q → 0 ≤ round_half_even x.
Proof.
  intros Hx. unfold round_half_even.
  assert (0 ≤ Qfloor x) as Hf.
  { change 0 with (Qfloor 0). by apply Qfloor_resp_le. }
  destruct (_ ?= _)%Q; [destruct (Z.even _)|..]; lia.
Qed.

Lemma nearest_even_opp n y : nearest_even n y → nearest_even (- n) (- y).
Proof.
  unfold nearest_even.
  assert (Qabs (inject_Z (- n) - - y) == Qabs (inject_Z n - y))%Q as Habs.
  { rewrite <- (Qabs_opp (inject_Z n - y)). apply Qabs_wd.
    rewrite inject_Z_opp. ring. }
  intros [Hnear Htie]. split.
  - by rewrite Habs.
  - intros H. rewrite Z.even_opp. apply Htie. by rewrite <- Habs.
Qed.

Lemma nearest_even_wd n y y' : (y == y')%Q → nearest_even n y → nearest_even n y'.
Proof.
  intros Hy. unfold nearest_even.
  assert (Qabs (inject_Z n - y) == Qabs (inject_Z n - y'))%Q as Habs
    by (apply Qabs_wd; rewrite Hy; ring).
  intros [Hnear Htie]. split.
  - by rewrite <- Habs.
  - intros H. apply Htie. by rewrite Habs.
Qed.

Lemma append_cons c s1 s2 : String c s1 +:+ s2 = String c (s1 +:+ s2).
Proof. reflexivity. Qed.

Lemma after_point_append s1 s2 :
  after_point s1 = None → after_point (s1 +:+ s2) = after_point s2.
Proof.
  induction s1 as [|c s1 IH]; intros Hnone; [done|].
  rewrite append_cons. cbn in *. destruct (decide (c = "."%char)); [done|]. by apply IH.
Qed.

Lemma before_point_append s1 s2 :
  after_point s1 = None → before_point (s1 +:+ s2) = s1 +:+ before_point s2.
Proof.
  induction s1 as [|c s1 IH]; intros Hnone; [done|].
  rewrite !append_cons. cbn in *. destruct (decide (c = "."%char)); [done|].
  by rewrite IH.
Qed.

Lemma append_empty_r s : s +:+ "" = s.
Proof. induction s as [|c s IH]; [done|]. by rewrite append_cons, IH. Qed.

Lemma string_length_append s1 s2 :
  String.length (s1 +:+ s2) = (String.length s1 + String.length s2)%nat.
Proof. induction s1 as [|c s1 IH]; [done|]. rewrite append_cons. cbn. by rewrite IH. Qed.

Lemma digit_char_is_digit n : 0 ≤ n < 10 → is_digit (digit_char n) = true.
Proof.
  intros Hn. unfold digit_char.
  assert (Hk : (Z.to_nat n < 10)%nat) by lia.
  destruct (Z.to_nat n) as [|[|[|[|[|[|[|[|[|[|k]]]]]]]]]]; try reflexivity. lia.
Qed.

Lemma digit_char_value n :
  0 ≤ n < 10 → Z.of_nat (nat_of_ascii (digit_char n)) - 48 = n.
Proof.
  intros Hn. unfold digit_char.
  rewrite nat_ascii_embedding by lia. lia.
Qed.

Lemma digits_value_append s1 s2 : ∀ acc,
  digits_value acc (s1 +:+ s2) = digits_value acc s1 ≫= λ a, digits_value a s2.
Proof.
  induction s1 as [|c s1 IH]; intros acc; [done|].
  rewrite append_cons. cbn [digits_value]. destruct (is_digit c); [apply IH|done].
Qed.

Lemma fixed_digits_length d : ∀ n, String.length (fixed_digits d n) = d.
Proof.
  induction d as [|d IH]; intros n; cbn; [done|].
  rewrite string_length_append, IH. cbn. lia.
Qed.

Lemma fixed_digits_no_point d : ∀ n, after_point (fixed_digits d n) = None.
Proof.
  induction d as [|d IH]; intros n; cbn [fixed_digits]; [done|].
  rewrite after_point_append by apply IH. cbn.
  rewrite decide_False; [done|].
  intros Heq. pose proof (digit_char_is_digit (n mod 10)) as Hd.
  rewrite Heq in Hd. specialize (Hd (Z.mod_pos_bound n 10 eq_refl)). done.
Qed.

Lemma digits_value_fixed_digits d : ∀ n acc,
  digits_value acc (fixed_digits d n) = Some (acc * 10 ^ Z.of_nat d + n mod 10 ^ Z.of_nat d).
Proof.
  induction d as [|d IH]; intros n acc.
  - cbn. rewrite Z.mod_1_r. f_equal. lia.
  - cbn [fixed_digits]. rewrite digits_value_append, IH. cbn [mbind option_bind digits_value].
    pose proof (Z.mod_pos_bound n 10 eq_refl) as Hd.
    rewrite digit_char_is_digit, digit_char_value by done. f_equal.
    rewrite Nat2Z.inj_succ, Z.pow_succ_r by lia.
    assert (0 < 10 ^ Z.of_nat d) as Hpos by (apply Z.pow_pos_nonneg; lia).
    rewrite (Z.rem_mul_r n 10 (10 ^ Z.of_nat d)) by lia. lia.
Qed.

Lemma digits_value_uint d : ∀ acc,
  digits_value acc (NilEmpty.string_of_uint d) = Some (uint_value acc d).
Proof. induction d; intros acc; cbn; [done|apply IHd..]. Qed.

Lemma uint_value_pos d : ∀ p, uint_value (Z.pos p) d = Z.pos (Pos.of_uint_acc d p).
Proof.
  induction d; intros p; cbn [uint_value Pos.of_uint_acc]; [done|..];
    match goal with
    | |- uint_value ?a _ = Z.pos (Pos.of_uint_acc _ ?q) =>
        replace a with (Z.pos q) by lia; apply IHd
    end.
Qed.

Lemma uint_value_0 d : uint_value 0 d = Z.of_N (Pos.of_uint d).
Proof.
  induction d; cbn [uint_value Pos.of_uint]; [done|exact IHd|..];
    match goal with
    | |- uint_value ?a _ = Z.of_N (N.pos (Pos.of_uint_acc _ ?q)) =>
        change a with (Z.pos q); apply uint_value_pos
    end.
Qed.

Lemma after_point_uint d : after_point (NilZero.string_of_uint d) = None.
Proof.
  assert (Hd : ∀ d, after_point (NilEmpty.string_of_uint d) = None).
  { clear d. intros d. induction d; cbn; [done|rewrite decide_False by done; assumption..]. }
  destruct d; try apply Hd. done.
Qed.

Lemma nzhead_not_D0 d d' : Decimal.nzhead d ≠ Decimal.D0 d'.
Proof. induction d; cbn; try done. Qed.

Lemma integer_value_uint d :
  d ≠ Decimal.Nil → (∀ d', d ≠ Decimal.D0 d' ∨ d' = Decimal.Nil) →
  integer_value (NilZero.string_of_uint d) = Some (uint_value 0 d)
  ∧ starts_with_minus (NilZero.string_of_uint d) = false.
Proof.
  intros Hnil Hzero.
  destruct d; try done;
    try (split; [|done]; cbn; apply digits_value_uint).
  destruct (Hzero d) as [?| ->]; [done|]. done.
Qed.

(** The numeral of a natural number reads back as that number, and is an
    integer part: not empty, no superfluous leading zero, no sign. *)
Lemma integer_value_to_uint (k : N) :
  integer_value (NilZero.string_of_uint (N.to_uint k)) = Some (Z.of_N k)
  ∧ starts_with_minus (NilZero.string_of_uint (N.to_uint k)) = false.
Proof.
  assert (Hval : uint_value 0 (N.to_uint k) = Z.of_N k).
  { rewrite uint_value_0. f_equal. apply (DecimalN.Unsigned.of_to k). }
  assert (Hnorm : N.to_uint k = Decimal.unorm (N.to_uint k)).
  { rewrite <- (DecimalN.Unsigned.to_of (N.to_uint k)).
    by rewrite (DecimalN.Unsigned.of_to k). }
  rewrite <- Hval. apply integer_value_uint.
  - rewrite Hnorm. unfold Decimal.unorm. by destruct (Decimal.nzhead _).
  - intros d'. rewrite Hnorm. unfold Decimal.unorm.
    destruct (Decimal.nzhead (N.to_uint k)) eqn:Hnz; try (by left).
    + destruct d'; [by right|by left..].
    + exfalso. by eapply nzhead_not_D0.
Qed.

Lemma before_point_no_point s : after_point s = None → before_point s = s.
Proof.
  induction s as [|c s IH]; [done|]. cbn.
  destruct (decide (c = "."%char)); [done|]. intros H. by rewrite IH.
Qed.

Lemma decimal_value_unsigned s :
  starts_with_minus s = false → decimal_value s = unsigned_value s.
Proof.
  destruct s as [|c s]; [done|].
  destruct c as [[] [] [] [] [] [] [] []]; done.
Qed.

Lemma starts_with_minus_append s1 s2 :
  s1 ≠ "" → starts_with_minus (s1 +:+ s2) = starts_with_minus s1.
Proof. destruct s1 as [|c s1]; [done|]. intros _. by rewrite append_cons. Qed.

Lemma inject_Z_div_mod (a u : Z) :
  0 < u →
  (inject_Z (a / u) + inject_Z (a mod u) / inject_Z u == inject_Z a / inject_Z u)%Q.
Proof.
  intros Hu.
  assert (¬ (inject_Z u == 0)%Q) as Hne.
  { change 0%Q with (inject_Z 0). rewrite inject_Z_injective. lia. }
  rewrite (Z.div_mod a u) at 3 by lia.
  rewrite inject_Z_plus, inject_Z_mult. field. done.
Qed.

Lemma format_magnitude_value (x : Q) (prec : nat) :
  (0 <= x)%Q →
  ∃ d,
    unsigned_value (format_magnitude x prec) = Some d
    ∧ (d == inject_Z (round_half_even (x * inject_Z (10 ^ Z.of_nat prec)))
            / inject_Z (10 ^ Z.of_nat prec))%Q
    ∧ starts_with_minus (format_magnitude x prec) = false
    ∧ decimals (format_magnitude x prec) = prec
    ∧ (after_point (format_magnitude x prec) = None ↔ prec = 0%nat).
Proof.
  intros Hx. unfold format_magnitude.
  set (u := 10 ^ Z.of_nat prec).
  assert (0 < u) as Hu by (apply Z.pow_pos_nonneg; lia).
  set (n := round_half_even (x * inject_Z u)).
  assert (0 ≤ n) as Hn.
  { apply round_half_even_nonneg. apply Qmult_le_0_compat; [done|].
    change 0%Q with (inject_Z 0). rewrite <- Zle_Qle. lia. }
  set (ip := NilZero.string_of_uint (N.to_uint (Z.to_N (n / u)))).
  destruct (integer_value_to_uint (Z.to_N (n / u))) as [Hint Hminus].
  fold ip in Hint, Hminus.
  rewrite Z2N.id in Hint by (apply Z.div_pos; lia).
  assert (ip ≠ "") as Hip by (intros E; by rewrite E in Hint).
  assert (after_point ip = None) as Hnp by apply after_point_uint.
  destruct prec as [|p].
  - rewrite append_empty_r. exists (inject_Z (n / u)).
    unfold unsigned_value, decimals.
    rewrite before_point_no_point, Hint, Hnp by done. cbn [mbind option_bind].
    split; [done|]. split.
    { subst u. change (10 ^ Z.of_nat 0) with 1 in *. rewrite Z.div_1_r.
      change (inject_Z 1) with 1%Q. field. }
    done.
  - set (frac := fixed_digits (S p) (n mod u)).
    assert (String.length frac = S p) as Hlen by apply fixed_digits_length.
    assert (digits_value 0 frac = Some (n mod u)) as Hfrac.
    { unfold frac. rewrite digits_value_fixed_digits. fold u.
      rewrite Z.mod_mod by lia. done. }
    change ("." +:+ frac) with (String "." frac).
    exists (inject_Z (n / u) + inject_Z (n mod u) / inject_Z u)%Q.
    unfold unsigned_value, decimals.
    rewrite before_point_append, after_point_append by done.
    cbn [before_point after_point]. rewrite decide_True by done.
    rewrite append_empty_r, Hint. cbn [mbind option_bind].
    unfold fraction_value. destruct frac as [|c frac'] eqn:Efrac; [done|].
    rewrite Hfrac, Hlen. cbn [fmap option_fmap option_map]. fold u.
    split; [done|]. split; [by apply inject_Z_div_mod|].
    split; [by rewrite starts_with_minus_append|]. split; [done|]. done.
Qed.

Lemma renders_wd s negative x x' prec :
  (x == x')%Q → renders s negative x prec → renders s negative x' prec.
Proof.
  intros Hx (n & d & Hd & Hval & Hnear & Hrest). exists n, d.
  split; [done|]. split; [done|]. split; [|done].
  eapply nearest_even_wd; [|exact Hnear]. by rewrite Hx.
Qed.

Lemma format_signed_renders (negative : bool) (m : Q) (prec : nat) :
  (0 <= m)%Q →
  renders (sign_prefix negative +:+ format_magnitude m prec) negative
          (if negative then - m else m)%Q prec.
Proof.
  intros Hm.
  destruct (format_magnitude_value m prec Hm) as (d & Hd & Hval & Hminus & Hdec & Hpoint).
  pose proof (round_half_even_nearest_even (m * inject_Z (10 ^ Z.of_nat prec))) as Hnear.
  set (n := round_half_even (m * inject_Z (10 ^ Z.of_nat prec))) in *.
  destruct negative; cbn [sign_prefix].
  - change ("-" +:+ format_magnitude m prec) with (String "-" (format_magnitude m prec)).
    exists (- n), (- d)%Q. cbn [decimal_value]. rewrite Hd. split; [done|].
    split.
    { rewrite Hval, inject_Z_opp. unfold Qdiv. ring. }
    split.
    { eapply nearest_even_wd; [|apply nearest_even_opp, Hnear]. ring. }
    split; [done|]. unfold decimals in *. cbn [after_point].
    rewrite decide_False by done. done.
  - change ("" +:+ format_magnitude m prec) with (format_magnitude m prec).
    exists n, d. rewrite decimal_value_unsigned by done. done.
Qed.

Lemma magnitude_nonneg m e : (0 <= magnitude m e)%Q.
Proof.
  unfold magnitude. apply Qmult_le_0_compat.
  - change 0%Q with (inject_Z 0). rewrite <- Zle_Qle. lia.
  - apply Qpower_0_le. done.
Qed.

Lemma format_fixed_renders x prec v :
  exact_value x = Some v → renders (format_fixed x prec) (sign_bit x) v prec.
Proof.
  unfold exact_value, format_fixed, sign_bit.
  destruct (FloatOps.Prim2SF x) as [s|s| |s m e]; intros Hv; try done;
    injection Hv as <-.
  - eapply renders_wd; [|apply (format_signed_renders s (0 # 1)); done].
    by destruct s.
  - apply format_signed_renders, magnitude_nonneg.
Qed.

Section format_value.

Import PrimFloat.

(** C9: for a finite double [v], [format_value(v, 'percentage')] is the
    numeral with one decimal of the double product [v*100] followed by
    ["%"], and [format_value(v, 'float')] is the numeral of [v] with no
    decimals when [abs(v) > 100] and with two decimals otherwise; each
    numeral is the nearest one, ties to even, with the sign of the double
    it prints.  The three documented renderings hold. *)
Theorem format_value_contract (v : float) :
  (∀ x, exact_value (v * 100)%float = Some x →
     ∃ body, format_value v "percentage" = body +:+ "%"
             ∧ renders body (sign_bit (v * 100)%float) x 1)
  ∧ (∀ x, exact_value v = Some x →
       (100 <? abs v)%float = true →
       renders (format_value v "float") (sign_bit v) x 0)
  ∧ (∀ x, exact_value v = Some x →
       (100 <? abs v)%float = false →
       renders (format_value v "float") (sign_bit v) x 2)
  ∧ format_value 0.873%float "percentage" = "87.3%"
  ∧ format_value 153.2%float "float" = "153"
  ∧ format_value 0.42%float "float" = "0.42".
Proof.
  split; [|split; [|split]].
  - intros x Hx. eexists. split; [reflexivity|]. by apply format_fixed_renders.
  - intros x Hx Hbig. unfold format_value. cbn [decide]. 
    rewrite decide_False by done. rewrite decide_True by done. rewrite Hbig.
    by apply format_fixed_renders.
  - intros x Hx Hbig. unfold format_value.
    rewrite decide_False by done. rewrite decide_True by done. rewrite Hbig.
    by apply format_fixed_renders.
  - split; [|split]; vm_compute; reflexivity.
Qed.

(** Ties go to the even digit, the product is the double product, the
    sign is the sign bit, and the threshold 100 is exclusive. *)
Example format_value_rounding :
  format_value 0.0025%float "percentage" = "0.2%"
  ∧ format_value 0.0015%float "percentage" = "0.1%"
  ∧ format_value 0.125%float "float" = "0.12"
  ∧ format_value 0.375%float "float" = "0.38"
  ∧ format_value 100%float "float" = "100.00"
  ∧ format_value 100.5%float "float" = "100"
  ∧ format_value 101.5%float "float" = "102"
  ∧ format_value (-153.2)%float "float" = "-153"
  ∧ format_value (-0.004)%float "float" = "-0.00"
  ∧ format_value (-0)%float "percentage" = "-0.0%"
  ∧ format_value 1e22%float "float" = "10000000000000000000000"
  ∧ format_value nan "float" = "nan"
  ∧ format_value 1e308%float "percentage" = "inf%".
Proof. repeat split; vm_compute; reflexivity. Qed.

End format_value.

(** ** The analyses *)

Lemma M_bind_Some `{NumPy} {A B} (m : M A) (f : A → M B) g r :
  (m ≫= f) g = Some r ↔ ∃ x g1, m g = Some (x, g1) ∧ f x g1 = Some r.
Proof.
  unfold mbind, M_bind. split.
  - destruct (m g) as [[x g1]|]; [|done]. intros Hf. by exists x, g1.
  - intros (x & g1 & -> & Hf). done.
Qed.

Lemma dict_get_set_eq {V} (d : list (string * V)) k v : dict_get (dict_set d k v) k = Some v.
Proof.
  induction d as [|[k' v'] d IH]; cbn.
  - by rewrite decide_True.
  - case_decide; cbn; [by rewrite decide_True|by rewrite decide_False].
Qed.

Lemma dict_get_set_ne {V} (d : list (string * V)) k k' v :
  k ≠ k' → dict_get (dict_set d k v) k' = dict_get d k'.
Proof.
  intros Hne. induction d as [|[k0 v0] d IH]; cbn.
  - by rewrite decide_False.
  - case_decide; cbn.
    + subst. by rewrite !decide_False.
    + case_decide; [done|exact IH].
Qed.

Lemma dict_set_Forall {V} (P : string * V → Prop) (d : list (string * V)) k v :
  Forall P d → P (k, v) → Forall P (dict_set d k v).
Proof.
  intros Hd Hkv. induction d as [|[k' v'] d IH]; cbn; [by constructor|].
  apply Forall_cons in Hd as [Hh Ht]. case_decide; constructor; auto.
Qed.

Lemma dict_set_nonempty {V} (d : list (string * V)) k v : dict_set d k v ≠ [].
Proof. destruct d as [|[k' v'] d]; cbn; [done|]. by case_decide. Qed.

(** Every entry written by the fallback is a flat dictionary. *)
Lemma fallback_entries_are_flat `{NumPy} fs run_dirs final_window ms :
  ∀ res g res' g',
    Forall (λ kv, ∃ r, kv.2 = Flat r) res →
    analyze_final_performance_only_loop fs run_dirs final_window ms res g = Some (res', g') →
    Forall (λ kv, ∃ r, kv.2 = Flat r) res'.
Proof.
  induction ms as [|[metric_key metric_info] ms IH]; intros res g res' g' Hres Hrun.
  - cbn in Hrun. by inversion Hrun; subst.
  - cbn [analyze_final_performance_only_loop] in Hrun.
    destruct (truthy _) in Hrun; [|by eapply IH].
    apply M_bind_Some in Hrun as (ci & g1 & _ & Hrun).
    eapply IH; [|exact Hrun]. apply dict_set_Forall; [done|]. by eexists.
Qed.

(** A flat dictionary has six keys, so any non-empty fallback result
    passes the test of line 433. *)
Lemma flat_results_pass_the_stage_test res :
  res ≠ [] → Forall (λ kv, ∃ r, kv.2 = Flat r) res → is_curriculum_aware res = true.
Proof.
  destruct res as [|[name data] res]; [done|]. intros _ Hflat.
  apply Forall_cons in Hflat as [[r Hr] _]. cbn in Hr. subst data. done.
Qed.

(** The part of C1 that holds: without a usable stage series the analysis
    is the final-window fallback, run with [stage_window] as its window. *)
Lemma no_stage_series_takes_the_fallback `{NumPy} fs run_dirs stage_window :
  find_all_stage_ranges fs run_dirs = Some [] →
  analyze_curriculum_aware fs run_dirs stage_window
  = analyze_final_performance_only fs run_dirs stage_window metrics.
Proof.
  intros Hfind. unfold analyze_curriculum_aware. by rewrite Hfind.
Qed.

(** C1, what the code does instead: whenever no run supplies a stage
    series and the fallback results reach the summary generator, the flag
    handed over is [True] and the summary is written by the stage-aware
    path. *)
Theorem fallback_results_are_flagged_curriculum_aware `{NumPy}
    fs run_dirs stage_window g res flag g' :
  find_all_stage_ranges fs (List.filter (valid_dir fs) run_dirs) = Some [] →
  main fs run_dirs stage_window g = Some (SummaryGenerated res flag, g') →
  flag = true
  ∧ summary_subtitle flag = "Performance metrics analyzed per curriculum stage".
Proof.
  intros Hfallback Hmain. unfold main in Hmain.
  destruct (truthy (List.filter _ _)); [|by inversion Hmain].
  apply M_bind_Some in Hmain as (res0 & g1 & Hanalyze & Hmain).
  destruct (truthy res0) eqn:Hres; [|by inversion Hmain].
  inversion Hmain; subst res flag g'; clear Hmain.
  unfold analyze_curriculum_aware in Hanalyze.
  apply M_bind_Some in Hanalyze as (all_stage_ranges & g2 & Hfind & Hanalyze).
  rewrite Hfallback in Hfind. inversion Hfind; subst; clear Hfind.
  apply fallback_entries_are_flat in Hanalyze; [|constructor].
  rewrite flat_results_pass_the_stage_test; [done| |done].
  by destruct res0.
Qed.

Lemma fallback_results_are_flagged_curriculum_aware_witness :
  find_all_stage_ranges no_stage_fs (List.filter (valid_dir no_stage_fs) ["run1"]) = Some []
  ∧ main (H := Concrete.numpy) no_stage_fs ["run1"] 50 1
    = Some (SummaryGenerated no_stage_results true, 1)
  ∧ true = true
  ∧ summary_subtitle true = "Performance metrics analyzed per curriculum stage".
Proof.
  assert (H1 : find_all_stage_ranges no_stage_fs
                 (List.filter (valid_dir no_stage_fs) ["run1"]) = Some [])
    by (vm_compute; reflexivity).
  assert (H2 : main (H := Concrete.numpy) no_stage_fs ["run1"] 50 1
               = Some (SummaryGenerated no_stage_results true, 1))
    by (vm_compute; reflexivity).
  split; [exact H1|]. split; [exact H2|].
  exact (fallback_results_are_flagged_curriculum_aware (H := Concrete.numpy)
           no_stage_fs ["run1"] 50 1 no_stage_results true 1 H1 H2).
Defined.

(** The curriculum path also flags a one-stage analysis as the fallback. *)
Example single_stage_results_are_flagged_fallback :
  ∃ by_stage r,
    find_all_stage_ranges single_stage_fs ["run1"] = Some [ {[ 0 := (0, 0) ]} ]
    ∧ main (H := Concrete.numpy) single_stage_fs ["run1"] 50 1
      = Some (SummaryGenerated
                [("Success Rate", PerStage by_stage);
                 ("Collision Rate", PerStage ∅);
                 ("Cumulative Reward", PerStage ∅);
                 ("Episode Length", PerStage ∅);
                 ("Min Distance to Goal", PerStage ∅)] false, 1)
    ∧ by_stage = {[ 0 := r ]}.
Proof. do 2 eexists. split; [by vm_compute|]. split; vm_compute; reflexivity. Qed.

Lemma load_csv_data_truthy fs run_dir file :
  truthy (load_csv_data fs run_dir file).1 = truthy (load_csv_data fs run_dir file).2.
Proof. unfold load_csv_data. destruct (read_file fs run_dir file) as [[|[s v] rows]|]; done. Qed.

Lemma collect_stage_performances_none `{NumPy} fs metric_key stage_ranges stage_window run_dirs :
  ∀ stage_performances,
    (∀ d, d ∈ run_dirs → contributes fs d metric_key = false) →
    collect_stage_performances fs run_dirs metric_key stage_ranges stage_window
                               stage_performances
    = stage_performances.
Proof.
  induction run_dirs as [|d run_dirs IH]; intros acc Hnone; [done|].
  cbn [collect_stage_performances].
  assert (Hd : contributes fs d metric_key = false) by (apply Hnone; left).
  unfold contributes in Hd.
  pose proof (load_csv_data_truthy fs d (csv_name metric_key)) as Hsame.
  destruct (path_exists fs d (csv_name metric_key)),
           (load_csv_data fs d (csv_name metric_key)) as [steps values];
    cbn in *; rewrite ?Hsame, ?Hd; cbn; apply IH; intros; apply Hnone; by right.
Qed.

Lemma sorted_keys_empty {V} : sorted_keys (∅ : gmap Z V) = [].
Proof. unfold sorted_keys. by rewrite dom_empty_L, elements_empty. Qed.

Lemma analyze_metrics_other_names `{NumPy} fs run_dirs stage_ranges stage_window name ms :
  ∀ res g res' g',
    name ∉ (λ m, mi_name m.2) <$> ms →
    analyze_metrics fs run_dirs stage_ranges stage_window ms res g = Some (res', g') →
    dict_get res' name = dict_get res name.
Proof.
  induction ms as [|[k0 i0] ms IH]; intros res g res' g' Hname Hrun.
  - cbn in Hrun. by inversion Hrun.
  - cbn [analyze_metrics] in Hrun.
    apply M_bind_Some in Hrun as (by_stage & g1 & _ & Hrun).
    cbn in Hname. apply not_elem_of_cons in Hname as [Hne Hname].
    rewrite (IH _ _ _ _ Hname Hrun). by apply dict_get_set_ne.
Qed.

(** On the curriculum path a metric no run has data for still gets an
    entry: the empty dictionary. *)
Lemma analyze_metrics_empty_entry `{NumPy} fs run_dirs stage_ranges stage_window key info ms :
  ∀ res g res' g',
    NoDup ((λ m, mi_name m.2) <$> ms) →
    (key, info) ∈ ms →
    (∀ d, d ∈ run_dirs → contributes fs d key = false) →
    analyze_metrics fs run_dirs stage_ranges stage_window ms res g = Some (res', g') →
    dict_get res' (mi_name info) = Some (PerStage ∅).
Proof.
  induction ms as [|[k0 i0] ms IH]; intros res g res' g' Hnd Hin Hnone Hrun.
  - by apply elem_of_nil in Hin.
  - cbn [analyze_metrics] in Hrun. cbn in Hnd. apply NoDup_cons in Hnd as [Hfresh Hnd].
    apply elem_of_cons in Hin as [Heq|Hin].
    + inversion Heq; subst k0 i0; clear Heq.
      rewrite collect_stage_performances_none in Hrun by done.
      rewrite sorted_keys_empty in Hrun. cbn [combine_stages] in Hrun.
      apply M_bind_Some in Hrun as (by_stage & g1 & Hret & Hrun).
      inversion Hret; subst by_stage g1; clear Hret.
      rewrite (analyze_metrics_other_names _ _ _ _ _ _ _ _ _ _ Hfresh Hrun).
      apply dict_get_set_eq.
    + apply M_bind_Some in Hrun as (by_stage & g1 & _ & Hrun).
      by eapply IH.
Qed.

Lemma metrics_names_NoDup : NoDup ((λ m, mi_name m.2) <$> metrics).
Proof. apply (bool_decide_unpack _). by vm_compute. Qed.

(** C2 on the curriculum path: a metric for which no run contributes data
    is not omitted; the results hold an empty dictionary under its name. *)
Theorem curriculum_path_keeps_empty_entry `{NumPy}
    fs run_dirs stage_window stage_ranges others key info g res g' :
  find_all_stage_ranges fs run_dirs = Some (stage_ranges :: others) →
  (key, info) ∈ metrics →
  (∀ d, d ∈ run_dirs → contributes fs d key = false) →
  analyze_curriculum_aware fs run_dirs stage_window g = Some (res, g') →
  dict_get res (mi_name info) = Some (PerStage ∅).
Proof.
  intros Hfind Hin Hnone Hrun. unfold analyze_curriculum_aware in Hrun.
  apply M_bind_Some in Hrun as (all_stage_ranges & g1 & Hfind' & Hrun).
  rewrite Hfind in Hfind'. inversion Hfind'; subst; clear Hfind'.
  eapply analyze_metrics_empty_entry; eauto using metrics_names_NoDup.
Qed.

Lemma curriculum_path_keeps_empty_entry_witness :
  find_all_stage_ranges stage_only_fs ["run1"] = Some [ {[ 0 := (0, 0) ]} ]
  ∧ contributes stage_only_fs "run1" "Drone__Success" = false
  ∧ analyze_curriculum_aware (H := Concrete.numpy) stage_only_fs ["run1"] 50 1
    = Some (stage_only_results, 1)
  ∧ dict_get stage_only_results "Success Rate" = Some (PerStage ∅).
Proof.
  assert (H1 : find_all_stage_ranges stage_only_fs ["run1"] = Some [ {[ 0 := (0, 0) ]} ])
    by (vm_compute; reflexivity).
  assert (H2 : contributes stage_only_fs "run1" "Drone__Success" = false)
    by (vm_compute; reflexivity).
  assert (H3 : analyze_curriculum_aware (H := Concrete.numpy) stage_only_fs ["run1"] 50 1
               = Some (stage_only_results, 1))
    by (vm_compute; reflexivity).
  split; [exact H1|]. split; [exact H2|]. split; [exact H3|].
  apply (curriculum_path_keeps_empty_entry (H := Concrete.numpy)
           stage_only_fs ["run1"] 50 {[ 0 := (0, 0) ]} []
           "Drone__Success" (MetricInfo "Success Rate" "percentage") 1
           stage_only_results 1 H1).
  - left.
  - intros d Hd. apply list_elem_of_singleton in Hd. by subst d.
  - exact H3.
Defined.

(** The sibling analyses omit such a metric. *)
Lemma collect_final_means_none fs metric_key final_window run_dirs :
  ∀ all_final_values,
    (∀ d, d ∈ run_dirs → contributes fs d metric_key = false) →
    collect_final_means fs run_dirs metric_key final_window all_final_values
    = all_final_values.
Proof.
  induction run_dirs as [|d run_dirs IH]; intros acc Hnone; [done|].
  cbn [collect_final_means].
  assert (Hd : contributes fs d metric_key = false) by (apply Hnone; left).
  unfold contributes in Hd.
  destruct (path_exists fs d (csv_name metric_key)),
           (load_csv_data fs d (csv_name metric_key)) as [steps values];
    cbn in *; rewrite ?Hd; apply IH; intros; apply Hnone; by right.
Qed.

Lemma collect_final_values_none fs metric_key final_window run_dirs :
  ∀ all_final_values,
    (∀ d, d ∈ run_dirs → contributes fs d metric_key = false) →
    collect_final_values fs run_dirs metric_key final_window all_final_values
    = all_final_values.
Proof.
  induction run_dirs as [|d run_dirs IH]; intros acc Hnone; [done|].
  cbn [collect_final_values].
  assert (Hd : contributes fs d metric_key = false) by (apply Hnone; left).
  unfold contributes in Hd.
  destruct (path_exists fs d (csv_name metric_key)),
           (load_csv_data fs d (csv_name metric_key)) as [steps values];
    cbn in *; rewrite ?Hd; apply IH; intros; apply Hnone; by right.
Qed.

Lemma analyze_runs_loop_omits `{NumPy} fs run_dirs final_window name ms :
  ∀ res g res' g',
    (∀ key info, (key, info) ∈ ms → mi_name info = name →
       ∀ d, d ∈ run_dirs → contributes fs d key = false) →
    dict_get res name = None →
    analyze_runs_loop fs run_dirs final_window ms res g = Some (res', g') →
    dict_get res' name = None.
Proof.
  induction ms as [|[k0 i0] ms IH]; intros res g res' g' Hnone Hres Hrun.
  - cbn in Hrun. by inversion Hrun; subst.
  - cbn [analyze_runs_loop] in Hrun.
    assert (Hrest : ∀ key info, (key, info) ∈ ms → mi_name info = name →
                      ∀ d, d ∈ run_dirs → contributes fs d key = false).
    { intros key info Hin. apply Hnone. by right. }
    destruct (truthy (collect_final_means fs run_dirs k0 final_window [])) eqn:Hdata;
      [|by eapply IH].
    apply M_bind_Some in Hrun as (ci & g1 & _ & Hrun).
    eapply IH; [exact Hrest| |exact Hrun].
    rewrite dict_get_set_ne; [done|]. intros Hname.
    rewrite collect_final_means_none in Hdata; [done|].
    apply (Hnone k0 i0); [left|done].
Qed.

Lemma fallback_loop_omits `{NumPy} fs run_dirs final_window name ms :
  ∀ res g res' g',
    (∀ key info, (key, info) ∈ ms → mi_name info = name →
       ∀ d, d ∈ run_dirs → contributes fs d key = false) →
    dict_get res name = None →
    analyze_final_performance_only_loop fs run_dirs final_window ms res g = Some (res', g') →
    dict_get res' name = None.
Proof.
  induction ms as [|[k0 i0] ms IH]; intros res g res' g' Hnone Hres Hrun.
  - cbn in Hrun. by inversion Hrun; subst.
  - cbn [analyze_final_performance_only_loop] in Hrun.
    assert (Hrest : ∀ key info, (key, info) ∈ ms → mi_name info = name →
                      ∀ d, d ∈ run_dirs → contributes fs d key = false).
    { intros key info Hin. apply Hnone. by right. }
    destruct (truthy (collect_final_values fs run_dirs k0 final_window [])) eqn:Hdata;
      [|by eapply IH].
    apply M_bind_Some in Hrun as (ci & g1 & _ & Hrun).
    eapply IH; [exact Hrest| |exact Hrun].
    rewrite dict_get_set_ne; [done|]. intros Hname.
    rewrite collect_final_values_none in Hdata; [done|].
    apply (Hnone k0 i0); [left|done].
Qed.

Lemma metrics_names_injective key info key' info' :
  (key, info) ∈ metrics → (key', info') ∈ metrics →
  mi_name info' = mi_name info → key' = key.
Proof.
  unfold metrics. rewrite !elem_of_cons, !elem_of_nil.
  intros H1 H2 Hname.
  repeat match goal with H : _ ∨ _ |- _ => destruct H end;
    try done; simplify_eq; done.
Qed.

(** [analyze_runs] and the fallback of the curriculum script leave out a
    metric for which no run contributes data. *)
Lemma sibling_analyses_omit_metric_without_data `{NumPy}
    fs run_dirs final_window key info :
  (key, info) ∈ metrics →
  (∀ d, d ∈ run_dirs → contributes fs d key = false) →
  (∀ g res g', analyze_runs fs run_dirs final_window g = Some (res, g') →
               dict_get res (mi_name info) = None)
  ∧ (∀ g res g',
       analyze_final_performance_only fs run_dirs final_window metrics g = Some (res, g') →
       dict_get res (mi_name info) = None).
Proof.
  intros Hin Hnone.
  assert (Hsame : ∀ key' info', (key', info') ∈ metrics → mi_name info' = mi_name info →
                    ∀ d, d ∈ run_dirs → contributes fs d key' = false).
  { intros key' info' Hin' Hname. by rewrite (metrics_names_injective _ _ _ _ Hin Hin' Hname). }
  split; intros g res g' Hrun.
  - eapply analyze_runs_loop_omits; [exact Hsame| |exact Hrun]. done.
  - eapply fallback_loop_omits; [exact Hsame| |exact Hrun]. done.
Qed.

(** The single-contributor interval always reads the first run directory:
    it bootstraps that run's in-stage trailing window when that run has
    samples in the stage, and is [(0.0, 0.0)] otherwise. *)
Lemma single_run_ci_reads_first_run `{NumPy}
    fs run_dir others metric_key stage_ranges stage_window stage_num range g :
  stage_ranges !! stage_num = Some range →
  single_run_ci fs (run_dir :: others) metric_key stage_ranges stage_window stage_num g
  = Some
      (if decide (is_Some
                    (get_stage_performance
                       (load_csv_data fs run_dir (csv_name metric_key)).1
                       (load_csv_data fs run_dir (csv_name metric_key)).2
                       stage_ranges stage_window !! stage_num))
       then bootstrap_ci
              (final_window_values
                 (values_in_range
                    (py_zip (load_csv_data fs run_dir (csv_name metric_key)).1
                            (load_csv_data fs run_dir (csv_name metric_key)).2)
                    range.1 range.2)
                 stage_window)
              default_n_bootstrap default_confidence g
       else ((0 # 1, 0 # 1)%Q, g)).
Proof.
  intros Hrange. unfold single_run_ci. cbn [head].
  unfold mbind, M_bind, raise_if_none, mret, M_ret, draw.
  destruct (load_csv_data fs run_dir (csv_name metric_key)) as [steps values] eqn:E.
  cbn [fst snd].
  destruct (truthy steps && truthy values) eqn:Hdata.
  - case_decide; [|done]. by rewrite Hrange.
  - rewrite decide_False; [done|].
    rewrite get_stage_performance_lookup, Hrange. cbn. unfold stage_entry.
    destruct steps, values; cbn in *; try done; by intros [? ?].
Qed.

(** A stage with a single per-run mean is given [std = 0.0] and [n_runs = 1]. *)
Lemma combine_stage_single_mean `{NumPy}
    fs run_dirs metric_key format stage_ranges stage_window stage_num x g r g' :
  combine_stage fs run_dirs metric_key format stage_ranges stage_window stage_num [x] g
  = Some (r, g') →
  sr_std r = (0 # 1)%Q ∧ sr_n_runs r = 1%nat ∧ sr_mean r = np_mean [x].
Proof.
  unfold combine_stage. cbn [length]. rewrite !decide_False by lia.
  intros Hrun. apply M_bind_Some in Hrun as (ci & g1 & _ & Hrun).
  apply M_bind_Some in Hrun as (step_range & g2 & _ & Hrun).
  by inversion Hrun; subst.
Qed.

(** C3 at the failing input: [runB] alone contributes a mean to stage 1,
    with raw in-stage values 0.5 and 0.7, but the interval reported for
    stage 1 is [(0.0, 0.0)]: the code looks the raw values up in
    [run_dirs[0]], which has no sample in stage 1, and never calls the
    bootstrap. *)
Theorem lone_contributor_is_not_the_first_run `{NumPy} (g : rng) :
  ∃ by_stage others r,
    analyze_curriculum_aware two_run_fs ["runA"; "runB"] 50 g
    = Some (("Success Rate", PerStage by_stage) :: others, g)
    ∧ by_stage !! 1 = Some r
    ∧ sr_n_runs r = 1%nat
    ∧ sr_mean r = (3 # 5)%Q
    ∧ sr_std r = (0 # 1)%Q
    ∧ (sr_ci_lower r, sr_ci_upper r) = ((0 # 1)%Q, (0 # 1)%Q)
    ∧ contributes two_run_fs "runA" "Drone__Success" = true
    ∧ values_in_range
        (py_zip (load_csv_data two_run_fs "runA" "Drone__Success.csv").1
                (load_csv_data two_run_fs "runA" "Drone__Success.csv").2) 2 3
      = []
    ∧ values_in_range
        (py_zip (load_csv_data two_run_fs "runB" "Drone__Success.csv").1
                (load_csv_data two_run_fs "runB" "Drone__Success.csv").2) 2 3
      = [(1 # 2)%Q; (7 # 10)%Q].
Proof.
  do 3 eexists. split; [vm_compute; reflexivity|].
  split; [vm_compute; reflexivity|].
  repeat split; vm_compute; reflexivity.
Qed.

(** Bootstrapping the raw stage-1 values of [runB] would not give [(0, 0)]. *)
Example bootstrap_of_the_lone_contributor :
  (bootstrap_ci (H := Concrete.numpy) [(1 # 2)%Q; (7 # 10)%Q]
                default_n_bootstrap default_confidence 1).1
  = ((1 # 2)%Q, (7 # 10)%Q).
Proof. vm_compute. reflexivity. Qed.

(** * Further properties of the segmenter *)

Lemma write_all_snoc m l e : write_all m (l ++ [e]) = <[e.1 := e.2]> (write_all m l).
Proof. unfold write_all. by rewrite foldl_app. Qed.

(** Reading a key back from a sequence of writes gives the last value
    written under it. *)
Lemma lookup_write_all l : ∀ m k,
  write_all m l !! k
  = match last (filter (λ e, e.1 = k) l) with
    | Some e => Some e.2
    | None => m !! k
    end.
Proof.
  induction l as [|e l IH] using rev_ind; intros m k; [done|].
  rewrite write_all_snoc, filter_app.
  destruct (decide (e.1 = k)) as [<-|Hne].
  - rewrite lookup_insert_eq. rewrite filter_cons_True by done.
    rewrite filter_nil. by rewrite last_snoc.
  - rewrite lookup_insert_ne by done. rewrite filter_cons_False by done.
    rewrite filter_nil, app_nil_r. apply IH.
Qed.

Lemma lookup_write_all_elem l k r : write_all ∅ l !! k = Some r → (k, r) ∈ l.
Proof.
  rewrite lookup_write_all.
  destruct (last (filter (λ e, e.1 = k) l)) as [[k' r']|] eqn:Hlast; [|done].
  intros [= <-]. apply last_Some_elem_of in Hlast.
  apply list_elem_of_filter in Hlast as [Hk Hin]. cbn in Hk. by subst k'.
Qed.

(** The last block closes at [fin] and carries the stage of the last item. *)
Lemma blocks_snoc items : ∀ cur start prev fin,
  ∃ l start',
    blocks cur start prev fin items
    = l ++ [(default cur (last (py_int <$> items.*2)), (start', fin))]
    ∧ (start' = start ∨ start' ∈ items.*1).
Proof.
  induction items as [|[step v] rest IH]; intros cur start prev fin.
  - exists [], start. split; [done|by left].
  - cbn [blocks].
    assert (Hlast : ∀ c, default c (last (py_int <$> ((step, v) :: rest).*2))
                         = default (py_int v) (last (py_int <$> rest.*2))).
    { intros c. cbn [fmap list_fmap snd]. destruct (py_int <$> rest.*2) as [|x xs] eqn:E; [done|].
      rewrite last_cons. by destruct (last (x :: xs)) eqn:E'; [|apply last_None in E']. }
    rewrite Hlast. case_decide as Hid.
    + destruct (IH cur start step fin) as (l & start' & Heq & Hstart).
      exists l, start'. rewrite Heq, <- Hid. split; [done|].
      destruct Hstart as [->|Hin]; [by left|right; by right].
    + destruct (IH (py_int v) step step fin) as (l & start' & Heq & Hstart).
      exists ((cur, (start, prev)) :: l), start'. rewrite Heq. split; [done|].
      right. destruct Hstart as [->|Hin]; [left|by right].
Qed.

(** X1: the segmenter returns the empty mapping exactly when one of its
    two inputs is empty; any scanned sample yields at least one interval. *)
Theorem no_intervals_iff_empty_input stage_steps stage_values :
  find_stage_transitions stage_steps stage_values = Some ∅
  ↔ stage_steps = [] ∨ stage_values = [].
Proof.
  rewrite find_stage_transitions_blocks. split.
  - destruct stage_steps as [|s0 steps']; [by left|].
    destruct stage_values as [|v0 values']; [by right|].
    unfold stage_blocks.
    destruct (blocks_snoc (py_zip steps' values') (py_int v0) s0 s0
                (default s0 (last (s0 :: steps')))) as (l & start' & -> & _).
    rewrite write_all_snoc. intros [= Hempty]. by apply insert_non_empty in Hempty.
  - intros [->| ->]; [done|]. by destruct stage_steps.
Qed.

(** X2: when a stage number comes back after other stages, the mapping
    keeps, under that number, the interval of its last block only; a stage
    number is absent exactly when no block carries it. *)
Theorem revisited_stage_keeps_last_interval stage_steps stage_values :
  ∃ m,
    find_stage_transitions stage_steps stage_values = Some m
    ∧ ∀ id, m !! id
            = snd <$> last (filter (λ e, e.1 = id) (stage_blocks stage_steps stage_values)).
Proof.
  exists (write_all ∅ (stage_blocks stage_steps stage_values)).
  split; [apply find_stage_transitions_blocks|].
  intros id. rewrite lookup_write_all.
  by destruct (last (filter _ _)).
Qed.

Example revisit_overwrites_first_visit :
  stage_blocks revisit_steps revisit_stages = [(0, (0, 1)); (1, (2, 2)); (0, (3, 4))]
  ∧ find_stage_transitions revisit_steps revisit_stages
    = Some (<[1 := (2, 2)]> {[ 0 := (3, 4) ]}).
Proof. split; vm_compute; reflexivity. Qed.

(** X3: with one stage value per step, the stage of the last sample is
    always present and its interval ends at the last step. *)
Theorem last_interval_ends_at_last_step stage_steps stage_values fin v :
  length stage_steps = length stage_values →
  last stage_steps = Some fin →
  last stage_values = Some v →
  ∃ m start,
    find_stage_transitions stage_steps stage_values = Some m
    ∧ m !! py_int v = Some (start, fin)
    ∧ start ∈ stage_steps.
Proof.
  intros Hlen Hfin Hv.
  destruct stage_steps as [|s0 steps']; [done|].
  destruct stage_values as [|v0 values']; [done|].
  rewrite find_stage_transitions_blocks. unfold stage_blocks.
  rewrite Hfin. cbn [default].
  destruct (blocks_snoc (py_zip steps' values') (py_int v0) s0 s0 fin)
    as (l & start' & Heq & Hstart).
  exists (write_all ∅ (blocks (py_int v0) s0 s0 fin (py_zip steps' values'))), start'.
  split; [done|]. cbn in Hlen.
  assert (Hfst : (py_zip steps' values').*1 = steps') by (apply fst_zip; lia).
  assert (Hsnd : (py_zip steps' values').*2 = values') by (apply snd_zip; lia).
  split.
  - rewrite Heq, write_all_snoc. cbn [fst snd]. rewrite Hsnd.
    assert (Hid : default (py_int v0) (last (py_int <$> values')) = py_int v).
    { destruct values' as [|v1 values'']; [by inversion Hv|].
      rewrite last_cons in Hv. rewrite fmap_last.
      destruct (last (v1 :: values'')) eqn:E; [|by apply last_None in E].
      cbn in *. by inversion Hv. }
    rewrite Hid. apply lookup_insert_eq.
  - rewrite Hfst in Hstart. destruct Hstart as [->|Hin]; [left|by right].
Qed.

Lemma last_interval_ends_at_last_step_witness :
  length revisit_steps = length revisit_stages
  ∧ last revisit_steps = Some 4
  ∧ last revisit_stages = Some (inject_Z 0)
  ∧ ∃ m start,
      find_stage_transitions revisit_steps revisit_stages = Some m
      ∧ m !! py_int (inject_Z 0) = Some (start, 4)
      ∧ start ∈ revisit_steps.
Proof.
  assert (H1 : length revisit_steps = length revisit_stages) by reflexivity.
  assert (H2 : last revisit_steps = Some 4) by reflexivity.
  assert (H3 : last revisit_stages = Some (inject_Z 0)) by reflexivity.
  split; [exact H1|]. split; [exact H2|]. split; [exact H3|].
  exact (last_interval_ends_at_last_step revisit_steps revisit_stages 4 (inject_Z 0)
           H1 H2 H3).
Defined.

Lemma blocks_endpoints (P : Z → Prop) items : ∀ cur start prev fin,
  P start → P prev → P fin → Forall P items.*1 →
  Forall (λ e, P e.2.1 ∧ P e.2.2) (blocks cur start prev fin items).
Proof.
  induction items as [|[step v] rest IH]; intros cur start prev fin Hs Hp Hf Hall.
  - by repeat constructor.
  - cbn [blocks]. cbn in Hall. apply Forall_cons in Hall as [Hstep Hall].
    case_decide; [by apply IH|]. constructor; [done|by apply IH].
Qed.

Lemma blocks_nonempty_ranges items : ∀ cur start prev fin,
  start ≤ prev →
  StronglySorted Z.le (prev :: items.*1) →
  fin = default prev (last items.*1) →
  Forall (λ e, e.2.1 ≤ e.2.2) (blocks cur start prev fin items).
Proof.
  induction items as [|[step v] rest IH]; intros cur start prev fin Hsp Hsorted Hfin.
  - cbn in *. subst. by repeat constructor.
  - cbn [blocks]. apply StronglySorted_inv in Hsorted as [Hsorted Hall].
    assert (Hstep : prev ≤ step) by (by apply Forall_cons in Hall as [? _]).
    rewrite last_step_cons in Hfin.
    case_decide.
    + apply IH; [lia|done|done].
    + constructor; [done|]. apply IH; [lia|done|done].
Qed.

(** X4: with one stage value per step and steps in non-decreasing order,
    every interval of the result runs from an observed step to a later or
    equal observed step, revisits included. *)
Theorem intervals_span_observed_steps stage_steps stage_values :
  length stage_steps = length stage_values →
  StronglySorted Z.le stage_steps →
  ∃ m,
    find_stage_transitions stage_steps stage_values = Some m
    ∧ ∀ id a b, m !! id = Some (a, b) → a ≤ b ∧ a ∈ stage_steps ∧ b ∈ stage_steps.
Proof.
  intros Hlen Hsorted.
  exists (write_all ∅ (stage_blocks stage_steps stage_values)).
  split; [apply find_stage_transitions_blocks|].
  intros id a b Hm. apply lookup_write_all_elem in Hm.
  destruct stage_steps as [|s0 steps']; [by apply elem_of_nil in Hm|].
  destruct stage_values as [|v0 values']; [by apply elem_of_nil in Hm|].
  unfold stage_blocks in Hm. cbn in Hlen.
  assert (Hfst : (py_zip steps' values').*1 = steps') by (apply fst_zip; lia).
  assert (Hfin : default s0 (last (s0 :: steps')) = default s0 (last steps')).
  { destruct steps' as [|s1 steps'']; [done|].
    rewrite last_cons. by destruct (last (s1 :: steps'')) eqn:E; [|apply last_None in E]. }
  split.
  - pose proof (blocks_nonempty_ranges (py_zip steps' values') (py_int v0) s0 s0
                  (default s0 (last (s0 :: steps')))) as Hle.
    rewrite Hfst in Hle. specialize (Hle ltac:(lia) Hsorted Hfin).
    by apply (proj1 (Forall_forall _ _) Hle (id, (a, b))).
  - pose proof (blocks_endpoints (λ s, s ∈ s0 :: steps') (py_zip steps' values')
                  (py_int v0) s0 s0 (default s0 (last (s0 :: steps')))) as Hin.
    rewrite Hfst in Hin.
    assert (Hlast : default s0 (last (s0 :: steps')) ∈ s0 :: steps').
    { destruct (last (s0 :: steps')) eqn:E; [|by apply last_None in E].
      cbn. by apply last_Some_elem_of. }
    specialize (Hin ltac:(left) ltac:(left) Hlast).
    assert (Hall : Forall (λ s, s ∈ s0 :: steps') steps').
    { apply Forall_forall. intros s Hs. by right. }
    specialize (Hin Hall).
    by apply (proj1 (Forall_forall _ _) Hin (id, (a, b))).
Qed.

Lemma intervals_span_observed_steps_witness :
  length repeated_step_steps = length repeated_step_stages
  ∧ StronglySorted Z.le repeated_step_steps
  ∧ ∃ m,
      find_stage_transitions repeated_step_steps repeated_step_stages = Some m
      ∧ ∀ id a b, m !! id = Some (a, b) →
                  a ≤ b ∧ a ∈ repeated_step_steps ∧ b ∈ repeated_step_steps.
Proof.
  assert (H1 : length repeated_step_steps = length repeated_step_stages) by reflexivity.
  assert (H2 : StronglySorted Z.le repeated_step_steps).
  { repeat constructor; lia. }
  split; [exact H1|]. split; [exact H2|].
  exact (intervals_span_observed_steps repeated_step_steps repeated_step_stages H1 H2).
Defined.

(** * Further properties of the aggregator *)

Lemma final_window_values_nonneg stage_values stage_window :
  0 ≤ stage_window → stage_values ≠ [] →
  final_window_values stage_values stage_window ≠ [].
Proof.
  intros Hw Hne. unfold final_window_values. case_decide as Hlt; [|done].
  destruct (decide (stage_window = 0)) as [->|Hpos].
  - by rewrite py_slice_from_zero.
  - rewrite py_slice_from_last by lia. intros Hnil.
    apply (f_equal length) in Hnil. rewrite length_drop in Hnil. cbn in Hnil. lia.
Qed.

Lemma stage_entry_Some `{NumPy} steps values stage_window range p :
  stage_entry steps values stage_window range = Some p →
  values_in_range (py_zip steps values) range.1 range.2 ≠ []
  ∧ final_window_values (values_in_range (py_zip steps values) range.1 range.2)
                        stage_window ≠ []
  ∧ p = stage_stats
          (final_window_values (values_in_range (py_zip steps values) range.1 range.2)
                               stage_window)
          (length (values_in_range (py_zip steps values) range.1 range.2)) range.
Proof.
  unfold stage_entry.
  destruct (values_in_range _ _ _) as [|x xs] eqn:E; [done|].
  destruct (final_window_values (x :: xs) stage_window) as [|y ys] eqn:E'; [done|].
  by intros [= <-].
Qed.

(** X5: a stage is reported exactly when it has an interval and at least
    one sample whose step lies in it (never a zero-filled entry), and the
    entry records the number of in-interval samples, not the window size,
    and the interval itself.  Holds for every window that is not negative. *)
Theorem stage_reported_iff_it_has_samples `{NumPy}
    steps values stage_ranges stage_window stage_num :
  0 ≤ stage_window →
  (is_Some (get_stage_performance steps values stage_ranges stage_window !! stage_num)
   ↔ ∃ range, stage_ranges !! stage_num = Some range
              ∧ values_in_range (py_zip steps values) range.1 range.2 ≠ [])
  ∧ ∀ p, get_stage_performance steps values stage_ranges stage_window !! stage_num = Some p →
         ∃ range, stage_ranges !! stage_num = Some range
                  ∧ sp_step_range p = range
                  ∧ sp_n_steps p
                    = length (values_in_range (py_zip steps values) range.1 range.2).
Proof.
  intros Hw. rewrite get_stage_performance_lookup. split; [split|].
  - intros [p Hp]. destruct (stage_ranges !! stage_num) as [range|]; [|done].
    exists range. split; [done|]. cbn in Hp. by apply stage_entry_Some in Hp as [? _].
  - intros (range & -> & Hne). cbn. unfold stage_entry.
    destruct (values_in_range _ _ _) as [|x xs] eqn:E; [done|].
    pose proof (final_window_values_nonneg (x :: xs) stage_window Hw ltac:(done)) as Hfin.
    by destruct (final_window_values (x :: xs) stage_window).
  - intros p Hp. destruct (stage_ranges !! stage_num) as [range|]; [|done].
    exists range. split; [done|]. cbn in Hp.
    apply stage_entry_Some in Hp as (_ & _ & ->). done.
Qed.

Lemma stage_reported_iff_it_has_samples_witness :
  0 ≤ 2
  ∧ (is_Some (get_stage_performance (H := Concrete.numpy)
                sharp_tail_steps sharp_tail_values sharp_tail_ranges 2 !! 0)
     ↔ ∃ range, sharp_tail_ranges !! 0 = Some range
                ∧ values_in_range (py_zip sharp_tail_steps sharp_tail_values)
                                  range.1 range.2 ≠ [])
  ∧ ∀ p, get_stage_performance (H := Concrete.numpy)
           sharp_tail_steps sharp_tail_values sharp_tail_ranges 2 !! 0 = Some p →
         ∃ range, sharp_tail_ranges !! 0 = Some range
                  ∧ sp_step_range p = range
                  ∧ sp_n_steps p
                    = length (values_in_range (py_zip sharp_tail_steps sharp_tail_values)
                                              range.1 range.2).
Proof.
  assert (H1 : 0 ≤ 2) by lia.
  split; [exact H1|].
  exact (stage_reported_iff_it_has_samples (H := Concrete.numpy)
           sharp_tail_steps sharp_tail_values sharp_tail_ranges 2 0 H1).
Defined.

(** [l[d:]] for a positive [d] drops the first [d] elements. *)
Lemma py_slice_from_pos {A} (l : list A) (d : Z) :
  0 < d → py_slice_from l d = drop (Z.to_nat d) l.
Proof.
  intros Hd. unfold py_slice_from.
  destruct (Z.ltb_spec d 0) as [?|_]; [lia|].
  destruct (Z.le_gt_cases d (Z.of_nat (length l))) as [Hle|Hgt].
  - by rewrite Z.min_l by lia.
  - rewrite Z.min_r by lia. rewrite Nat2Z.id.
    rewrite !drop_ge; [done|lia|lia].
Qed.

(** X7: a negative window does not fail: each stage loses its first
    [-stage_window] samples, and a stage with no more samples than that
    is left out although it has data. *)
Theorem negative_window_drops_leading_samples `{NumPy}
    steps values stage_ranges stage_window stage_num range :
  stage_window < 0 →
  stage_ranges !! stage_num = Some range →
  get_stage_performance steps values stage_ranges stage_window !! stage_num
  = match drop (Z.to_nat (- stage_window))
               (values_in_range (py_zip steps values) range.1 range.2) with
    | [] => None
    | final_values =>
        Some (StagePerf (np_mean final_values) (np_std final_values)
                        (np_min final_values) (np_max final_values)
                        (length (values_in_range (py_zip steps values) range.1 range.2))
                        range)
    end.
Proof.
  intros Hw Hrange. rewrite get_stage_performance_lookup, Hrange. cbn.
  unfold stage_entry.
  destruct (values_in_range (py_zip steps values) range.1 range.2) as [|x xs] eqn:E.
  - by rewrite drop_nil.
  - unfold final_window_values. rewrite decide_True by lia.
    rewrite py_slice_from_pos by lia.
    by destruct (drop (Z.to_nat (- stage_window)) (x :: xs)).
Qed.

Lemma negative_window_drops_leading_samples_witness :
  -1 < 0
  ∧ two_sample_ranges !! 0 = Some (0, 1)
  ∧ get_stage_performance (H := Concrete.numpy)
      two_sample_steps two_sample_values two_sample_ranges (-1) !! 0
    = match drop (Z.to_nat (- -1))
                 (values_in_range (py_zip two_sample_steps two_sample_values) 0 1) with
      | [] => None
      | final_values =>
          Some (StagePerf (np_mean final_values) (np_std (H := Concrete.numpy) final_values)
                          (np_min final_values) (np_max final_values)
                          (length (values_in_range
                                     (py_zip two_sample_steps two_sample_values) 0 1))
                          (0, 1))
      end.
Proof.
  assert (H1 : -1 < 0) by lia.
  assert (H2 : two_sample_ranges !! 0 = Some (0, 1)) by reflexivity.
  split; [exact H1|]. split; [exact H2|].
  exact (negative_window_drops_leading_samples (H := Concrete.numpy)
           two_sample_steps two_sample_values two_sample_ranges (-1) 0 (0, 1) H1 H2).
Defined.

Example negative_window_example :
  sp_mean <$> (get_stage_performance (H := Concrete.numpy)
                 two_sample_steps two_sample_values two_sample_ranges (-1) !! 0)
  = Some (3 # 1)%Q
  ∧ get_stage_performance (H := Concrete.numpy)
      two_sample_steps two_sample_values two_sample_ranges (-2) !! 0 = None.
Proof. split; vm_compute; reflexivity. Qed.

(** * Further properties of the analyses *)

Lemma get_stage_performance_no_series `{NumPy} steps values stage_ranges stage_window k :
  truthy steps && truthy values = false →
  get_stage_performance steps values stage_ranges stage_window !! k = None.
Proof.
  intros Hempty. rewrite get_stage_performance_lookup.
  destruct (stage_ranges !! k) as [range|]; [|done]. cbn. unfold stage_entry.
  by destruct steps, values.
Qed.

Lemma add_run_means_lookup run_stage_perf stage_performances k :
  add_run_means run_stage_perf stage_performances !! k
  = match stage_performances !! k, sp_mean <$> run_stage_perf !! k with
    | Some old, Some m => Some (old ++ [m])
    | Some old, None => Some old
    | None, Some m => Some [m]
    | None, None => None
    end.
Proof.
  unfold add_run_means. rewrite lookup_union_with, lookup_fmap.
  by destruct (stage_performances !! k), (run_stage_perf !! k).
Qed.

(** What the loop over the runs leaves under a stage: the means of the
    runs that have samples in the stage, appended in run order. *)
Lemma collect_stage_performances_lookup `{NumPy}
    fs metric_key stage_ranges stage_window k run_dirs :
  ∀ stage_performances,
    collect_stage_performances fs run_dirs metric_key stage_ranges stage_window
                               stage_performances !! k
    = match stage_performances !! k,
            per_run_means fs run_dirs metric_key stage_ranges stage_window k with
      | o, [] => o
      | None, l => Some l
      | Some old, l => Some (old ++ l)
      end.
Proof.
  induction run_dirs as [|d run_dirs IH]; intros acc.
  - cbn. by destruct (acc !! k).
  - cbn [collect_stage_performances]. rewrite IH. clear IH.
    unfold per_run_means. cbn [omap list_omap]. fold (@omap list _).
    set (rest := omap _ run_dirs).
    assert (Hd : run_stage_mean fs metric_key stage_ranges stage_window k d
                 = sp_mean <$> (get_stage_performance
                                  (load_csv_data fs d (csv_name metric_key)).1
                                  (load_csv_data fs d (csv_name metric_key)).2
                                  stage_ranges stage_window !! k)) by done.
    rewrite Hd. clear Hd.
    destruct (load_csv_data fs d (csv_name metric_key)) as [steps values] eqn:Hload.
    cbn [fst snd].
    destruct (path_exists fs d (csv_name metric_key)) eqn:Hexists.
    + destruct (truthy steps && truthy values) eqn:Hdata.
      * rewrite add_run_means_lookup.
        destruct (acc !! k) as [old|],
                 (get_stage_performance steps values stage_ranges stage_window !! k)
                 as [p|]; cbn; destruct rest; cbn; rewrite <- ?app_assoc; done.
      * by rewrite get_stage_performance_no_series.
    + assert (Hnone : truthy steps && truthy values = false).
      { unfold load_csv_data, path_exists in *.
        destruct (read_file fs d (csv_name metric_key)); [|by inversion Hload].
        by rewrite bool_decide_eq_false in Hexists; destruct Hexists. }
      by rewrite get_stage_performance_no_series.
Qed.

(** One stage of one metric: the combination never raises once the stage
    has an interval and there is a first run directory. *)
Lemma combine_stage_result `{NumPy}
    fs d others metric_key format stage_ranges stage_window k range l g :
  stage_ranges !! k = Some range →
  ∃ ci g',
    combine_stage fs (d :: others) metric_key format stage_ranges stage_window k l g
    = Some (StageResult (np_mean l)
                        (if decide (1 < length l)%nat then np_std l else (0 # 1)%Q)
                        ci.1 ci.2 format (length l) range, g')
    ∧ ((1 < length l)%nat →
         (ci, g') = bootstrap_ci l default_n_bootstrap default_confidence g)
    ∧ ((length l ≤ 1)%nat →
         single_run_ci fs (d :: others) metric_key stage_ranges stage_window k g
         = Some (ci, g')).
Proof.
  intros Hrange. unfold combine_stage.
  destruct (decide (1 < length l)%nat) as [Hmany|Hone].
  - destruct (bootstrap_ci l default_n_bootstrap default_confidence g) as [ci g'] eqn:Hci.
    exists ci, g'. split; [|split; [done|lia]].
    unfold mbind, M_bind, draw, raise_if_none, mret, M_ret. by rewrite Hci, Hrange.
  - rewrite (single_run_ci_reads_first_run fs d others metric_key stage_ranges
               stage_window k range g Hrange).
    set (out := if decide _ then _ else _). destruct out as [ci g'] eqn:Hout.
    exists ci, g'. split; [|split; [lia|done]].
    unfold mbind, M_bind, raise_if_none, mret, M_ret.
    rewrite (single_run_ci_reads_first_run fs d others metric_key stage_ranges
               stage_window k range g Hrange).
    fold out. by rewrite Hout, Hrange.
Qed.

(** The loop over the sorted stage numbers: it never raises, leaves other
    keys alone, and stores under each stage the combination of that
    stage's means. *)
Lemma combine_stages_result `{NumPy}
    fs d others metric_key format stage_ranges stage_window stage_performances keys :
  ∀ by_stage g,
    (∀ k, k ∈ keys → ∃ l, stage_performances !! k = Some l ∧ l ≠ []
                          ∧ is_Some (stage_ranges !! k)) →
    ∃ by_stage' g',
      combine_stages fs (d :: others) metric_key format stage_ranges stage_window
                     stage_performances keys by_stage g
      = Some (by_stage', g')
      ∧ (∀ k, k ∉ keys → by_stage' !! k = by_stage !! k)
      ∧ (∀ k, k ∈ keys →
           ∃ l r g0 g1,
             stage_performances !! k = Some l
             ∧ combine_stage fs (d :: others) metric_key format stage_ranges stage_window
                             k l g0 = Some (r, g1)
             ∧ by_stage' !! k = Some r).
Proof.
  induction keys as [|k0 keys IH]; intros by_stage g Hkeys.
  - exists by_stage, g. split; [done|]. split; [done|]. intros k Hk. by apply elem_of_nil in Hk.
  - destruct (Hkeys k0 ltac:(left)) as (l0 & Hl0 & Hne0 & [range0 Hr0]).
    destruct (combine_stage_result fs d others metric_key format stage_ranges stage_window
                k0 range0 l0 g Hr0) as (ci & g1 & Hstage & _).
    destruct (IH (<[k0 := StageResult (np_mean l0)
                           (if decide (1 < length l0)%nat then np_std l0 else (0 # 1)%Q)
                           ci.1 ci.2 format (length l0) range0]> by_stage) g1)
      as (by_stage' & g' & Hrun & Hother & Hin).
    { intros k Hk. apply Hkeys. by right. }
    exists by_stage', g'. split; [|split].
    + cbn [combine_stages]. unfold mbind at 1, M_bind at 1, raise_if_none at 1.
      rewrite Hl0. destruct l0 as [|x l0]; [done|]. cbn [truthy].
      unfold mbind, M_bind in *. rewrite Hstage. exact Hrun.
    + intros k Hk. apply not_elem_of_cons in Hk as [Hne Hk].
      rewrite (Hother k Hk). by apply lookup_insert_ne.
    + intros k Hk. destruct (decide (k ∈ keys)) as [Hrest|Hrest]; [by apply Hin|].
      apply elem_of_cons in Hk as [->|Hk]; [|done].
      eexists l0, _, g, g1. split; [done|]. split; [exact Hstage|].
      rewrite (Hother k0 Hrest). apply lookup_insert_eq.
Qed.

Lemma sorted_keys_elem_of {V} (d : gmap Z V) k : k ∈ sorted_keys d ↔ is_Some (d !! k).
Proof.
  unfold sorted_keys. rewrite merge_sort_Permutation, elem_of_elements. apply elem_of_dom.
Qed.

(** The stages collected for a metric all have an interval, a non-empty
    list of means, and come from at least one run. *)
Lemma collected_stage_is_sound `{NumPy} fs run_dirs metric_key stage_ranges stage_window k l :
  collect_stage_performances fs run_dirs metric_key stage_ranges stage_window ∅ !! k
  = Some l →
  l = per_run_means fs run_dirs metric_key stage_ranges stage_window k
  ∧ l ≠ [] ∧ is_Some (stage_ranges !! k) ∧ run_dirs ≠ [].
Proof.
  rewrite collect_stage_performances_lookup, lookup_empty.
  destruct (per_run_means fs run_dirs metric_key stage_ranges stage_window k)
    as [|m ms] eqn:Hmeans; [done|].
  intros [= <-]. split; [done|]. split; [done|].
  assert (Hin : m ∈ per_run_means fs run_dirs metric_key stage_ranges stage_window k)
    by (rewrite Hmeans; left).
  unfold per_run_means in Hin. apply list_elem_of_omap in Hin as (d & Hd & Hm).
  split; [|by destruct run_dirs; [apply elem_of_nil in Hd|]].
  unfold run_stage_mean in Hm. rewrite get_stage_performance_lookup in Hm.
  by destruct (stage_ranges !! k).
Qed.

Lemma metric_stage_table `{NumPy} fs run_dirs metric_key format stage_ranges stage_window g :
  ∃ by_stage g',
    combine_stages fs run_dirs metric_key format stage_ranges stage_window
      (collect_stage_performances fs run_dirs metric_key stage_ranges stage_window ∅)
      (sorted_keys
         (collect_stage_performances fs run_dirs metric_key stage_ranges stage_window ∅))
      ∅ g
    = Some (by_stage, g')
    ∧ stage_table_ok fs run_dirs metric_key format stage_ranges stage_window by_stage.
Proof.
  set (sp := collect_stage_performances fs run_dirs metric_key stage_ranges stage_window ∅).
  destruct run_dirs as [|d others].
  - exists ∅, g. split; [by subst sp; cbn; rewrite sorted_keys_empty|].
    intros k. by rewrite lookup_empty.
  - destruct (combine_stages_result fs d others metric_key format stage_ranges stage_window
                sp (sorted_keys sp) ∅ g) as (by_stage & g' & Hrun & Hother & Hin).
    { intros k [l Hl]%sorted_keys_elem_of. exists l. split; [done|].
      by apply collected_stage_is_sound in Hl as (_ & ? & ? & _). }
    exists by_stage, g'. split; [done|]. intros k.
    destruct (decide (k ∈ sorted_keys sp)) as [Hk|Hk].
    + destruct (Hin k Hk) as (l & r & g0 & g1 & Hl & Hstage & ->).
      apply collected_stage_is_sound in Hl as (-> & Hne & _). split; [done|]. by exists g0, g1.
    + rewrite (Hother k Hk), lookup_empty.
      rewrite sorted_keys_elem_of in Hk. apply eq_None_not_Some in Hk.
      subst sp. rewrite collect_stage_performances_lookup, lookup_empty in Hk.
      by destruct (per_run_means _ _ _ _ _ _).
Qed.

Lemma dict_set_keys {V} (d : list (string * V)) k v :
  (dict_set d k v).*1 = if decide (k ∈ d.*1) then d.*1 else d.*1 ++ [k].
Proof.
  induction d as [|[k' v'] d IH]; cbn.
  - rewrite decide_False; [done|]. apply not_elem_of_nil.
  - destruct (decide (k' = k)) as [->|Hne]; cbn.
    + rewrite decide_True; [done|left].
    + rewrite IH. destruct (decide (k ∈ d.*1)) as [Hin|Hin].
      * rewrite decide_True; [done|by right].
      * rewrite decide_False; [done|]. intros [?|?]%elem_of_cons; congruence.
Qed.

(** The loop over the metrics on the curriculum path: it never raises,
    keeps the entries of other names, and files a sound per-stage table
    under each metric's display name. *)
Lemma analyze_metrics_result `{NumPy} fs run_dirs stage_ranges stage_window ms :
  ∀ res g,
    ∃ res' g',
      analyze_metrics fs run_dirs stage_ranges stage_window ms res g = Some (res', g')
      ∧ res'.*1
        = foldl (λ ks m, if decide (mi_name m.2 ∈ ks) then ks else ks ++ [mi_name m.2])
                res.*1 ms
      ∧ (NoDup ((λ m, mi_name m.2) <$> ms) →
         ∀ key info, (key, info) ∈ ms →
           ∃ by_stage,
             dict_get res' (mi_name info) = Some (PerStage by_stage)
             ∧ stage_table_ok fs run_dirs key (mi_format info) stage_ranges stage_window
                              by_stage).
Proof.
  induction ms as [|[k0 i0] ms IH]; intros res g.
  - exists res, g. split; [done|]. split; [done|]. intros _ key info Hin.
    by apply elem_of_nil in Hin.
  - destruct (metric_stage_table fs run_dirs k0 (mi_format i0) stage_ranges stage_window g)
      as (by0 & g1 & Hby & Hok).
    destruct (IH (dict_set res (mi_name i0) (PerStage by0)) g1)
      as (res' & g' & Hrun & Hkeys & Hentries).
    assert (Hstep : analyze_metrics fs run_dirs stage_ranges stage_window ((k0, i0) :: ms) res g
                    = Some (res', g')).
    { cbn [analyze_metrics]. unfold mbind, M_bind in *. by rewrite Hby. }
    exists res', g'. split; [exact Hstep|]. split.
    + rewrite Hkeys, dict_set_keys. done.
    + intros Hnd key info Hin. cbn in Hnd. apply NoDup_cons in Hnd as [Hfresh Hnd].
      apply elem_of_cons in Hin as [Heq|Hin]; [|by apply Hentries].
      inversion Heq; subst key info; clear Heq. exists by0. split; [|done].
      rewrite (analyze_metrics_other_names _ _ _ _ _ _ _ _ _ _ Hfresh Hrun).
      apply dict_get_set_eq.
Qed.

(** The stage structure is that of the first run, in argument order, that
    has a non-empty stage series; the search never raises. *)
Lemma find_all_stage_ranges_first fs run_dirs :
  find_all_stage_ranges fs run_dirs
  = Some match List.find (has_stage_series fs) run_dirs with
         | Some d =>
             [write_all ∅
                (stage_blocks (load_csv_data fs d "Stage__Current.csv").1
                              (load_csv_data fs d "Stage__Current.csv").2)]
         | None => []
         end.
Proof.
  induction run_dirs as [|d run_dirs IH]; [done|].
  cbn [find_all_stage_ranges List.find]. unfold has_stage_series at 1.
  destruct (path_exists fs d "Stage__Current.csv"); [|exact IH].
  destruct (load_csv_data fs d "Stage__Current.csv") as [steps values] eqn:Hload.
  cbn [fst snd andb].
  destruct (truthy steps && truthy values); [|exact IH].
  rewrite find_stage_transitions_blocks. by rewrite Hload.
Qed.

Lemma fallback_loop_total `{NumPy} fs run_dirs final_window ms :
  ∀ res g, is_Some (analyze_final_performance_only_loop fs run_dirs final_window ms res g).
Proof.
  induction ms as [|[k0 i0] ms IH]; intros res g; [done|].
  cbn [analyze_final_performance_only_loop].
  destruct (truthy _); [|apply IH].
  unfold mbind, M_bind, draw. destruct (bootstrap_ci _ _ _ g). apply IH.
Qed.

Lemma find_app_first {A} (f : A → bool) (before : list A) (d : A) (after : list A) :
  (∀ x, x ∈ before → f x = false) → f d = true →
  List.find f (before ++ d :: after) = Some d.
Proof.
  intros Hbefore Hd. induction before as [|x before IH]; cbn.
  - by rewrite Hd.
  - rewrite (Hbefore x) by left. apply IH. intros y Hy. apply Hbefore. by right.
Qed.

(** X8: the stage structure used for every run is the segmentation of the
    first run directory, in argument order, whose stage file exists and
    is non-empty; runs before it without such a file and all runs after it
    have no influence, and the search never raises. *)
Theorem stage_structure_comes_from_first_run fs before d after :
  (∀ x, x ∈ before → has_stage_series fs x = false) →
  has_stage_series fs d = true →
  find_all_stage_ranges fs (before ++ d :: after) = Some [stage_ranges_of fs d]
  ∧ find_stage_transitions (load_csv_data fs d "Stage__Current.csv").1
                           (load_csv_data fs d "Stage__Current.csv").2
    = Some (stage_ranges_of fs d).
Proof.
  intros Hbefore Hd. split; [|apply find_stage_transitions_blocks].
  rewrite find_all_stage_ranges_first. by rewrite (find_app_first _ _ _ _ Hbefore Hd).
Qed.

Lemma stage_structure_comes_from_first_run_witness :
  (∀ x, x ∈ ["runB"] → has_stage_series two_run_fs x = false)
  ∧ has_stage_series two_run_fs "runA" = true
  ∧ find_all_stage_ranges two_run_fs (["runB"] ++ "runA" :: [])
    = Some [stage_ranges_of two_run_fs "runA"]
  ∧ find_stage_transitions (load_csv_data two_run_fs "runA" "Stage__Current.csv").1
                           (load_csv_data two_run_fs "runA" "Stage__Current.csv").2
    = Some (stage_ranges_of two_run_fs "runA").
Proof.
  assert (H1 : ∀ x, x ∈ ["runB"] → has_stage_series two_run_fs x = false).
  { intros x Hx. apply list_elem_of_singleton in Hx. subst x. vm_compute. reflexivity. }
  assert (H2 : has_stage_series two_run_fs "runA" = true) by (vm_compute; reflexivity).
  split; [exact H1|]. split; [exact H2|].
  exact (stage_structure_comes_from_first_run two_run_fs ["runB"] "runA" [] H1 H2).
Defined.

Lemma analyze_curriculum_aware_total `{NumPy} fs run_dirs stage_window g :
  ∃ res g',
    analyze_curriculum_aware fs run_dirs stage_window g = Some (res, g')
    ∧ (is_Some (List.find (has_stage_series fs) run_dirs) →
       res.*1 = ["Success Rate"; "Collision Rate"; "Cumulative Reward";
                 "Episode Length"; "Min Distance to Goal"]).
Proof.
  unfold analyze_curriculum_aware. unfold mbind at 1, M_bind at 1, raise_if_none at 1.
  rewrite find_all_stage_ranges_first.
  destruct (List.find (has_stage_series fs) run_dirs) as [d|].
  - destruct (analyze_metrics_result fs run_dirs
                (write_all ∅ (stage_blocks (load_csv_data fs d "Stage__Current.csv").1
                                           (load_csv_data fs d "Stage__Current.csv").2))
                stage_window metrics [] g) as (res & g' & Hrun & Hkeys & _).
    exists res, g'. split; [exact Hrun|]. intros _. rewrite Hkeys. by vm_compute.
  - destruct (fallback_loop_total fs run_dirs stage_window metrics [] g) as [[res g'] Hrun].
    exists res, g'. split; [exact Hrun|]. by intros [? ?].
Qed.

(** X9: on CSV files with integer steps and finite values, no subscript
    of [analyze_curriculum_aware] and of the functions it calls raises
    [IndexError] or [KeyError]: [run_dirs[0]], [stage_ranges[stage_num]],
    [stage_performances[stage_num]], [all_stage_ranges[0]] and the
    indexing of the stage scan are defined whenever they are reached, so
    the analysis returns a result.  (A NaN or infinite stage value is
    outside these files; [int()] raises on it.)  When some run has a
    stage series the result lists all five metrics, in the order of the
    metrics table, whether or not they have data. *)
Theorem curriculum_analysis_never_raises `{NumPy} fs run_dirs stage_window g :
  ∃ res g',
    analyze_curriculum_aware fs run_dirs stage_window g = Some (res, g')
    ∧ (is_Some (List.find (has_stage_series fs) run_dirs) →
       res.*1 = ["Success Rate"; "Collision Rate"; "Cumulative Reward";
                 "Episode Length"; "Min Distance to Goal"]).
Proof. apply analyze_curriculum_aware_total. Qed.

Lemma length_omap_le {A B} (f : A → option B) (l : list A) :
  (length (omap f l) ≤ length l)%nat.
Proof. induction l as [|x l IH]; cbn; [done|]. destruct (f x); cbn; lia. Qed.

Lemma per_run_means_stage `{NumPy} fs run_dirs metric_key stage_ranges stage_window k :
  per_run_means fs run_dirs metric_key stage_ranges stage_window k ≠ [] →
  is_Some (stage_ranges !! k) ∧ run_dirs ≠ [].
Proof.
  intros Hne.
  destruct (per_run_means fs run_dirs metric_key stage_ranges stage_window k)
    as [|m ms] eqn:Hmeans; [done|].
  assert (Hin : m ∈ per_run_means fs run_dirs metric_key stage_ranges stage_window k)
    by (rewrite Hmeans; left).
  unfold per_run_means in Hin. apply list_elem_of_omap in Hin as (d & Hd & Hm).
  split; [|by destruct run_dirs; [apply elem_of_nil in Hd|]].
  unfold run_stage_mean in Hm. rewrite get_stage_performance_lookup in Hm.
  by destruct (stage_ranges !! k).
Qed.

(** The table of a metric, stage by stage, in terms of the per-run means
    [get_stage_performance] returns. *)
Lemma metric_table_from_means `{NumPy} fs run_dirs stage_window g d key info :
  List.find (has_stage_series fs) run_dirs = Some d →
  (key, info) ∈ metrics →
  ∃ res g' by_stage,
    analyze_curriculum_aware fs run_dirs stage_window g = Some (res, g')
    ∧ dict_get res (mi_name info) = Some (PerStage by_stage)
    ∧ ∀ k,
        (by_stage !! k = None
         ↔ per_run_means fs run_dirs key (stage_ranges_of fs d) stage_window k = [])
        ∧ ∀ r, by_stage !! k = Some r →
            (1 ≤ sr_n_runs r ≤ length run_dirs)%nat
            ∧ ∃ range,
                stage_ranges_of fs d !! k = Some range
                ∧ combined_from_means
                    (per_run_means fs run_dirs key (stage_ranges_of fs d) stage_window k)
                    (mi_format info) range r.
Proof.
  intros Hfind Hin.
  set (sr := stage_ranges_of fs d).
  destruct (analyze_metrics_result fs run_dirs sr stage_window metrics [] g)
    as (res & g' & Hrun & _ & Hentries).
  destruct (Hentries metrics_names_NoDup key info Hin) as (by_stage & Hget & Hok).
  exists res, g', by_stage. split; [|split; [exact Hget|]].
  { unfold analyze_curriculum_aware. unfold mbind at 1, M_bind at 1, raise_if_none at 1.
    rewrite find_all_stage_ranges_first, Hfind. exact Hrun. }
  intros k. specialize (Hok k).
  set (means := per_run_means fs run_dirs key sr stage_window k) in *.
  destruct (by_stage !! k) as [r0|] eqn:Hk.
  - destruct Hok as (Hne & g0 & g1 & Hstage). split; [by split|].
    intros r [= <-].
    destruct (per_run_means_stage fs run_dirs key sr stage_window k Hne)
      as [[range Hrange] Hdirs].
    destruct run_dirs as [|d0 others]; [done|].
    destruct (combine_stage_result fs d0 others key (mi_format info) sr stage_window
                k range means g0 Hrange) as (ci & g2 & Heq & Hmany & _).
    rewrite Hstage in Heq. inversion Heq; subst r0 g1; clear Heq.
    unfold combined_from_means.
    cbn [sr_mean sr_std sr_ci_lower sr_ci_upper sr_format sr_n_runs sr_step_range].
    pose proof (length_omap_le
                  (run_stage_mean fs key sr stage_window k) (d0 :: others)) as Hlen.
    fold (per_run_means fs (d0 :: others) key sr stage_window k) in Hlen. fold means in Hlen.
    clearbody means.
    assert (Hpos : (1 ≤ length means)%nat) by (destruct means; [done|cbn; lia]).
    split; [lia|]. exists range. split; [done|].
    split; [done|]. split; [done|]. split; [done|]. split; [done|]. split.
    + intros Hone. destruct (decide (1 < length means)%nat); [lia|done].
    + intros Hgt. split; [destruct (decide (1 < length means)%nat); [done|lia]|].
      exists g0. rewrite <- (Hmany Hgt). by destruct ci.
  - split; [done|]. by intros r [=].
Qed.


Lemma run_stage_mean_converged `{NumPy} fs metric_key stage_ranges stage_window k d :
  0 ≤ stage_window →
  run_stage_mean fs metric_key stage_ranges stage_window k d
  = run_converged_mean fs metric_key stage_ranges stage_window k d.
Proof.
  intros Hw. unfold run_stage_mean, run_converged_mean, run_stage_samples.
  rewrite get_stage_performance_lookup.
  destruct (stage_ranges !! k) as [range|]; [|done]. cbn [mbind option_bind].
  unfold stage_entry.
  destruct (values_in_range _ _ _) as [|x xs] eqn:E; [done|].
  pose proof (final_window_values_nonneg (x :: xs) stage_window Hw) as Hne.
  destruct (final_window_values (x :: xs) stage_window) as [|y ys]; [by destruct Hne|done].
Qed.

Lemma per_run_means_converged `{NumPy} fs run_dirs metric_key stage_ranges stage_window k :
  0 ≤ stage_window →
  per_run_means fs run_dirs metric_key stage_ranges stage_window k
  = converged_means fs run_dirs metric_key stage_ranges stage_window k.
Proof.
  intros Hw. unfold per_run_means, converged_means.
  induction run_dirs as [|d run_dirs IH]; [done|].
  cbn [omap list_omap]. by rewrite run_stage_mean_converged, IH.
Qed.

Lemma converged_means_nil fs run_dirs metric_key stage_ranges stage_window k :
  converged_means fs run_dirs metric_key stage_ranges stage_window k = []
  ↔ ∀ run_dir, run_dir ∈ run_dirs →
      run_stage_samples fs metric_key stage_ranges k run_dir = [].
Proof.
  unfold converged_means. induction run_dirs as [|d run_dirs IH].
  - split; [|done]. intros _ x Hx. by apply elem_of_nil in Hx.
  - cbn [omap list_omap]. unfold run_converged_mean at 1.
    destruct (run_stage_samples fs metric_key stage_ranges k d) as [|x xs] eqn:E.
    + rewrite IH. split.
      * intros Hall x [->|Hx]%elem_of_cons; [done|by apply Hall].
      * intros Hall x Hx. apply Hall. by right.
    + split; [done|]. intros Hall. specialize (Hall d). rewrite E in Hall.
      discriminate Hall. by left.
Qed.

(** X10: on the curriculum path and for a window that is not negative,
    the table of a metric has a stage exactly when some run has a sample
    of the metric whose step lies in the interval of that stage.  The
    entry's mean is the mean, over the runs that have such samples, of
    the mean of each run's trailing window; [n_runs] is the number of
    those runs (at least 1, at most the number of runs), [step_range] the
    stage's interval; with two or more such runs [std] is the population
    standard deviation of their means and the interval is a bootstrap
    over them, with one [std] is 0. *)
Theorem curriculum_stage_entries `{NumPy} fs run_dirs stage_window g d key info :
  0 ≤ stage_window →
  List.find (has_stage_series fs) run_dirs = Some d →
  (key, info) ∈ metrics →
  ∃ res g' by_stage,
    analyze_curriculum_aware fs run_dirs stage_window g = Some (res, g')
    ∧ dict_get res (mi_name info) = Some (PerStage by_stage)
    ∧ ∀ k,
        (is_Some (by_stage !! k)
         ↔ ∃ run_dir, run_dir ∈ run_dirs
                      ∧ run_stage_samples fs key (stage_ranges_of fs d) k run_dir ≠ [])
        ∧ ∀ r, by_stage !! k = Some r →
            (1 ≤ sr_n_runs r ≤ length run_dirs)%nat
            ∧ ∃ range,
                stage_ranges_of fs d !! k = Some range
                ∧ combined_from_means
                    (converged_means fs run_dirs key (stage_ranges_of fs d) stage_window k)
                    (mi_format info) range r.
Proof.
  intros Hw Hfind Hin.
  destruct (metric_table_from_means fs run_dirs stage_window g d key info Hfind Hin)
    as (res & g' & by_stage & Hrun & Hget & Htable).
  exists res, g', by_stage. split; [done|]. split; [done|].
  intros k. destruct (Htable k) as [Hnone Hsome].
  rewrite per_run_means_converged in Hnone, Hsome by done.
  split; [|exact Hsome].
  rewrite converged_means_nil in Hnone.
  split.
  - intros Hk.
    destruct (decide (Exists (λ run_dir,
                run_stage_samples fs key (stage_ranges_of fs d) k run_dir ≠ []) run_dirs))
      as [Hex|Hno].
    + apply Exists_exists in Hex as (x & Hx & Hne). by exists x.
    + exfalso. apply (is_Some_None (A := stage_result)). rewrite <- (proj2 Hnone); [done|].
      intros x Hx.
      destruct (run_stage_samples fs key (stage_ranges_of fs d) k x) eqn:E; [done|].
      destruct Hno. apply Exists_exists. exists x. by rewrite E.
  - intros (x & Hx & Hne). destruct (by_stage !! k) eqn:E; [done|].
    destruct Hne. by apply (proj1 Hnone).
Qed.

Lemma curriculum_stage_entries_witness :
  0 ≤ 50
  ∧ List.find (has_stage_series two_run_fs) ["runA"; "runB"] = Some "runA"
  ∧ ("Drone__Success", MetricInfo "Success Rate" "percentage") ∈ metrics
  ∧ ∃ res g' by_stage,
      analyze_curriculum_aware (H := Concrete.numpy) two_run_fs ["runA"; "runB"] 50 1
      = Some (res, g')
      ∧ dict_get res "Success Rate" = Some (PerStage by_stage)
      ∧ ∀ k,
          (is_Some (by_stage !! k)
           ↔ ∃ run_dir, run_dir ∈ ["runA"; "runB"]
                        ∧ run_stage_samples two_run_fs "Drone__Success"
                            (stage_ranges_of two_run_fs "runA") k run_dir ≠ [])
          ∧ ∀ r, by_stage !! k = Some r →
              (1 ≤ sr_n_runs r ≤ length ["runA"; "runB"])%nat
              ∧ ∃ range,
                  stage_ranges_of two_run_fs "runA" !! k = Some range
                  ∧ combined_from_means (H := Concrete.numpy)
                      (converged_means two_run_fs ["runA"; "runB"]
                         "Drone__Success" (stage_ranges_of two_run_fs "runA") 50 k)
                      "percentage" range r.
Proof.
  assert (H0 : 0 ≤ 50) by lia.
  assert (H1 : List.find (has_stage_series two_run_fs) ["runA"; "runB"] = Some "runA")
    by (vm_compute; reflexivity).
  assert (H2 : ("Drone__Success", MetricInfo "Success Rate" "percentage") ∈ metrics)
    by left.
  split; [exact H0|]. split; [exact H1|]. split; [exact H2|].
  exact (curriculum_stage_entries (H := Concrete.numpy) two_run_fs ["runA"; "runB"] 50 1
           "runA" "Drone__Success" (MetricInfo "Success Rate" "percentage") H0 H1 H2).
Defined.

(** The hypothesis on the window is needed: with a window of -5 the
    two stage-1 samples of [runB] are dropped and the table is empty. *)
Example negative_window_empties_the_table :
  run_stage_samples two_run_fs "Drone__Success" (stage_ranges_of two_run_fs "runA") 1 "runB"
  = [(1 # 2)%Q; (7 # 10)%Q]
  ∧ ∃ res g',
      analyze_curriculum_aware (H := Concrete.numpy) two_run_fs ["runA"; "runB"] (-5) 1
      = Some (res, g')
      ∧ dict_get res "Success Rate" = Some (PerStage ∅).
Proof.
  split; [vm_compute; reflexivity|].
  do 2 eexists. split; [vm_compute; reflexivity|]. vm_compute. reflexivity.
Qed.

(** ** The final-window fallback *)

Lemma collect_final_values_pooled fs metric_key final_window run_dirs :
  ∀ all_final_values,
    collect_final_values fs run_dirs metric_key final_window all_final_values
    = all_final_values ++ pooled_final_values fs run_dirs metric_key final_window.
Proof.
  unfold pooled_final_values, contributing_runs.
  induction run_dirs as [|d run_dirs IH]; intros acc; [by rewrite app_nil_r|].
  cbn [collect_final_values List.filter]. rewrite IH. clear IH.
  assert (Hd : (if path_exists fs d (csv_name metric_key)
                then let '(_, values) := load_csv_data fs d (csv_name metric_key) in
                     if truthy values
                     then acc ++ (if decide (final_window ≤ Z.of_nat (length values))
                                  then py_slice_from values (- final_window) else values)
                     else acc
                else acc)
               = acc ++ (if contributes fs d metric_key
                         then tail_window (run_values fs metric_key d) final_window
                         else [])).
  { unfold contributes, run_values, tail_window.
    destruct (path_exists fs d (csv_name metric_key)); [|by rewrite app_nil_r].
    destruct (load_csv_data fs d (csv_name metric_key)) as [steps values].
    cbn [fst snd andb]. destruct (truthy values); [done|by rewrite app_nil_r]. }
  rewrite Hd. destruct (contributes fs d metric_key).
  - cbn [fmap list_fmap concat]. by rewrite <- app_assoc.
  - by rewrite app_nil_r.
Qed.

Lemma fallback_loop_other_names `{NumPy} fs run_dirs final_window name ms :
  ∀ res g res' g',
    name ∉ (λ m, mi_name m.2) <$> ms →
    analyze_final_performance_only_loop fs run_dirs final_window ms res g = Some (res', g') →
    dict_get res' name = dict_get res name.
Proof.
  induction ms as [|[k0 i0] ms IH]; intros res g res' g' Hname Hrun.
  - cbn in Hrun. by inversion Hrun.
  - cbn [analyze_final_performance_only_loop] in Hrun.
    cbn in Hname. apply not_elem_of_cons in Hname as [Hne Hname].
    destruct (truthy _); [|by eapply IH].
    apply M_bind_Some in Hrun as (ci & g1 & _ & Hrun).
    rewrite (IH _ _ _ _ Hname Hrun). by apply dict_get_set_ne.
Qed.

(** The loop of the fallback: it never raises; a metric with pooled values
    gets a flat entry built from them, a metric without keeps whatever
    was filed under its name. *)
Lemma fallback_loop_result `{NumPy} fs run_dirs final_window ms :
  ∀ res g,
    ∃ res' g',
      analyze_final_performance_only_loop fs run_dirs final_window ms res g = Some (res', g')
      ∧ (NoDup ((λ m, mi_name m.2) <$> ms) →
         ∀ key info, (key, info) ∈ ms →
           (pooled_final_values fs run_dirs key final_window = [] →
            dict_get res' (mi_name info) = dict_get res (mi_name info))
           ∧ (pooled_final_values fs run_dirs key final_window ≠ [] →
              ∃ g0,
                dict_get res' (mi_name info)
                = Some (Flat (AggregateResult
                                (np_mean (pooled_final_values fs run_dirs key final_window))
                                (np_std (pooled_final_values fs run_dirs key final_window))
                                (bootstrap_ci
                                   (pooled_final_values fs run_dirs key final_window)
                                   default_n_bootstrap default_confidence g0).1.1
                                (bootstrap_ci
                                   (pooled_final_values fs run_dirs key final_window)
                                   default_n_bootstrap default_confidence g0).1.2
                                (mi_format info) (length run_dirs))))).
Proof.
  induction ms as [|[k0 i0] ms IH]; intros res g.
  - exists res, g. split; [done|]. intros _ key info Hin. by apply elem_of_nil in Hin.
  - cbn [analyze_final_performance_only_loop].
    rewrite collect_final_values_pooled, app_nil_l.
    set (pooled0 := pooled_final_values fs run_dirs k0 final_window).
    destruct (truthy pooled0) eqn:Hdata.
    + unfold mbind, M_bind, draw.
      destruct (bootstrap_ci pooled0 default_n_bootstrap default_confidence g)
        as [ci g1] eqn:Hci.
      destruct (IH (dict_set res (mi_name i0)
                      (Flat (AggregateResult (np_mean pooled0) (np_std pooled0)
                               ci.1 ci.2 (mi_format i0) (length run_dirs)))) g1)
        as (res' & g' & Hrun & Hentries).
      exists res', g'. split; [exact Hrun|].
      intros Hnd key info Hin. cbn in Hnd. apply NoDup_cons in Hnd as [Hfresh Hnd].
      apply elem_of_cons in Hin as [Heq|Hin].
      * inversion Heq; subst key info; clear Heq. fold pooled0. split.
        -- intros Hnil. by rewrite Hnil in Hdata.
        -- intros _. exists g. rewrite Hci. cbn [fst snd].
           rewrite (fallback_loop_other_names fs run_dirs final_window _ ms _ g1 res' g'
                      Hfresh Hrun).
           apply dict_get_set_eq.
      * destruct (Hentries Hnd key info Hin) as [Hnone Hsome]. split; [|exact Hsome].
        intros Hnil. rewrite (Hnone Hnil). apply dict_get_set_ne.
        intros Heq. apply Hfresh. rewrite Heq.
        apply list_elem_of_fmap. by exists (key, info).
    + destruct (IH res g) as (res' & g' & Hrun & Hentries).
      exists res', g'. split; [exact Hrun|].
      intros Hnd key info Hin. cbn in Hnd. apply NoDup_cons in Hnd as [Hfresh Hnd].
      apply elem_of_cons in Hin as [Heq|Hin]; [|by apply Hentries].
      inversion Heq; subst key info; clear Heq. fold pooled0. split.
      * intros _.
        by apply (fallback_loop_other_names fs run_dirs final_window _ ms res g res' g').
      * intros Hne. by destruct pooled0.
Qed.

(** X11: the fallback never raises.  A metric is reported exactly when the
    pooled trailing windows of the contributing runs are non-empty; its
    mean and standard deviation are taken over those pooled raw values
    (not over per-run means), the interval is a bootstrap over them, and
    [n_runs] is the number of run directories given, whether or not each
    of them has the metric. *)
Theorem fallback_entries `{NumPy} fs run_dirs final_window g key info :
  (key, info) ∈ metrics →
  ∃ res g',
    analyze_final_performance_only fs run_dirs final_window metrics g = Some (res, g')
    ∧ (pooled_final_values fs run_dirs key final_window = [] →
       dict_get res (mi_name info) = None)
    ∧ (pooled_final_values fs run_dirs key final_window ≠ [] →
       ∃ r g0,
         dict_get res (mi_name info) = Some (Flat r)
         ∧ ar_mean r = np_mean (pooled_final_values fs run_dirs key final_window)
         ∧ ar_std r = np_std (pooled_final_values fs run_dirs key final_window)
         ∧ (ar_ci_lower r, ar_ci_upper r)
           = (bootstrap_ci (pooled_final_values fs run_dirs key final_window)
                           default_n_bootstrap default_confidence g0).1
         ∧ ar_format r = mi_format info
         ∧ ar_n_runs r = length run_dirs).
Proof.
  intros Hin. unfold analyze_final_performance_only.
  destruct (fallback_loop_result fs run_dirs final_window metrics [] g)
    as (res & g' & Hrun & Hentries).
  exists res, g'. split; [exact Hrun|].
  destruct (Hentries metrics_names_NoDup key info Hin) as [Hnone Hsome].
  split; [exact Hnone|]. intros Hne. destruct (Hsome Hne) as [g0 Hget].
  eexists _, g0. split; [exact Hget|]. cbn.
  by destruct (bootstrap_ci _ default_n_bootstrap default_confidence g0) as [[lo hi] ?].
Qed.

Lemma fallback_entries_witness :
  ("Drone__Success", MetricInfo "Success Rate" "percentage") ∈ metrics
  ∧ ∃ res g',
      analyze_final_performance_only (H := Concrete.numpy) two_run_fs
        ["runA"; "runB"; "runC"] 1 metrics 1 = Some (res, g')
      ∧ (pooled_final_values two_run_fs ["runA"; "runB"; "runC"] "Drone__Success" 1 = [] →
         dict_get res "Success Rate" = None)
      ∧ (pooled_final_values two_run_fs ["runA"; "runB"; "runC"] "Drone__Success" 1 ≠ [] →
         ∃ r g0,
           dict_get res "Success Rate" = Some (Flat r)
           ∧ ar_mean r
             = np_mean (pooled_final_values two_run_fs ["runA"; "runB"; "runC"]
                          "Drone__Success" 1)
           ∧ ar_std r
             = np_std (H := Concrete.numpy)
                 (pooled_final_values two_run_fs ["runA"; "runB"; "runC"]
                    "Drone__Success" 1)
           ∧ (ar_ci_lower r, ar_ci_upper r)
             = (bootstrap_ci (H := Concrete.numpy)
                  (pooled_final_values two_run_fs ["runA"; "runB"; "runC"]
                     "Drone__Success" 1)
                  default_n_bootstrap default_confidence g0).1
           ∧ ar_format r = "percentage"
           ∧ ar_n_runs r = length ["runA"; "runB"; "runC"]).
Proof.
  assert (H1 : ("Drone__Success", MetricInfo "Success Rate" "percentage") ∈ metrics)
    by left.
  split; [exact H1|].
  exact (fallback_entries (H := Concrete.numpy) two_run_fs ["runA"; "runB"; "runC"] 1 1
           "Drone__Success" (MetricInfo "Success Rate" "percentage") H1).
Defined.

(** Two runs contribute one trailing value each, a third run directory has
    no data, and [n_runs] is 3. *)
Example fallback_counts_every_directory :
  pooled_final_values two_run_fs ["runA"; "runB"; "runC"] "Drone__Success" 1
  = [(1 # 10)%Q; (7 # 10)%Q]
  ∧ ∃ r g',
      analyze_final_performance_only (H := Concrete.numpy) two_run_fs
        ["runA"; "runB"; "runC"] 1 metrics 1 = Some ([("Success Rate", Flat r)], g')
      ∧ ar_n_runs r = 3%nat ∧ ar_mean r = (2 # 5)%Q.
Proof.
  split; [by vm_compute|]. do 2 eexists. split; [vm_compute; reflexivity|]. by split.
Qed.

(** ** The entry point of the curriculum script *)

(** * The summary and the whole of main *)

Lemma dict_get_elem_of {V} (d : list (string * V)) k v :
  NoDup d.*1 → (k, v) ∈ d → dict_get d k = Some v.
Proof.
  induction d as [|[k' v'] d IH]; intros Hnd Hin; [by apply elem_of_nil in Hin|].
  cbn in Hnd. apply NoDup_cons in Hnd as [Hfresh Hnd]. cbn [dict_get].
  apply elem_of_cons in Hin as [[= -> ->]|Hin].
  - by rewrite decide_True.
  - rewrite decide_False; [by apply IH|]. intros ->. apply Hfresh.
    apply list_elem_of_fmap. by exists (k, v).
Qed.

Lemma dict_get_Some_elem_of {V} (d : list (string * V)) k v :
  dict_get d k = Some v → (k, v) ∈ d.
Proof.
  induction d as [|[k' v'] d IH]; [done|]. cbn [dict_get].
  case_decide as Hk; [intros [= ->]; subst; left|intros Hget; right; by apply IH].
Qed.

(** ** Flat entries in the per-stage branch *)

Lemma all_stages_flat res :
  res ≠ [] → Forall (λ kv, ∃ r, kv.2 = Flat r) res →
  Render.all_stages res = Render.KStr <$> Render.flat_keys.
Proof.
  assert (Hfix : ∀ res, Forall (λ kv : string * metric_entry, ∃ r, kv.2 = Flat r) res →
            foldl (λ stages (kv : string * metric_entry),
                     if isinstance_dict kv.2
                     then list_union stages (Render.entry_keys kv.2) else stages)
                  (Render.KStr <$> Render.flat_keys) res
            = Render.KStr <$> Render.flat_keys).
  { clear res. intros res. induction 1 as [|[k e] res [r Hr] Hall IH]; [done|].
    cbn in Hr. subst e. cbn [foldl]. exact IH. }
  intros Hne Hall. destruct res as [|[k e] res]; [done|].
  apply Forall_cons in Hall as [[r Hr] Hall]. cbn in Hr. subst e.
  unfold Render.all_stages. cbn [foldl]. by apply Hfix.
Qed.

Lemma flat_results_do_not_render res :
  res ≠ [] → Forall (λ kv, ∃ r, kv.2 = Flat r) res →
  Render.generate_curriculum_summary res true = None.
Proof.
  intros Hne Hall. unfold Render.generate_curriculum_summary, Render.text_summary.
  rewrite (all_stages_flat res Hne Hall).
  destruct res as [|[k e] res]; [done|].
  apply Forall_cons in Hall as [[r Hr] Hall]. cbn in Hr. subst e.
  cbn [truthy]. reflexivity.
Qed.

(** ** Per-stage tables in the per-stage branch *)

Lemma py_sorted_ints (ints : list Z) :
  Render.py_sorted (Render.KInt <$> ints) = Some (Render.KInt <$> merge_sort Z.le ints).
Proof.
  unfold Render.py_sorted.
  assert (omap Render.key_int (Render.KInt <$> ints) = ints) as ->
    by (induction ints as [|n ints IH]; [done|]; cbn; by rewrite IH).
  assert (omap Render.key_str (Render.KInt <$> ints) = []) as ->
    by (induction ints as [|n ints IH]; [done|]; cbn; by rewrite IH).
  by destruct ints.
Qed.

Lemma int_keys_fmap (keys : list Render.key) :
  Forall (λ k, ∃ n, k = Render.KInt n) keys → ∃ ints, keys = Render.KInt <$> ints.
Proof.
  induction 1 as [|k keys [n ->] _ [ints ->]]; [by exists []|]. by exists (n :: ints).
Qed.

Lemma all_stages_per_stage res :
  Forall (λ kv, ∃ by_stage, kv.2 = PerStage by_stage) res →
  Forall (λ k, ∃ n, k = Render.KInt n) (Render.all_stages res).
Proof.
  unfold Render.all_stages. generalize (@nil Render.key) (Forall_nil_2 (λ k : Render.key, ∃ n, k = Render.KInt n)).
  intros acc Hacc Hall. revert acc Hacc.
  induction Hall as [|[name e] res [t Ht] Hall IH]; intros acc Hacc; [done|].
  cbn in Ht. subst e. cbn [foldl]. apply IH.
  cbn [isinstance_dict snd]. apply Forall_list_union; [done|].
  cbn [Render.entry_keys]. apply Forall_fmap, Forall_forall. intros n _. by exists n.
Qed.

Lemma stage_rows_per_stage n res :
  Forall (λ kv, ∃ by_stage, kv.2 = PerStage by_stage) res →
  is_Some (Render.stage_rows (Render.KInt n) res).
Proof.
  induction 1 as [|[name e] res [t Ht] Hall [rows IH]]; [by eexists|].
  cbn in Ht. subst e. cbn [Render.stage_rows Render.entry_get].
  destruct (t !! n) as [r|]; cbn; rewrite IH; by eexists.
Qed.

Lemma stage_sections_per_stage ints res :
  Forall (λ kv, ∃ by_stage, kv.2 = PerStage by_stage) res →
  is_Some (Render.stage_sections (Render.KInt <$> ints) res).
Proof.
  intros Hall. induction ints as [|n ints [sections IH]]; [by eexists|].
  cbn [fmap list_fmap Render.stage_sections].
  destruct (stage_rows_per_stage n res Hall) as [rows ->]. cbn.
  change (list_fmap Z Render.key Render.KInt ints) with (Render.KInt <$> ints).
  rewrite IH. by eexists.
Qed.

Lemma stage_result_eqb_refl r : Render.stage_result_eqb r r = true.
Proof.
  unfold Render.stage_result_eqb.
  rewrite !(proj2 (Qeq_bool_iff _ _) (Qeq_refl _)), !bool_decide_eq_true_2; done.
Qed.

(** The highest stage of a table that is not empty, with its entry, which
    the search of lines 324-329 finds again. *)
Lemma highest_stage_of_table (by_stage : gmap Z stage_result) :
  by_stage ≠ ∅ →
  ∃ m r,
    Render.py_max (Render.entry_keys (PerStage by_stage)) = Some (Render.KInt m)
    ∧ by_stage !! m = Some r
    ∧ is_Some (Render.find_stage (PerStage by_stage) (Render.VStage r)).
Proof.
  intros Hne. unfold Render.py_max. cbn [Render.entry_keys].
  rewrite py_sorted_ints. cbn [mbind option_bind].
  assert (sorted_keys by_stage ≠ []) as Hkeys.
  { intros Hnil. apply Hne. apply map_eq. intros k. rewrite lookup_empty.
    apply eq_None_not_Some. rewrite <- sorted_keys_elem_of, Hnil. apply not_elem_of_nil. }
  assert (merge_sort Z.le (sorted_keys by_stage) ≠ []) as Hsorted.
  { intros Hnil. apply Hkeys. apply Permutation_nil_r.
    rewrite <- Hnil. by rewrite merge_sort_Permutation. }
  destruct (last (merge_sort Z.le (sorted_keys by_stage))) as [m|] eqn:Hlast;
    [|by apply last_None in Hlast].
  assert (m ∈ sorted_keys by_stage) as Hm.
  { rewrite <- (merge_sort_Permutation Z.le (sorted_keys by_stage)).
    apply last_Some_elem_of in Hlast. done. }
  apply sorted_keys_elem_of in Hm as Hsome. destruct Hsome as [r Hr].
  exists m, r. split; [by rewrite fmap_last, Hlast|]. split; [done|].
  unfold Render.find_stage. cbn [Render.entry_keys].
  destruct (List.find _ _) as [k|] eqn:Hfind; [by eexists|].
  exfalso.
  assert (In (Render.KInt m) (Render.KInt <$> sorted_keys by_stage)) as Hin
    by (apply list_elem_of_In, list_elem_of_fmap; by exists m).
  pose proof (find_none _ _ Hfind (Render.KInt m) Hin) as Hno.
  cbn [Render.entry_get] in Hno. rewrite Hr in Hno. cbn in Hno.
  by rewrite stage_result_eqb_refl in Hno.
Qed.

Lemma truthy_entry_per_stage (by_stage : gmap Z stage_result) :
  Render.truthy_entry (PerStage by_stage) = true → by_stage ≠ ∅.
Proof.
  intros Htrue ->. unfold Render.truthy_entry in Htrue. cbn [Render.entry_keys] in Htrue.
  unfold sorted_keys in Htrue. rewrite dom_empty_L, elements_empty in Htrue. done.
Qed.

Section per_stage_results.

Variable res0 : results.
Hypothesis res0_keys : NoDup res0.*1.
Hypothesis res0_tables : Forall (λ kv, ∃ by_stage, kv.2 = PerStage by_stage) res0.

Lemma final_stage_data_per_stage res :
  (∀ kv, kv ∈ res → kv ∈ res0) →
  ∀ acc, Forall (Render.final_item_ok res0) acc →
    ∃ final, Render.final_stage_data res acc = Some final ∧ Forall (Render.final_item_ok res0) final.
Proof.
  induction res as [|[name e] res IH]; intros Hsub acc Hacc; [by exists acc|].
  assert ((name, e) ∈ res0) as Hin by (apply Hsub; left).
  destruct (proj1 (Forall_forall _ _) res0_tables _ Hin) as [t Ht]. cbn in Ht. subst e.
  assert (∀ kv, kv ∈ res → kv ∈ res0) as Hsub' by (intros kv Hkv; apply Hsub; by right).
  cbn [Render.final_stage_data isinstance_dict andb].
  destruct (Render.truthy_entry (PerStage t)) eqn:Htruthy; [|by apply IH].
  destruct (highest_stage_of_table t (truthy_entry_per_stage t Htruthy))
    as (m & r & Hmax & Hr & Hfind).
  rewrite Hmax. cbn [mbind option_bind Render.entry_get]. rewrite Hr. cbn.
  apply IH; [done|]. apply dict_set_Forall; [done|].
  exists t, r. split; [by apply dict_get_elem_of|done].
Qed.

Lemma final_rows_per_stage final :
  Forall (Render.final_item_ok res0) final → is_Some (Render.final_rows res0 final).
Proof.
  induction 1 as [|[name v] final (t & r & Hget & Hv & [k Hfind]) _ [rows IH]];
    [by eexists|].
  cbn in Hget, Hv. subst v. cbn [Render.final_rows Render.stage_fields].
  cbn [mbind option_bind]. rewrite Hget. cbn [mbind option_bind]. rewrite Hfind.
  cbn [mbind option_bind]. rewrite IH. by eexists.
Qed.

Lemma latex_stage_rows_per_stage res :
  (∀ kv, kv ∈ res → kv ∈ res0) → is_Some (Render.latex_stage_rows res).
Proof.
  induction res as [|[name e] res IH]; intros Hsub; [by eexists|].
  assert ((name, e) ∈ res0) as Hin by (apply Hsub; left).
  destruct (proj1 (Forall_forall _ _) res0_tables _ Hin) as [t Ht]. cbn in Ht. subst e.
  destruct IH as [rows IH]; [intros kv Hkv; apply Hsub; by right|].
  cbn [Render.latex_stage_rows isinstance_dict andb].
  destruct (Render.truthy_entry (PerStage t)) eqn:Htruthy; [|by eexists].
  destruct (highest_stage_of_table t (truthy_entry_per_stage t Htruthy))
    as (m & r & Hmax & Hr & Hfind).
  rewrite Hmax. cbn [mbind option_bind Render.entry_get]. rewrite Hr. cbn.
  rewrite IH. by eexists.
Qed.

(** Per-stage tables are rendered by the per-stage branch. *)
Lemma per_stage_results_render :
  is_Some (Render.generate_curriculum_summary res0 true).
Proof.
  unfold Render.generate_curriculum_summary, Render.text_summary, Render.latex_table.
  destruct (int_keys_fmap _ (all_stages_per_stage res0 res0_tables)) as [ints ->].
  rewrite py_sorted_ints. cbn [mbind option_bind].
  destruct (stage_sections_per_stage (merge_sort Z.le ints) res0 res0_tables)
    as [sections ->].
  destruct (final_stage_data_per_stage res0 (λ kv Hkv, Hkv) [] (Forall_nil_2 _))
    as (final & -> & Hfinal).
  cbn [mbind option_bind].
  destruct (final_rows_per_stage final Hfinal) as [rows ->].
  destruct (latex_stage_rows_per_stage res0 (λ kv Hkv, Hkv)) as [latex ->].
  destruct (truthy res0); cbn; by eexists.
Qed.

End per_stage_results.

(** Per-stage tables make the final-window branch raise. *)
Lemma per_stage_results_do_not_render_flat res :
  Forall (λ kv, ∃ by_stage, kv.2 = PerStage by_stage) res →
  res ≠ [] → Render.generate_curriculum_summary res false = None.
Proof.
  intros Htables Hne. destruct res as [|[name e] res]; [done|].
  apply Forall_cons in Htables as [[t Ht] _]. cbn in Ht. subst e. reflexivity.
Qed.

(** ** The results each path hands to the summary *)

Lemma fallback_loop_no_data `{NumPy} fs run_dirs final_window ms :
  ∀ res g,
    (∀ key info, (key, info) ∈ ms →
       pooled_final_values fs run_dirs key final_window = []) →
    analyze_final_performance_only_loop fs run_dirs final_window ms res g = Some (res, g).
Proof.
  induction ms as [|[k0 i0] ms IH]; intros res g Hnone; [done|].
  cbn [analyze_final_performance_only_loop].
  rewrite collect_final_values_pooled, app_nil_l.
  rewrite (Hnone k0 i0) by left. cbn [truthy].
  apply IH. intros key info Hin. apply (Hnone key info). by right.
Qed.

Lemma curriculum_results_are_tables `{NumPy} fs run_dirs stage_ranges stage_window g res g' :
  analyze_metrics fs run_dirs stage_ranges stage_window metrics [] g = Some (res, g') →
  NoDup res.*1
  ∧ Forall (λ kv, ∃ by_stage, kv.2 = PerStage by_stage) res
  ∧ res ≠ [].
Proof.
  intros Hrun.
  destruct (analyze_metrics_result fs run_dirs stage_ranges stage_window metrics [] g)
    as (res0 & g0 & Hrun0 & Hkeys & Hentries).
  rewrite Hrun in Hrun0. inversion Hrun0; subst res0 g0; clear Hrun0.
  assert (res.*1 = (λ m : string * metric_info, mi_name m.2) <$> metrics) as Hnames
    by (rewrite Hkeys; by vm_compute).
  assert (NoDup res.*1) as Hnd by (rewrite Hnames; apply metrics_names_NoDup).
  split; [done|]. split.
  - apply Forall_forall. intros [name e] Hin.
    assert (name ∈ res.*1) as Hname
      by (apply list_elem_of_fmap; by exists (name, e)).
    rewrite Hnames in Hname. apply list_elem_of_fmap in Hname as ([key info] & -> & Hm).
    destruct (Hentries metrics_names_NoDup key info Hm) as (by_stage & Hget & _).
    pose proof (dict_get_elem_of res _ e Hnd Hin) as Hget'. cbn [snd] in Hget'.
    rewrite Hget' in Hget. exists by_stage. by inversion Hget.
  - intros ->. done.
Qed.

Lemma per_stage_flag res :
  NoDup res.*1 →
  Forall (λ kv, ∃ by_stage, kv.2 = PerStage by_stage) res →
  is_curriculum_aware res = true
  ↔ ∃ name by_stage, dict_get res name = Some (PerStage by_stage) ∧ (1 < size by_stage)%nat.
Proof.
  intros Hnd Hall. unfold is_curriculum_aware. rewrite existsb_exists. split.
  - intros ([name e] & Hin%list_elem_of_In & Htest). cbn in Htest.
    destruct (proj1 (Forall_forall _ _) Hall _ Hin) as [t Ht]. cbn in Ht. subst e.
    exists name, t. split; [by apply dict_get_elem_of|].
    cbn in Htest. by apply bool_decide_eq_true in Htest.
  - intros (name & t & Hget & Hsize). exists (name, PerStage t). split.
    + by apply list_elem_of_In, dict_get_Some_elem_of.
    + cbn. by apply bool_decide_eq_true.
Qed.

(** X12: [main] with its summary, on CSV files with integer steps and
    finite values.  With no valid directory it returns without writing.
    On the fallback path (no valid run has a stage series) it returns
    without writing when no metric has a pooled value, and otherwise
    raises inside [generate_curriculum_summary]: the flat results are
    flagged curriculum-aware and a scalar field is subscripted.  On the
    curriculum path it writes both summaries when some metric's table
    has two or more stages, and raises otherwise: every table has at
    most one stage, the flag is false, and the final-window branch
    subscripts a per-stage table with ['mean']. *)
Theorem main_outcomes `{NumPy} fs run_dirs stage_window g :
  (Render.valid_dirs fs run_dirs = [] →
   Render.main fs run_dirs stage_window g = Some ((NoValidDirectories, None), g))
  ∧ (Render.valid_dirs fs run_dirs ≠ [] →
     List.find (has_stage_series fs) (Render.valid_dirs fs run_dirs) = None →
     ((∀ key info, (key, info) ∈ metrics →
         pooled_final_values fs (Render.valid_dirs fs run_dirs) key stage_window = []) →
      Render.main fs run_dirs stage_window g = Some ((NoMetricsAnalyzed, None), g))
     ∧ ((∃ key info, (key, info) ∈ metrics
           ∧ pooled_final_values fs (Render.valid_dirs fs run_dirs) key stage_window ≠ []) →
        Render.main fs run_dirs stage_window g = None))
  ∧ (is_Some (List.find (has_stage_series fs) (Render.valid_dirs fs run_dirs)) →
     ∃ res g',
       analyze_curriculum_aware fs (Render.valid_dirs fs run_dirs) stage_window g
       = Some (res, g')
       ∧ ((∃ name by_stage, dict_get res name = Some (PerStage by_stage)
                            ∧ (1 < size by_stage)%nat) →
          ∃ written,
            Render.main fs run_dirs stage_window g
            = Some ((SummaryGenerated res true, Some written), g'))
       ∧ ((∀ name by_stage, dict_get res name = Some (PerStage by_stage) →
                            (size by_stage ≤ 1)%nat) →
          Render.main fs run_dirs stage_window g = None)).
Proof.
  unfold Render.main, main. fold (Render.valid_dirs fs run_dirs).
  set (valid := Render.valid_dirs fs run_dirs).
  split; [|split].
  - intros ->. done.
  - intros Hvalid Hfind.
    assert (truthy valid = true) as -> by (by destruct valid).
    rewrite no_stage_series_takes_the_fallback
      by (by rewrite find_all_stage_ranges_first, Hfind).
    unfold analyze_final_performance_only. split.
    + intros Hnone. unfold mbind, M_bind.
      by rewrite (fallback_loop_no_data fs valid stage_window metrics [] g Hnone).
    + intros (key & info & Hin & Hdata).
      destruct (fallback_loop_result fs valid stage_window metrics [] g)
        as (res & g' & Hrun & Hentries).
      destruct (Hentries metrics_names_NoDup key info Hin) as [_ Hsome].
      destruct (Hsome Hdata) as [g0 Hget].
      assert (res ≠ []) as Hne by (intros ->; done).
      assert (Forall (λ kv, ∃ r, kv.2 = Flat r) res) as Hflat
        by (eapply fallback_entries_are_flat; [apply Forall_nil_2|exact Hrun]).
      unfold mbind, M_bind, mret, M_ret, raise_if_none. rewrite Hrun.
      assert (truthy res = true) as -> by (by destruct res).
      rewrite (flat_results_pass_the_stage_test res Hne Hflat).
      by rewrite (flat_results_do_not_render res Hne Hflat).
  - intros [d Hfind].
    assert (valid ≠ []) as Hvalid by (intros E; by rewrite E in Hfind).
    assert (truthy valid = true) as -> by (by destruct valid).
    destruct (analyze_curriculum_aware_total fs valid stage_window g)
      as (res & g' & Hrun & _).
    exists res, g'. split; [done|].
    assert (analyze_metrics fs valid (stage_ranges_of fs d) stage_window metrics [] g
            = Some (res, g')) as Hmetrics.
    { rewrite <- Hrun. unfold analyze_curriculum_aware.
      unfold mbind at 1, M_bind at 1, raise_if_none at 1.
      by rewrite find_all_stage_ranges_first, Hfind. }
    destruct (curriculum_results_are_tables _ _ _ _ _ _ _ Hmetrics) as (Hnd & Htables & Hne).
    unfold mbind, M_bind, mret, M_ret, raise_if_none. rewrite Hrun.
    assert (truthy res = true) as -> by (by destruct res).
    split.
    + intros Hmany. rewrite (proj2 (per_stage_flag res Hnd Htables) Hmany).
      destruct (per_stage_results_render res Hnd Htables) as [written ->].
      by exists written.
    + intros Hfew.
      assert (is_curriculum_aware res = false) as ->.
      { destruct (is_curriculum_aware res) eqn:Hflag; [|done].
        apply (per_stage_flag res Hnd Htables) in Hflag as (name & t & Hget & Hsize).
        specialize (Hfew name t Hget). lia. }
      by rewrite (per_stage_results_do_not_render_flat res Htables Hne).
Qed.

(** A fallback run, a single-stage run and a run with no metric series
    all raise; the two-stage scenario is written, and its final table
    reports stage 1. *)
Example main_on_the_scenarios :
  Render.main (H := Concrete.numpy) no_stage_fs ["run1"] 50 1 = None
  ∧ Render.main (H := Concrete.numpy) single_stage_fs ["run1"] 50 1 = None
  ∧ Render.main (H := Concrete.numpy) stage_only_fs ["run1"] 50 1 = None
  ∧ ∃ res written g',
      Render.main (H := Concrete.numpy) two_run_fs ["runA"; "runB"] 50 1
      = Some ((SummaryGenerated res true, Some written), g')
      ∧ Render.latex_rows written
        = [Render.LatexStageRow "Success Rate"
             (Render.Stats (3 # 5) (0 # 1) (0 # 1) (0 # 1) "percentage")
             (Render.KInt 1) "Simple Navigation"].
Proof.
  split; [vm_compute; reflexivity|]. split; [vm_compute; reflexivity|].
  split; [vm_compute; reflexivity|].
  do 3 eexists. split; [vm_compute; reflexivity|]. vm_compute. reflexivity.
Qed.

(** ** The summary script *)

Lemma get_final_performance_values_tail values window :
  get_final_performance_values values window = tail_window values window.
Proof.
  unfold get_final_performance_values, tail_window.
  destruct values as [|x values]; cbn [truthy negb orb].
  - case_decide; [|done]. unfold py_slice_from. by destruct (_ <? _); rewrite drop_nil.
  - case_bool_decide; case_decide; try done; lia.
Qed.

Lemma get_final_performance_values_last values window :
  1 ≤ window →
  get_final_performance_values values window
  = drop (length values - Z.to_nat window) values.
Proof.
  intros Hw. rewrite get_final_performance_values_tail. unfold tail_window.
  case_decide as Hle.
  - destruct (decide (window = Z.of_nat (length values))) as [->|Hne].
    + unfold py_slice_from. destruct (Z.ltb_spec (- Z.of_nat (length values)) 0); [|lia].
      f_equal. lia.
    + by rewrite py_slice_from_last by lia.
  - replace (length values - Z.to_nat window)%nat with 0%nat by lia. done.
Qed.

(** X13: [get_final_performance] with a window of at least one sample
    summarises the last [min(window, len(values))] values: all of them
    when the series is shorter than the window.  On a non-empty series
    the four statistics are those of that window; on an empty one all
    four are 0. *)
Theorem final_performance_window `{NumPy} (values : list Q) (window : Z) :
  1 ≤ window →
  get_final_performance_values values window
  = drop (length values - Z.to_nat window) values
  ∧ length (get_final_performance_values values window)
    = (length values `min` Z.to_nat window)%nat
  ∧ fp_mean (get_final_performance values window)
    = get_final_performance_mean values window
  ∧ (values = [] →
     get_final_performance values window
     = FinalPerformance (0 # 1) (0 # 1) (0 # 1) (0 # 1))
  ∧ (values ≠ [] →
     get_final_performance values window
     = FinalPerformance
         (np_mean (drop (length values - Z.to_nat window) values))
         (np_std (drop (length values - Z.to_nat window) values))
         (np_min (drop (length values - Z.to_nat window) values))
         (np_max (drop (length values - Z.to_nat window) values))).
Proof.
  intros Hw. pose proof (get_final_performance_values_last values window Hw) as Hlast.
  split; [exact Hlast|]. split; [rewrite Hlast, length_drop; lia|]. split.
  { unfold get_final_performance, get_final_performance_mean.
    by destruct (truthy (get_final_performance_values values window)). }
  split.
  { intros ->. done. }
  intros Hne. unfold get_final_performance. rewrite Hlast.
  assert (Hfinal : drop (length values - Z.to_nat window) values ≠ []).
  { intros Hnil. apply (f_equal length) in Hnil. rewrite length_drop in Hnil.
    destruct values; [done|]. cbn in Hnil. lia. }
  destruct (drop (length values - Z.to_nat window) values) as [|x l] eqn:E; [done|].
  done.
Qed.

Lemma final_performance_window_witness :
  1 ≤ 2
  ∧ get_final_performance_values sharp_tail_values 2
    = drop (length sharp_tail_values - Z.to_nat 2) sharp_tail_values
  ∧ length (get_final_performance_values sharp_tail_values 2)
    = (length sharp_tail_values `min` Z.to_nat 2)%nat
  ∧ fp_mean (get_final_performance (H := Concrete.numpy) sharp_tail_values 2)
    = get_final_performance_mean sharp_tail_values 2
  ∧ (sharp_tail_values = [] →
     get_final_performance (H := Concrete.numpy) sharp_tail_values 2
     = FinalPerformance (0 # 1) (0 # 1) (0 # 1) (0 # 1))
  ∧ (sharp_tail_values ≠ [] →
     get_final_performance (H := Concrete.numpy) sharp_tail_values 2
     = FinalPerformance
         (np_mean (drop (length sharp_tail_values - Z.to_nat 2) sharp_tail_values))
         (np_std (H := Concrete.numpy)
                 (drop (length sharp_tail_values - Z.to_nat 2) sharp_tail_values))
         (np_min (drop (length sharp_tail_values - Z.to_nat 2) sharp_tail_values))
         (np_max (drop (length sharp_tail_values - Z.to_nat 2) sharp_tail_values))).
Proof.
  assert (H1 : 1 ≤ 2) by lia.
  split; [exact H1|].
  exact (final_performance_window (H := Concrete.numpy) sharp_tail_values 2 H1).
Defined.

Lemma contributes_truthy fs d metric_key :
  contributes fs d metric_key = truthy (run_values fs metric_key d).
Proof.
  unfold contributes, run_values, path_exists, load_csv_data.
  by destruct (read_file fs d (csv_name metric_key)) as [rows|].
Qed.

Lemma collect_final_means_spec fs metric_key final_window run_dirs :
  ∀ all_final_values,
    collect_final_means fs run_dirs metric_key final_window all_final_values
    = all_final_values ++ final_means fs run_dirs metric_key final_window.
Proof.
  unfold final_means, contributing_runs.
  induction run_dirs as [|d run_dirs IH]; intros acc; [by rewrite app_nil_r|].
  cbn [collect_final_means List.filter]. rewrite IH. clear IH.
  assert (Hd : (if path_exists fs d (csv_name metric_key)
                then let '(_, values) := load_csv_data fs d (csv_name metric_key) in
                     if truthy values
                     then acc ++ [get_final_performance_mean values final_window]
                     else acc
                else acc)
               = acc ++ (if contributes fs d metric_key
                         then [get_final_performance_mean (run_values fs metric_key d)
                                                          final_window]
                         else [])).
  { unfold contributes, run_values.
    destruct (path_exists fs d (csv_name metric_key)); [|by rewrite app_nil_r].
    destruct (load_csv_data fs d (csv_name metric_key)) as [steps values].
    cbn [fst snd andb]. destruct (truthy values); [done|by rewrite app_nil_r]. }
  rewrite Hd. destruct (contributes fs d metric_key).
  - cbn [fmap list_fmap]. by rewrite <- app_assoc.
  - by rewrite app_nil_r.
Qed.

(** The interval of [analyze_runs]: a bootstrap over the per-run means
    when there are several, otherwise one computed from [run_dirs[0]]. *)
Lemma analyze_runs_ci_result `{NumPy} fs d0 others metric_key final_window means g :
  analyze_runs_ci fs (d0 :: others) metric_key final_window means g
  = Some (if decide (1 < length means)%nat
          then bootstrap_ci means default_n_bootstrap default_confidence g
          else if contributes fs d0 metric_key
               then bootstrap_ci
                      (get_final_performance_values (run_values fs metric_key d0)
                                                    final_window)
                      default_n_bootstrap default_confidence g
               else ((0 # 1, 0 # 1)%Q, g)).
Proof.
  unfold analyze_runs_ci. case_decide; [done|].
  cbn [head]. unfold mbind, M_bind, raise_if_none.
  rewrite contributes_truthy, get_final_performance_values_tail.
  unfold run_values, tail_window.
  destruct (load_csv_data fs d0 (csv_name metric_key)) as [steps values]. cbn [fst snd].
  by destruct (truthy values).
Qed.

Lemma analyze_runs_loop_other_names `{NumPy} fs run_dirs final_window name ms :
  ∀ res g res' g',
    name ∉ (λ m, mi_name m.2) <$> ms →
    analyze_runs_loop fs run_dirs final_window ms res g = Some (res', g') →
    dict_get res' name = dict_get res name.
Proof.
  induction ms as [|[k0 i0] ms IH]; intros res g res' g' Hname Hrun.
  - cbn in Hrun. by inversion Hrun.
  - cbn [analyze_runs_loop] in Hrun.
    cbn in Hname. apply not_elem_of_cons in Hname as [Hne Hname].
    destruct (truthy _); [|by eapply IH].
    apply M_bind_Some in Hrun as (ci & g1 & _ & Hrun).
    rewrite (IH _ _ _ _ Hname Hrun). by apply dict_get_set_ne.
Qed.

Lemma final_means_runs fs run_dirs metric_key final_window :
  length (final_means fs run_dirs metric_key final_window)
  = length (contributing_runs fs run_dirs metric_key)
  ∧ (final_means fs run_dirs metric_key final_window ≠ [] → run_dirs ≠ []).
Proof.
  unfold final_means. rewrite length_fmap. split; [done|].
  intros Hne ->. by apply Hne.
Qed.

(** The loop of [analyze_runs]: it never raises; a metric some run
    contributes to gets an entry built from the per-run final means. *)
Lemma analyze_runs_loop_result `{NumPy} fs run_dirs final_window ms :
  ∀ res g,
    ∃ res' g',
      analyze_runs_loop fs run_dirs final_window ms res g = Some (res', g')
      ∧ (NoDup ((λ m, mi_name m.2) <$> ms) →
         ∀ key info, (key, info) ∈ ms →
           (final_means fs run_dirs key final_window = [] →
            dict_get res' (mi_name info) = dict_get res (mi_name info))
           ∧ (final_means fs run_dirs key final_window ≠ [] →
              ∃ ci g0 g1,
                analyze_runs_ci fs run_dirs key final_window
                  (final_means fs run_dirs key final_window) g0 = Some (ci, g1)
                ∧ dict_get res' (mi_name info)
                  = Some (AggregateResult
                            (np_mean (final_means fs run_dirs key final_window))
                            (if decide
                                  (1 < length (final_means fs run_dirs key final_window))%nat
                             then np_std (final_means fs run_dirs key final_window)
                             else (0 # 1)%Q)
                            ci.1 ci.2 (mi_format info)
                            (length (final_means fs run_dirs key final_window))))).
Proof.
  induction ms as [|[k0 i0] ms IH]; intros res g.
  - exists res, g. split; [done|]. intros _ key info Hin. by apply elem_of_nil in Hin.
  - cbn [analyze_runs_loop].
    rewrite collect_final_means_spec, app_nil_l.
    set (means0 := final_means fs run_dirs k0 final_window).
    destruct (truthy means0) eqn:Hdata.
    + assert (Hdirs : run_dirs ≠ []).
      { apply (final_means_runs fs run_dirs k0 final_window). fold means0.
        by destruct means0. }
      destruct run_dirs as [|d0 others]; [done|].
      pose proof (analyze_runs_ci_result fs d0 others k0 final_window means0 g) as Hci.
      set (out := if decide _ then _ else _) in Hci. destruct out as [ci g1] eqn:Hout.
      unfold mbind, M_bind. rewrite Hci.
      destruct (IH (dict_set res (mi_name i0)
                      (AggregateResult (np_mean means0)
                         (if decide (1 < length means0)%nat then np_std means0
                          else (0 # 1)%Q)
                         ci.1 ci.2 (mi_format i0) (length means0))) g1)
        as (res' & g' & Hrun & Hentries).
      exists res', g'. split; [exact Hrun|].
      intros Hnd key info Hin. cbn in Hnd. apply NoDup_cons in Hnd as [Hfresh Hnd].
      apply elem_of_cons in Hin as [Heq|Hin].
      * inversion Heq; subst key info; clear Heq. fold means0. split.
        -- intros Hnil. by rewrite Hnil in Hdata.
        -- intros _. exists ci, g, g1. split; [exact Hci|].
           rewrite (analyze_runs_loop_other_names fs (d0 :: others) final_window _ ms _ g1
                      res' g' Hfresh Hrun).
           apply dict_get_set_eq.
      * destruct (Hentries Hnd key info Hin) as [Hnone Hsome]. split; [|exact Hsome].
        intros Hnil. rewrite (Hnone Hnil). apply dict_get_set_ne.
        intros Heq. apply Hfresh. rewrite Heq.
        apply list_elem_of_fmap. by exists (key, info).
    + destruct (IH res g) as (res' & g' & Hrun & Hentries).
      exists res', g'. split; [exact Hrun|].
      intros Hnd key info Hin. cbn in Hnd. apply NoDup_cons in Hnd as [Hfresh Hnd].
      apply elem_of_cons in Hin as [Heq|Hin]; [|by apply Hentries].
      inversion Heq; subst key info; clear Heq. fold means0. split.
      * intros _.
        by apply (analyze_runs_loop_other_names fs run_dirs final_window _ ms res g res' g').
      * intros Hne. by destruct means0.
Qed.

(** X14: [analyze_runs] never raises.  A metric is reported exactly when
    some run contributes a non-empty series; its mean is the mean of the
    contributing runs' final-window means and [n_runs] the number of
    contributing runs.  With several contributors [std] is the population
    standard deviation of those means and the interval a bootstrap over
    them.  With one contributor [std] is 0 and the interval is taken from
    [run_dirs[0]]: a bootstrap over the very window its mean was computed
    from when that run is the contributor, and [(0.0, 0.0)] when it is
    not. *)
Theorem summary_entries `{NumPy} fs run_dirs final_window g key info :
  (key, info) ∈ metrics →
  ∃ res g',
    analyze_runs fs run_dirs final_window g = Some (res, g')
    ∧ (contributing_runs fs run_dirs key = [] → dict_get res (mi_name info) = None)
    ∧ (contributing_runs fs run_dirs key ≠ [] →
       ∃ r g0 d0 others,
         run_dirs = d0 :: others
         ∧ dict_get res (mi_name info) = Some r
         ∧ ar_mean r = np_mean (final_means fs run_dirs key final_window)
         ∧ ar_n_runs r = length (contributing_runs fs run_dirs key)
         ∧ ar_format r = mi_format info
         ∧ ((1 < ar_n_runs r)%nat →
            ar_std r = np_std (final_means fs run_dirs key final_window)
            ∧ (ar_ci_lower r, ar_ci_upper r)
              = (bootstrap_ci (final_means fs run_dirs key final_window)
                              default_n_bootstrap default_confidence g0).1)
         ∧ (ar_n_runs r = 1%nat →
            ar_std r = (0 # 1)%Q
            ∧ (contributes fs d0 key = true →
               final_means fs run_dirs key final_window
               = [get_final_performance_mean (run_values fs key d0) final_window]
               ∧ (ar_ci_lower r, ar_ci_upper r)
                 = (bootstrap_ci
                      (get_final_performance_values (run_values fs key d0) final_window)
                      default_n_bootstrap default_confidence g0).1)
            ∧ (contributes fs d0 key = false →
               (ar_ci_lower r, ar_ci_upper r) = ((0 # 1)%Q, (0 # 1)%Q)))).
Proof.
  intros Hin. unfold analyze_runs.
  destruct (analyze_runs_loop_result fs run_dirs final_window metrics [] g)
    as (res & g' & Hrun & Hentries).
  exists res, g'. split; [exact Hrun|].
  destruct (Hentries metrics_names_NoDup key info Hin) as [Hnone Hsome].
  destruct (final_means_runs fs run_dirs key final_window) as [Hlen Hdirs].
  split.
  { intros Hnil. apply Hnone. unfold final_means. by rewrite Hnil. }
  intros Hne.
  assert (Hmeans : final_means fs run_dirs key final_window ≠ []).
  { intros Hnil. rewrite Hnil in Hlen. by destruct (contributing_runs fs run_dirs key). }
  destruct (Hsome Hmeans) as (ci & g0 & g1 & Hci & Hget).
  destruct run_dirs as [|d0 others]; [by specialize (Hdirs Hmeans)|].
  eexists _, g0, d0, others. split; [done|]. split; [exact Hget|].
  cbn [ar_mean ar_std ar_ci_lower ar_ci_upper ar_format ar_n_runs].
  rewrite analyze_runs_ci_result in Hci.
  assert (Hsingle : contributes fs d0 key = true →
                    length (final_means fs (d0 :: others) key final_window) = 1%nat →
                    final_means fs (d0 :: others) key final_window
                    = [get_final_performance_mean (run_values fs key d0) final_window]).
  { intros Hfirst. unfold final_means, contributing_runs. cbn [List.filter].
    rewrite Hfirst. cbn [fmap list_fmap length].
    by destruct (List.filter _ others). }
  set (means := final_means fs (d0 :: others) key final_window) in *.
  clearbody means.
  split; [done|]. split; [done|]. split; [done|]. split.
  - intros Hgt. rewrite decide_True in Hci by lia.
    split; [by destruct (decide (1 < length means)%nat); [|lia]|].
    inversion Hci as [Hci']. rewrite Hci'. by destruct ci.
  - intros Hone. rewrite decide_False in Hci by lia.
    split; [by destruct (decide (1 < length means)%nat); [lia|]|]. split.
    + intros Hfirst. rewrite Hfirst in Hci. split; [by apply Hsingle|].
      inversion Hci as [Hci']. rewrite Hci'. by destruct ci.
    + intros Hfirst. rewrite Hfirst in Hci. by inversion Hci.
Qed.

Lemma summary_entries_witness :
  ("Drone__Success", MetricInfo "Success Rate" "percentage") ∈ metrics
  ∧ ∃ res g',
      analyze_runs (H := Concrete.numpy) two_run_fs ["runC"; "runB"] 1 1 = Some (res, g')
      ∧ (contributing_runs two_run_fs ["runC"; "runB"] "Drone__Success" = [] →
         dict_get res "Success Rate" = None)
      ∧ (contributing_runs two_run_fs ["runC"; "runB"] "Drone__Success" ≠ [] →
         ∃ r g0 d0 others,
           ["runC"; "runB"] = d0 :: others
           ∧ dict_get res "Success Rate" = Some r
           ∧ ar_mean r = np_mean (final_means two_run_fs ["runC"; "runB"] "Drone__Success" 1)
           ∧ ar_n_runs r = length (contributing_runs two_run_fs ["runC"; "runB"]
                                     "Drone__Success")
           ∧ ar_format r = "percentage"
           ∧ ((1 < ar_n_runs r)%nat →
              ar_std r = np_std (H := Concrete.numpy)
                           (final_means two_run_fs ["runC"; "runB"] "Drone__Success" 1)
              ∧ (ar_ci_lower r, ar_ci_upper r)
                = (bootstrap_ci (H := Concrete.numpy)
                     (final_means two_run_fs ["runC"; "runB"] "Drone__Success" 1)
                     default_n_bootstrap default_confidence g0).1)
           ∧ (ar_n_runs r = 1%nat →
              ar_std r = (0 # 1)%Q
              ∧ (contributes two_run_fs d0 "Drone__Success" = true →
                 final_means two_run_fs ["runC"; "runB"] "Drone__Success" 1
                 = [get_final_performance_mean
                      (run_values two_run_fs "Drone__Success" d0) 1]
                 ∧ (ar_ci_lower r, ar_ci_upper r)
                   = (bootstrap_ci (H := Concrete.numpy)
                        (get_final_performance_values
                           (run_values two_run_fs "Drone__Success" d0) 1)
                        default_n_bootstrap default_confidence g0).1)
              ∧ (contributes two_run_fs d0 "Drone__Success" = false →
                 (ar_ci_lower r, ar_ci_upper r) = ((0 # 1)%Q, (0 # 1)%Q)))).
Proof.
  assert (H1 : ("Drone__Success", MetricInfo "Success Rate" "percentage") ∈ metrics)
    by left.
  split; [exact H1|].
  exact (summary_entries (H := Concrete.numpy) two_run_fs ["runC"; "runB"] 1 1
           "Drone__Success" (MetricInfo "Success Rate" "percentage") H1).
Defined.

(** With [runB] the only contributor and listed second, the reported
    interval is [(0, 0)]. *)
Example summary_lone_contributor_listed_second :
  analyze_runs (H := Concrete.numpy) two_run_fs ["runC"; "runB"] 1 1
  = Some ([("Success Rate",
            AggregateResult (7 # 10) (0 # 1) (0 # 1) (0 # 1) "percentage" 1)], 1).
Proof. vm_compute. reflexivity. Qed.

(** * The stand-in percentile *)

(** The stand-in percentile of 1, 2, 3 at ranks 0, 50 and 100. *)
Example percentile_ranks :
  Concrete.percentile [1 # 1; 2 # 1; 3 # 1]%Q 0 = (1 # 1)%Q
  ∧ Concrete.percentile [3 # 1; 1 # 1; 2 # 1]%Q 50 = (2 # 1)%Q
  ∧ Concrete.percentile [1 # 1; 2 # 1; 3 # 1]%Q 100 = (3 # 1)%Q
  ∧ Concrete.percentile [1 # 1; 2 # 1]%Q 25 = (5 # 4)%Q.
Proof. repeat split; vm_compute; reflexivity. Qed.

(** * The export helpers *)

Example sanitized_tags_are_the_metric_keys :
  sanitize_filename "Drone/Success" = "Drone__Success"
  ∧ sanitize_filename "Drone/Collisions" = "Drone__Collisions"
  ∧ sanitize_filename "Environment/Cumulative Reward" = "Environment__Cumulative_Reward"
  ∧ sanitize_filename "Drone/EpisodeLength" = "Drone__EpisodeLength"
  ∧ sanitize_filename "Drone/MinDistance" = "Drone__MinDistance"
  ∧ sanitize_filename "Stage/Current" = "Stage__Current"
  ∧ sanitize_filename "a (b)/c" = "a__b___c".
Proof. repeat split; vm_compute; reflexivity. Qed.

Lemma collapse_unsafe_all_safe s : ∀ in_run, all_safe (collapse_unsafe in_run s) = true.
Proof.
  induction s as [|c s IH]; intros in_run; cbn; [done|].
  destruct (is_safe_char c) eqn:Hc; cbn.
  - by rewrite Hc, IH.
  - destruct in_run; [apply IH|]. cbn. apply IH.
Qed.

Lemma replace_char_safe c by_ s :
  is_safe_char c = false → all_safe s = true → replace_char c by_ s = s.
Proof.
  intros Hc. induction s as [|x s IH]; cbn; [done|].
  intros [Hx Hs]%andb_true_iff. case_decide as Heq.
  - subst x. by rewrite Hc in Hx.
  - by rewrite IH.
Qed.

Lemma collapse_unsafe_safe s : all_safe s = true → collapse_unsafe false s = s.
Proof.
  induction s as [|x s IH]; cbn; [done|].
  intros [Hx Hs]%andb_true_iff. by rewrite Hx, IH.
Qed.

(** X17: a sanitized name consists only of letters, digits, [_], [.] and
    [-], whatever the tag was, and sanitizing is idempotent: a name that
    is already sanitized is left unchanged. *)
Theorem sanitize_filename_safe_and_idempotent (name : string) :
  all_safe (sanitize_filename name) = true
  ∧ sanitize_filename (sanitize_filename name) = sanitize_filename name.
Proof.
  assert (Hsafe : all_safe (sanitize_filename name) = true)
    by apply collapse_unsafe_all_safe.
  split; [exact Hsafe|].
  unfold sanitize_filename at 1.
  rewrite (replace_char_safe "/" "__" _ eq_refl Hsafe).
  rewrite (replace_char_safe " " "_" _ eq_refl Hsafe).
  by apply collapse_unsafe_safe.
Qed.
